(** * Event-session reconstruction of clash-royale-api: model and properties

    A shallow embedding of the event-deck engine of the repository:
    - [battle_log_parser.py]  (class [BattleLogParser]: the session segmenter
      and the battle-record builder),
    - [models/event_deck.py]  ([EventDeck.add_battle], [_update_progress],
      [EventDeckCollection.add_deck]),
    - [event_deck_manager.py] ([save_event_deck], [get_event_decks] and the
      per-card tables of [analyze_event_decks]).

    Conventions of the embedding.
    - Python [int] is [Z]; [str] is [string] (the UTF-8 bytes of the text:
      byte-wise lexicographic order is code-point order, so [sorted] on [str]
      is modelled exactly; [lower] is exact on ASCII text).
    - A naive [datetime] is the number of microseconds since midnight of the
      day before 0001-01-01 (proleptic Gregorian calendar, as CPython's
      [toordinal]); comparison, subtraction and [timedelta] arithmetic are
      integer arithmetic on it.
    - Python's true division of two [int]s is the exact rational in [Q]
      (CPython returns the double nearest to it).
    - [datetime.now()] and the built-in [hash] are the two facts of the running
      process the code depends on: the first is read through a small state
      monad over a clock, the second is a parameter of the development.
    - A Python [dict] is an association list in insertion order with unique
      keys.
    - A file of the store holds what [json.dump] wrote to it; reading it back
      goes through the constructor of its model class, which checks the
      declared bounds of the fields and raises when one is broken. *)

From Stdlib Require Import ZArith List Bool Ascii String Lia QArith.
From Stdlib Require Import Sorted Permutation DecimalString DecimalPos DecimalZ.
Import ListNotations.

Open Scope string_scope.
Open Scope list_scope.
Open Scope Z_scope.

(* ================================================================== *)
(** ** Python built-ins on [str] and [list] *)
(* ================================================================== *)

(** [d.get(k, default)] on an optional field. *)
Definition get_default {A : Type} (default : A) (o : option A) : A :=
  match o with Some v => v | None => default end.

(** [str.lower] (ASCII letters). *)
Definition lower_ascii (c : ascii) : ascii :=
  let n := N_of_ascii c in
  if ((65 <=? n) && (n <=? 90))%N then ascii_of_N (n + 32) else c.

Fixpoint lower (s : string) : string :=
  match s with
  | EmptyString => EmptyString
  | String c r => String (lower_ascii c) (lower r)
  end.

(** [needle in hay] for [str]. *)
Fixpoint contains (needle hay : string) {struct hay} : bool :=
  String.prefix needle hay ||
  match hay with
  | EmptyString => false
  | String _ r => contains needle r
  end.

(** [s.replace(a, b)] for one-character [a] and [b]. *)
Fixpoint replace_char (a b : ascii) (s : string) : string :=
  match s with
  | EmptyString => EmptyString
  | String c r => String (if Ascii.eqb c a then b else c) (replace_char a b r)
  end.

(** [s.split(".")[0]]: the text before the first dot. *)
Fixpoint split_dot_head (s : string) : string :=
  match s with
  | EmptyString => EmptyString
  | String c r => if Ascii.eqb c "." then EmptyString else String c (split_dot_head r)
  end.

(** [str(n)] for an [int]. *)
Definition str_of_int (n : Z) : string := NilZero.string_of_int (Z.to_int n).

(** Equality of two [list[str]]. *)
Fixpoint list_str_eqb (l1 l2 : list string) : bool :=
  match l1, l2 with
  | [], [] => true
  | x :: r1, y :: r2 => String.eqb x y && list_str_eqb r1 r2
  | _, _ => false
  end.

(** [sorted(l, key=key)]: the stable sort for a total pre-order [leb] on keys.
    An element is inserted in front of the first one whose key is not smaller,
    so that elements with equal keys keep their order. *)
Section StableSort.
Context {A K : Type} (leb : K -> K -> bool) (key : A -> K).

Fixpoint insert_sorted (x : A) (l : list A) : list A :=
    match l with
    | [] => [x]
    | y :: r => if leb (key x) (key y) then x :: y :: r else y :: insert_sorted x r
    end.

Fixpoint sorted (l : list A) : list A :=
    match l with
    | [] => []
    | x :: r => insert_sorted x (sorted r)
    end.
End StableSort.

(** [sorted] on a [list[str]]. *)
Definition sorted_str : list string -> list string := sorted String.leb (fun s => s).

(** [l[:n]] for an [int] [n] (a negative [n] counts from the end). *)
Definition slice_to {A : Type} (n : Z) (l : list A) : list A :=
  if 0 <=? n then firstn (Z.to_nat n) l
  else firstn (Z.to_nat (Z.of_nat (List.length l) + n)) l.

(* ================================================================== *)
(** ** Python [dict]: insertion-ordered association list *)
(* ================================================================== *)

Definition dict (V : Type) : Type := list (string * V).

Fixpoint dict_get {V : Type} (k : string) (d : dict V) : option V :=
  match d with
  | [] => None
  | (k', v) :: r => if String.eqb k' k then Some v else dict_get k r
  end.

(** [d[k] = v]: an existing key keeps its position, a new key goes last. *)
Fixpoint dict_set {V : Type} (k : string) (v : V) (d : dict V) : dict V :=
  match d with
  | [] => [(k, v)]
  | (k', v') :: r =>
      if String.eqb k' k then (k', v) :: r else (k', v') :: dict_set k v r
  end.

Definition dict_keys {V : Type} (d : dict V) : list string := map fst d.

(* ================================================================== *)
(** ** [datetime] *)
(* ================================================================== *)

Definition datetime : Type := Z.

Definition US_PER_SECOND : Z := 1000000.
Definition US_PER_HOUR : Z := 3600 * US_PER_SECOND.
Definition US_PER_DAY : Z := 24 * US_PER_HOUR.

Definition is_leap (year : Z) : bool :=
  (year mod 4 =? 0) && (negb (year mod 100 =? 0) || (year mod 400 =? 0)).

Definition DAYS_IN_MONTH : list Z := [0; 31; 28; 31; 30; 31; 30; 31; 31; 30; 31; 30; 31].
Definition DAYS_BEFORE_MONTH : list Z :=
  [0; 0; 31; 59; 90; 120; 151; 181; 212; 243; 273; 304; 334].

Definition days_before_year (year : Z) : Z :=
  let y := year - 1 in y * 365 + y / 4 - y / 100 + y / 400.

Definition days_in_month (year month : Z) : Z :=
  if (month =? 2) && is_leap year then 29
  else nth (Z.to_nat month) DAYS_IN_MONTH 0.

Definition days_before_month (year month : Z) : Z :=
  nth (Z.to_nat month) DAYS_BEFORE_MONTH 0
  + (if (2 <? month) && is_leap year then 1 else 0).

Definition ymd2ord (year month day : Z) : Z :=
  days_before_year year + days_before_month year month + day.

(** [(year, month, day)] of a proleptic Gregorian ordinal. *)
Definition ord2ymd (ordinal : Z) : Z * Z * Z :=
  let n := ordinal - 1 in
  let n400 := n / 146097 in
  let n := n mod 146097 in
  let n100 := n / 36524 in
  let n := n mod 36524 in
  let n4 := n / 1461 in
  let n := n mod 1461 in
  let n1 := n / 365 in
  let n := n mod 365 in
  let year := n400 * 400 + 1 + n100 * 100 + n4 * 4 + n1 in
  if (n1 =? 4) || (n100 =? 4) then (year - 1, 12, 31)
  else
    let leapyear := (n1 =? 3) && (negb (n4 =? 24) || (n100 =? 3)) in
    let month := Z.shiftr (n + 50) 5 in
    let preceding :=
      nth (Z.to_nat month) DAYS_BEFORE_MONTH 0
      + (if (2 <? month) && leapyear then 1 else 0) in
    if n <? preceding then
      let month' := month - 1 in
      let preceding' :=
        preceding - (nth (Z.to_nat month') DAYS_IN_MONTH 0
                     + (if (month' =? 2) && leapyear then 1 else 0)) in
      (year, month', n - preceding' + 1)
    else (year, month, n - preceding + 1).

(** The [datetime] with the given fields. *)
Definition mk_datetime (year month day hour minute second microsecond : Z) : datetime :=
  (((ymd2ord year month day * 24 + hour) * 60 + minute) * 60 + second) * US_PER_SECOND
  + microsecond.

(** The constructor [datetime(...)] raises [ValueError] outside these ranges. *)
Definition valid_fields (year month day hour minute second : Z) : bool :=
  (1 <=? year) && (year <=? 9999) && (1 <=? month) && (month <=? 12)
  && (1 <=? day) && (day <=? days_in_month year month)
  && (0 <=? hour) && (hour <=? 23) && (0 <=? minute) && (minute <=? 59)
  && (0 <=? second) && (second <=? 59).

Definition datetime_MIN : datetime := mk_datetime 1 1 1 0 0 0 0.
Definition datetime_MAX : datetime := mk_datetime 9999 12 31 23 59 59 999999.

(** Zero-padded decimal fields of [strftime]. *)
Definition digit_char (d : Z) : ascii := ascii_of_N (Z.to_N d + 48).

Definition pad2 (n : Z) : string :=
  String (digit_char (n / 10)) (String (digit_char (n mod 10)) EmptyString).

Definition pad4 (n : Z) : string := (pad2 (n / 100) ++ pad2 (n mod 100))%string.

(** [t.strftime("%Y%m%d")], the year in four digits. *)
Definition strftime_Ymd (t : datetime) : string :=
  let '(y, m, d) := ord2ymd (t / US_PER_DAY) in
  (pad4 y ++ pad2 m ++ pad2 d)%string.

(** *** [datetime.strptime(s, "%Y%m%dT%H%M%S")]

    CPython turns the format into one regular expression, a concatenation of
    one group of alternatives per directive, matches it at the start of the
    text with a backtracking matcher (earlier alternatives first), and raises
    [ValueError] when nothing matches, when text remains after the match, or
    when the fields are not a date.  The groups are
    [%Y = \d\d\d\d], [%m = 1[0-2]|0[1-9]|[1-9]],
    [%d = 3[01]|[12]\d|0[1-9]|[1-9]| [1-9]], [%H = 2[0-3]|[0-1]\d|\d],
    [%M = [0-5]\d|\d], [%S = 6[01]|[0-5]\d|\d]; letters match without regard
    to case.  The digits of the model are the ASCII digits. *)

Definition charclass : Type := ascii -> bool.

Definition chr (a : ascii) : charclass := fun c => Ascii.eqb c a.
Definition rng (lo hi : ascii) : charclass :=
  fun c => ((N_of_ascii lo <=? N_of_ascii c) && (N_of_ascii c <=? N_of_ascii hi))%N.
Definition dig : charclass := rng "0" "9".

(** Match a sequence of character classes at the start of [s]:
    the matched text and the rest. *)
Fixpoint match_classes (cs : list charclass) (s : string) : option (string * string) :=
  match cs with
  | [] => Some (EmptyString, s)
  | k :: cs' =>
      match s with
      | EmptyString => None
      | String c r =>
          if k c then
            match match_classes cs' r with
            | Some (m, rest) => Some (String c m, rest)
            | None => None
            end
          else None
      end
  end.

(** [int(text)] of a matched group (a leading blank is ignored). *)
Fixpoint int_of_text (acc : Z) (s : string) : Z :=
  match s with
  | EmptyString => acc
  | String c r =>
      if dig c then int_of_text (10 * acc + (Z.of_N (N_of_ascii c) - 48)) r
      else int_of_text acc r
  end.

(** All ways one group matches at the start of [s], in the matcher's order. *)
Definition group_matches (alts : list (list charclass)) (s : string) : list (Z * string) :=
  flat_map
    (fun alt =>
       match match_classes alt s with
       | Some (m, rest) => [(int_of_text 0 m, rest)]
       | None => []
       end)
    alts.

Definition re_Y : list (list charclass) := [[dig; dig; dig; dig]].
Definition re_m : list (list charclass) :=
  [[chr "1"; rng "0" "2"]; [chr "0"; rng "1" "9"]; [rng "1" "9"]].
Definition re_d : list (list charclass) :=
  [[chr "3"; rng "0" "1"]; [rng "1" "2"; dig]; [chr "0"; rng "1" "9"];
   [rng "1" "9"]; [chr " "; rng "1" "9"]].
Definition re_T : list (list charclass) := [[fun c => Ascii.eqb c "T" || Ascii.eqb c "t"]].
Definition re_H : list (list charclass) :=
  [[chr "2"; rng "0" "3"]; [rng "0" "1"; dig]; [dig]].
Definition re_M : list (list charclass) := [[rng "0" "5"; dig]; [dig]].
Definition re_S : list (list charclass) :=
  [[chr "6"; rng "0" "1"]; [rng "0" "5"; dig]; [dig]].

(** All matches of the whole format at the start of [s], first match first. *)
Definition format_matches (s : string) : list (Z * Z * Z * Z * Z * Z * string) :=
  flat_map (fun '(y, s1) =>
  flat_map (fun '(m, s2) =>
  flat_map (fun '(d, s3) =>
  flat_map (fun '(_, s4) =>
  flat_map (fun '(hh, s5) =>
  flat_map (fun '(mm, s6) =>
  map (fun '(ss, s7) => (y, m, d, hh, mm, ss, s7))
      (group_matches re_S s6))
      (group_matches re_M s5))
      (group_matches re_H s4))
      (group_matches re_T s3))
      (group_matches re_d s2))
      (group_matches re_m s1))
      (group_matches re_Y s).

(** [None] stands for the [ValueError]. *)
Definition strptime (s : string) : option datetime :=
  match format_matches s with
  | [] => None
  | (y, m, d, hh, mm, ss, rest) :: _ =>
      match rest with
      | EmptyString =>
          if valid_fields y m d hh mm ss then Some (mk_datetime y m d hh mm ss 0)
          else None
      | String _ _ => None
      end
  end.

(* ================================================================== *)
(** ** The clock: [datetime.now()] *)
(* ================================================================== *)

(** A computation that may read the clock: it is given the number of readings
    made so far and returns its result with the new number. *)
Definition Clock (A : Type) : Type := nat -> A * nat.

Definition ret {A : Type} (a : A) : Clock A := fun n => (a, n).

Definition bind {A B : Type} (c : Clock A) (k : A -> Clock B) : Clock B :=
  fun n => let '(a, n') := c n in k a n'.

Notation "x <- c ;; k" := (bind c (fun x => k))
  (at level 61, c at next level, right associativity).

Fixpoint foldM {A S : Type} (f : S -> A -> Clock S) (l : list A) (s : S) : Clock S :=
  match l with
  | [] => ret s
  | x :: r => s' <- f s x ;; foldM f r s'
  end.

(* ================================================================== *)
(** ** models/event_deck.py: the data model *)
(* ================================================================== *)

Inductive EventType : Type :=
| CHALLENGE | TOURNAMENT | SPECIAL_EVENT | GRAND_CHALLENGE
| CLASSIC_CHALLENGE | DRAFT_CHALLENGE | SUDDEN_DEATH | DOUBLE_ELIMINATION.

Inductive EventProgress : Type :=
| IN_PROGRESS | COMPLETED | ELIMINATED | FORFEITED.

Definition EventType_eqb (a b : EventType) : bool :=
  match a, b with
  | CHALLENGE, CHALLENGE | TOURNAMENT, TOURNAMENT
  | SPECIAL_EVENT, SPECIAL_EVENT | GRAND_CHALLENGE, GRAND_CHALLENGE
  | CLASSIC_CHALLENGE, CLASSIC_CHALLENGE | DRAFT_CHALLENGE, DRAFT_CHALLENGE
  | SUDDEN_DEATH, SUDDEN_DEATH | DOUBLE_ELIMINATION, DOUBLE_ELIMINATION => true
  | _, _ => false
  end.

Definition EventProgress_eqb (a b : EventProgress) : bool :=
  match a, b with
  | IN_PROGRESS, IN_PROGRESS | COMPLETED, COMPLETED
  | ELIMINATED, ELIMINATED | FORFEITED, FORFEITED => true
  | _, _ => false
  end.

Module CardInDeck.
Record t : Type := mk {
    name : string;
    id : Z;
    level : Z;
    max_level : Z;
    rarity : string;
    elixir_cost : Z
  }.
End CardInDeck.

Module BattleRecord.
Record t : Type := mk {
    timestamp : datetime;
    opponent_tag : string;
    opponent_name : option string;
    result : string;
    crowns : Z;
    opponent_crowns : Z;
    trophy_change : option Z;
    battle_mode : option string
  }.
End BattleRecord.

Module Deck.
Record t : Type := mk {
    cards : list CardInDeck.t;
    avg_elixir : Q
  }.
End Deck.

Module EventPerformance.
Record t : Type := mk {
    wins : Z;
    losses : Z;
    win_rate : Q;
    crowns_earned : Z;
    crowns_lost : Z;
    max_wins : option Z;
    current_streak : Z;
    best_streak : Z;
    progress : EventProgress
  }.

  (** [EventPerformance()]: all defaults. *)
Definition default : t := mk 0 0 0%Q 0 0 None 0 0 IN_PROGRESS.

Definition set_progress (v : EventProgress) (p : t) : t :=
    mk (wins p) (losses p) (win_rate p) (crowns_earned p) (crowns_lost p)
       (max_wins p) (current_streak p) (best_streak p) v.

Definition set_win_rate (v : Q) (p : t) : t :=
    mk (wins p) (losses p) v (crowns_earned p) (crowns_lost p)
       (max_wins p) (current_streak p) (best_streak p) (progress p).
End EventPerformance.

Module EventDeck.
Record t : Type := mk {
    event_id : string;
    player_tag : string;
    event_name : string;
    event_type : EventType;
    start_time : datetime;
    end_time : option datetime;
    deck : Deck.t;
    performance : EventPerformance.t;
    battles : list BattleRecord.t;
    notes : option string
  }.

Definition set_performance (v : EventPerformance.t) (d : t) : t :=
    mk (event_id d) (player_tag d) (event_name d) (event_type d) (start_time d)
       (end_time d) (deck d) v (battles d) (notes d).

Definition set_battles (v : list BattleRecord.t) (d : t) : t :=
    mk (event_id d) (player_tag d) (event_name d) (event_type d) (start_time d)
       (end_time d) (deck d) (performance d) v (notes d).
End EventDeck.

Module EventDeckCollection.
Record t : Type := mk {
    player_tag : string;
    decks : list EventDeck.t;
    last_updated : datetime
  }.
End EventDeckCollection.

(* ================================================================== *)
(** ** The battle log of the game API (JSON) *)
(* ================================================================== *)

(** The keys the parser reads; [None] is an absent key. *)
Module Json.
Record card : Type := mk_card {
    name : option string;
    slot : option Z
  }.

Record player : Type := mk_player {
    cards : option (list card);
    crowns : option Z;
    tag : option string;
    player_name : option string;
    trophyChange : option Z
  }.

Record battle : Type := mk_battle {
    battleTime : option string;
    gameMode : option string;       (* gameMode.name *)
    team : option (list player);
    opponent : option (list player);
    isLadderBattle : option bool
  }.
End Json.

(** The [dict] built by [_extract_event_data]. *)
Module EventData.
Record t : Type := mk {
    event_type : EventType;
    event_name : string;
    battle_mode : string;
    deck_cards : list string
  }.
End EventData.

(* ================================================================== *)
(** ** battle_log_parser.py: the pure part *)
(* ================================================================== *)

Definition EVENT_BATTLE_MODES : list (string * EventType) :=
  [ ("Challenge", CHALLENGE);
    ("Grand Challenge", GRAND_CHALLENGE);
    ("Classic Challenge", CLASSIC_CHALLENGE);
    ("Draft Challenge", DRAFT_CHALLENGE);
    ("Tournament", TOURNAMENT);
    ("Special Event", SPECIAL_EVENT);
    ("Sudden Death", SUDDEN_DEATH);
    ("Double Elimination", DOUBLE_ELIMINATION) ].

Definition EVENT_PATTERNS : list (string * string) :=
  [ ("lava", "Lava Hound Challenge");
    ("hog", "Hog Rider Challenge");
    ("mortar", "Mortar Challenge");
    ("graveyard", "Graveyard Challenge");
    ("ram rage", "Ram Rage Challenge");
    ("sparky", "Sparky Challenge");
    ("electro", "Electro Challenge");
    ("skeleton", "Skeleton Army Challenge");
    ("bandit", "Bandit Challenge");
    ("night witch", "Night Witch Challenge");
    ("royale", "Clash Royale Championship");
    ("worlds", "World Championship");
    ("ccgs", "Clash Championship Series") ].

(** [battle.get("gameMode", {}).get("name", "")]. *)
Definition mode_name_of (battle : Json.battle) : string :=
  get_default "" (Json.gameMode battle).

(** [not cards] for [player.get("cards", [])]. *)
Definition no_cards (player : Json.player) : bool :=
  match get_default [] (Json.cards player) with
  | [] => true
  | _ :: _ => false
  end.

Definition _is_event_battle (battle : Json.battle) : bool :=
  let mode := lower (mode_name_of battle) in
  if existsb (fun event_mode => contains (lower (fst event_mode)) mode) EVENT_BATTLE_MODES
  then true
  else if existsb no_cards (get_default [] (Json.team battle)) then true
  else if negb (get_default true (Json.isLadderBattle battle)) then true
  else false.

(** The card names of the first player of the team, by slot when every card
    has one.  (The source sorts the roster of the battle in place; sorting it
    again gives the same roster, and nothing modelled here reads the order of
    a roster otherwise.) *)
Definition _extract_deck_from_battle (battle : Json.battle) : list string :=
  match get_default [] (Json.team battle) with
  | [] => []
  | player :: _ =>
      let cards := get_default [] (Json.cards player) in
      let cards :=
        if forallb (fun c => match Json.slot c with Some _ => true | None => false end) cards
        then sorted Z.leb (fun c => get_default 0 (Json.slot c)) cards
        else cards in
      map (fun c => get_default "" (Json.name c)) cards
  end.

Definition _is_same_deck_different_levels (deck1 deck2 : list string) : bool :=
  if negb (Nat.eqb (List.length deck1) (List.length deck2)) then false
  else list_str_eqb (sorted_str deck1) (sorted_str deck2).

(** The value of the first entry of a table whose key satisfies [p]
    (a [for] loop over the items with [break]). *)
Fixpoint first_match {V : Type} (p : string -> bool) (table : list (string * V)) : option V :=
  match table with
  | [] => None
  | (k, v) :: r => if p k then Some v else first_match p r
  end.

Definition _extract_event_data (battle : Json.battle) : EventData.t :=
  let mode_name := mode_name_of battle in
  let event_type :=
    get_default CHALLENGE
      (first_match (fun pattern => contains (lower pattern) (lower mode_name))
                   EVENT_BATTLE_MODES) in
  let mode_lower := lower mode_name in
  let event_name :=
    get_default mode_name
      (first_match (fun pattern => contains pattern mode_lower) EVENT_PATTERNS) in
  EventData.mk event_type event_name mode_name (_extract_deck_from_battle battle).

Definition _is_new_event (battle : Json.battle) (current_event : option EventData.t)
    (battle_time : datetime) (last_battle_time : option datetime) : bool :=
  match current_event with
  | None => true
  | Some current =>
      if match last_battle_time with
         | Some last => US_PER_HOUR <? battle_time - last
         | None => false
         end
      then true
      else
        let new_event_data := _extract_event_data battle in
        if negb (EventType_eqb (EventData.event_type new_event_data)
                               (EventData.event_type current))
        then true
        else
          match get_default [] (Json.team battle) with
          | [] => false
          | _ :: _ =>
              let current_deck := _extract_deck_from_battle battle in
              if negb (list_str_eqb (EventData.deck_cards current) current_deck)
              then negb (_is_same_deck_different_levels
                           (EventData.deck_cards current) current_deck)
              else false
          end
  end.

(** [event_name.lower().replace(" ", "_")]. *)
Definition normalize_event_name (event_name : string) : string :=
  replace_char " " "_" (lower event_name).

(* ================================================================== *)
(** ** The code that depends on the running process *)
(* ================================================================== *)

(** The loop state of [_group_battles_by_event]. *)
Module GroupLoop.
Record t : Type := mk {
    event_groups : dict (EventData.t * list Json.battle);
    current_event : option EventData.t;
    current_battles : list Json.battle;
    last_battle_time : option datetime
  }.

Definition init : t := mk [] None [] None.
End GroupLoop.

(** The constraints the constructor of a model checks on the fields it is
    given, as when a file is read back: [Field(ge=0)] on the counters of
    [EventPerformance], [Field(ge=0, le=1)] on its win rate and
    [Field(ge=0, le=10)] on the average elixir of [Deck].  (Assignments to
    the fields of an existing object, as in [add_battle], are not checked.) *)
Definition valid_performance (p : EventPerformance.t) : bool :=
  (0 <=? EventPerformance.wins p) && (0 <=? EventPerformance.losses p)
  && Qle_bool 0 (EventPerformance.win_rate p) && Qle_bool (EventPerformance.win_rate p) 1
  && (0 <=? EventPerformance.crowns_earned p) && (0 <=? EventPerformance.crowns_lost p)
  && (0 <=? EventPerformance.current_streak p) && (0 <=? EventPerformance.best_streak p).

Definition valid_deck (d : Deck.t) : bool :=
  Qle_bool 0 (Deck.avg_elixir d) && Qle_bool (Deck.avg_elixir d) 10.

Definition valid_session (deck : EventDeck.t) : bool :=
  valid_deck (EventDeck.deck deck) && valid_performance (EventDeck.performance deck).

(** The constructor of [EventDeck] on the data of a file: the session
    written to it when its fields pass the checks, [None] when the
    constructor raises or the file holds no session. *)
Definition read_session (content : option EventDeck.t) : option EventDeck.t :=
  match content with
  | Some written => if valid_session written then Some written else None
  | None => None
  end.

(** The constructor of [EventDeckCollection] on the data of
    [collection.json]: every session of the collection is checked. *)
Definition read_collection (content : option EventDeckCollection.t)
  : option EventDeckCollection.t :=
  match content with
  | Some written =>
      if forallb valid_session (EventDeckCollection.decks written)
      then Some written else None
  | None => None
  end.

(** The directory of one player under [event_decks/]: the [*.json] files of
    each sub-directory in the order [glob] lists them, and [collection.json].
    A file holds what was written to it ([json.dump] of [dict()]): a session,
    or [None] when it holds none; [collection_file] is [None] as well when
    there is no such file.  A file is read back through the constructor of
    its model ([read_session], [read_collection]), which may raise.  Writing
    a file succeeds. *)
Module PlayerDir.
Record t : Type := mk {
    challenges : dict (option EventDeck.t);
    tournaments : dict (option EventDeck.t);
    special_events : dict (option EventDeck.t);
    collection_file : option EventDeckCollection.t
  }.

Definition empty : t := mk [] [] [] None.
End PlayerDir.

Inductive Subdir : Type := Challenges | Tournaments | SpecialEvents.

(** The sub-directory [save_event_deck] and [get_event_decks] use for a type. *)
Definition subdir_of (event_type : EventType) : Subdir :=
  match event_type with
  | TOURNAMENT => Tournaments
  | SPECIAL_EVENT => SpecialEvents
  | _ => Challenges
  end.

Definition Subdir_eqb (a b : Subdir) : bool :=
  match a, b with
  | Challenges, Challenges | Tournaments, Tournaments
  | SpecialEvents, SpecialEvents => true
  | _, _ => false
  end.

Definition read_subdir (d : Subdir) (pd : PlayerDir.t) : dict (option EventDeck.t) :=
  match d with
  | Challenges => PlayerDir.challenges pd
  | Tournaments => PlayerDir.tournaments pd
  | SpecialEvents => PlayerDir.special_events pd
  end.

Definition write_file (d : Subdir) (filename : string) (content : option EventDeck.t)
    (pd : PlayerDir.t) : PlayerDir.t :=
  match d with
  | Challenges =>
      PlayerDir.mk (dict_set filename content (PlayerDir.challenges pd))
        (PlayerDir.tournaments pd) (PlayerDir.special_events pd)
        (PlayerDir.collection_file pd)
  | Tournaments =>
      PlayerDir.mk (PlayerDir.challenges pd)
        (dict_set filename content (PlayerDir.tournaments pd))
        (PlayerDir.special_events pd) (PlayerDir.collection_file pd)
  | SpecialEvents =>
      PlayerDir.mk (PlayerDir.challenges pd) (PlayerDir.tournaments pd)
        (dict_set filename content (PlayerDir.special_events pd))
        (PlayerDir.collection_file pd)
  end.

(** [json.dump(collection.dict(), f)] on [collection.json]: the file then
    holds the collection as written; whether the next load accepts it is for
    [read_collection] to say. *)
Definition set_collection_file (c : EventDeckCollection.t) (pd : PlayerDir.t) : PlayerDir.t :=
  PlayerDir.mk (PlayerDir.challenges pd) (PlayerDir.tournaments pd)
    (PlayerDir.special_events pd) (Some c).

(** [t.strftime("%Y-%m-%d")]. *)
Definition strftime_Y_m_d (t : datetime) : string :=
  let '(y, m, d) := ord2ymd (t / US_PER_DAY) in
  (pad4 y ++ "-" ++ pad2 m ++ "-" ++ pad2 d)%string.

(** [timedelta(days=n)] raises [OverflowError] beyond 999999999 days, and so
    does a [datetime] subtraction that leaves the range of [datetime]. *)
Definition now_minus_days (now : datetime) (days : Z) : option datetime :=
  if Z.abs days <=? 999999999 then
    let t := now - days * US_PER_DAY in
    if (datetime_MIN <=? t) && (t <=? datetime_MAX) then Some t else None
  else None.

(** The first entry with the identity of [deck] is replaced:
    the [for]/[enumerate] loop of [add_deck], [None] when it ends without
    a [return]. *)
Fixpoint replace_existing (deck : EventDeck.t) (decks : list EventDeck.t)
  : option (list EventDeck.t) :=
  match decks with
  | [] => None
  | existing :: rest =>
      if String.eqb (EventDeck.event_id existing) (EventDeck.event_id deck)
      then Some (deck :: rest)
      else option_map (cons existing) (replace_existing deck rest)
  end.

(** The three local tables of [analyze_event_decks]. *)
Module CardTables.
Record t : Type := mk {
    card_usage : dict Z;
    card_wins : dict Z;
    card_losses : dict Z
  }.

Definition empty : t := mk [] [] [].
End CardTables.

Section Process.

  (** The successive readings of [datetime.now()]. *)
Variable wall_clock : nat -> datetime.

  (** The built-in [hash] of this process on a [tuple] of [str]. *)
Variable hash : list string -> Z.

Definition now : Clock datetime := fun n => (wall_clock n, S n).

  (* ---------------------------------------------------------------- *)
  (** *** battle_log_parser.py *)

Definition _parse_battle_time (battle_time : string) : Clock datetime :=
    match strptime (split_dot_head battle_time) with
    | Some t => ret t
    | None => now
    end.

Definition _generate_event_id (event_data : EventData.t) (battle : Json.battle)
    : Clock string :=
    let event_name := normalize_event_name (EventData.event_name event_data) in
    battle_time <- _parse_battle_time (get_default "" (Json.battleTime battle)) ;;
    let date_str := strftime_Ymd battle_time in
    let deck_cards := EventData.deck_cards event_data in
    let deck_hash :=
      match deck_cards with
      | [] => 0
      | _ :: _ => hash (sorted_str deck_cards)
      end in
    ret (event_name ++ "_" ++ date_str ++ "_" ++ str_of_int (Z.abs deck_hash mod 1000))%string.

  (** "Save previous event if exists". *)
Definition save_current (st : GroupLoop.t)
    : Clock (dict (EventData.t * list Json.battle)) :=
    match GroupLoop.current_event st, GroupLoop.current_battles st with
    | Some current_event, first :: _ =>
        event_id <- _generate_event_id current_event first ;;
        ret (dict_set event_id (current_event, GroupLoop.current_battles st)
                      (GroupLoop.event_groups st))
    | _, _ => ret (GroupLoop.event_groups st)
    end.

  (** One turn of the loop over the sorted battles. *)
Definition group_step (st : GroupLoop.t) (battle : Json.battle) : Clock GroupLoop.t :=
    battle_time <- _parse_battle_time (get_default "" (Json.battleTime battle)) ;;
    if _is_new_event battle (GroupLoop.current_event st) battle_time
                     (GroupLoop.last_battle_time st)
    then
      event_groups <- save_current st ;;
      ret (GroupLoop.mk event_groups (Some (_extract_event_data battle)) [battle]
                        (Some battle_time))
    else
      ret (GroupLoop.mk (GroupLoop.event_groups st) (GroupLoop.current_event st)
                        (GroupLoop.current_battles st ++ [battle]) (Some battle_time)).

Definition sorted_battles (battle_logs : list Json.battle) : list Json.battle :=
    sorted String.leb (fun b => get_default "" (Json.battleTime b))
           (filter _is_event_battle battle_logs).

Definition _group_battles_by_event (battle_logs : list Json.battle)
    : Clock (dict (EventData.t * list Json.battle)) :=
    st <- foldM group_step (sorted_battles battle_logs) GroupLoop.init ;;
    save_current st.

Definition _create_battle_record (battle : Json.battle) : Clock (option BattleRecord.t) :=
    match get_default [] (Json.team battle), get_default [] (Json.opponent battle) with
    | team0 :: _, opponent0 :: _ =>
        let team_crowns := get_default 0 (Json.crowns team0) in
        let opponent_crowns := get_default 0 (Json.crowns opponent0) in
        let result := if opponent_crowns <? team_crowns then "win" else "loss" in
        timestamp <- _parse_battle_time (get_default "" (Json.battleTime battle)) ;;
        ret (Some (BattleRecord.mk timestamp
                     (get_default "" (Json.tag opponent0))
                     (Json.player_name opponent0)
                     result team_crowns opponent_crowns
                     (Json.trophyChange team0)
                     (Json.gameMode battle)))
    | _, _ => ret None
    end.

  (* ---------------------------------------------------------------- *)
  (** *** models/event_deck.py *)

  (** The first [if] of [_update_progress]; [max_wins] is tested for truth,
      so [None] and [0] both skip it. *)
Definition progress_by_counters (p : EventPerformance.t) : EventPerformance.t :=
    match EventPerformance.max_wins p with
    | None => p
    | Some max_wins =>
        if max_wins =? 0 then p
        else if max_wins <=? EventPerformance.wins p
             then EventPerformance.set_progress COMPLETED p
        else if 3 <=? EventPerformance.losses p
             then EventPerformance.set_progress ELIMINATED p
        else p
    end.

Definition _update_progress (self : EventDeck.t) : Clock EventDeck.t :=
    let p := progress_by_counters (EventDeck.performance self) in
    match EventDeck.end_time self with
    | None => ret (EventDeck.set_performance p self)
    | Some end_time =>
        t <- now ;;
        if (end_time <? t) && EventProgress_eqb (EventPerformance.progress p) IN_PROGRESS
        then ret (EventDeck.set_performance (EventPerformance.set_progress COMPLETED p) self)
        else ret (EventDeck.set_performance p self)
    end.

  (** "Update wins/losses" and "Update win rate" of [add_battle]. *)
Definition record_result (battle : BattleRecord.t) (p : EventPerformance.t)
    : EventPerformance.t :=
    let p :=
      if String.eqb (BattleRecord.result battle) "win" then
        let current_streak := EventPerformance.current_streak p + 1 in
        EventPerformance.mk
          (EventPerformance.wins p + 1) (EventPerformance.losses p)
          (EventPerformance.win_rate p)
          (EventPerformance.crowns_earned p + BattleRecord.crowns battle)
          (EventPerformance.crowns_lost p)
          (EventPerformance.max_wins p)
          current_streak
          (Z.max (EventPerformance.best_streak p) current_streak)
          (EventPerformance.progress p)
      else
        EventPerformance.mk
          (EventPerformance.wins p) (EventPerformance.losses p + 1)
          (EventPerformance.win_rate p)
          (EventPerformance.crowns_earned p)
          (EventPerformance.crowns_lost p + BattleRecord.opponent_crowns battle)
          (EventPerformance.max_wins p)
          0
          (EventPerformance.best_streak p)
          (EventPerformance.progress p) in
    let total_battles := EventPerformance.wins p + EventPerformance.losses p in
    if 0 <? total_battles
    then EventPerformance.set_win_rate
           (inject_Z (EventPerformance.wins p) / inject_Z total_battles)%Q p
    else p.

Definition add_battle (battle : BattleRecord.t) (self : EventDeck.t) : Clock EventDeck.t :=
    let self := EventDeck.set_battles (EventDeck.battles self ++ [battle]) self in
    let self :=
      EventDeck.set_performance (record_result battle (EventDeck.performance self)) self in
    _update_progress self.

Definition add_deck (deck : EventDeck.t) (self : EventDeckCollection.t)
    : Clock EventDeckCollection.t :=
    let decks :=
      match replace_existing deck (EventDeckCollection.decks self) with
      | Some decks => decks
      | None => EventDeckCollection.decks self ++ [deck]
      end in
    t <- now ;;
    ret (EventDeckCollection.mk (EventDeckCollection.player_tag self) decks t).

  (* ---------------------------------------------------------------- *)
  (** *** event_deck_manager.py *)

Definition deck_filename (event_deck : EventDeck.t) : string :=
    let timestamp := strftime_Y_m_d (EventDeck.start_time event_deck) in
    let event_name :=
      replace_char "/" "_" (replace_char " " "_" (lower (EventDeck.event_name event_deck))) in
    (timestamp ++ "_" ++ event_name ++ ".json")%string.

Definition _update_collection_file (event_deck : EventDeck.t) (pd : PlayerDir.t)
    : Clock PlayerDir.t :=
    collection <-
      match read_collection (PlayerDir.collection_file pd) with
      | Some c => ret c
      | None =>
          t <- now ;;
          ret (EventDeckCollection.mk (EventDeck.player_tag event_deck) [] t)
      end ;;
    collection <- add_deck event_deck collection ;;
    ret (set_collection_file collection pd).

  (** The session is written as it is, valid or not; it is checked when the
      file is read back ([read_session] in [load_file]). *)
Definition save_event_deck (event_deck : EventDeck.t) (pd : PlayerDir.t)
    : Clock PlayerDir.t :=
    let pd :=
      write_file (subdir_of (EventDeck.event_type event_deck)) (deck_filename event_deck)
                 (Some event_deck) pd in
    _update_collection_file event_deck pd.

  (** The body of the loop over the files of the searched sub-directories. *)
Definition load_file (days_back : option Z) (decks : list EventDeck.t)
      (file : string * option EventDeck.t) : Clock (list EventDeck.t) :=
    if String.eqb (fst file) "collection.json" then ret decks
    else
      match read_session (snd file) with
      | None => ret decks
      | Some deck =>
          match days_back with
          | None => ret (decks ++ [deck])
          | Some days =>
              if days =? 0 then ret (decks ++ [deck])
              else
                t <- now ;;
                match now_minus_days t days with
                | None => ret decks
                | Some cutoff =>
                    if EventDeck.start_time deck <? cutoff then ret decks
                    else ret (decks ++ [deck])
                end
          end
      end.

Definition searched_subdirs (event_type : option EventType) : list Subdir :=
    match event_type with
    | Some event_type => [subdir_of event_type]
    | None => [Challenges; Tournaments; SpecialEvents]
    end.

Definition get_event_decks (pd : PlayerDir.t) (event_type : option EventType)
      (days_back : option Z) (limit : option Z) : Clock (list EventDeck.t) :=
    let files := flat_map (fun d => read_subdir d pd) (searched_subdirs event_type) in
    decks <- foldM (load_file days_back) files [] ;;
    let decks := sorted (fun a b => b <=? a) EventDeck.start_time decks in
    ret (match limit with
         | None => decks
         | Some n => if n =? 0 then decks else slice_to n decks
         end).

End Process.

(** The loop "Analyze card usage" of [analyze_event_decks]. *)
Definition count_card (deck : EventDeck.t) (tables : CardTables.t) (card : CardInDeck.t)
  : CardTables.t :=
  let name := CardInDeck.name card in
  let p := EventDeck.performance deck in
  CardTables.mk
    (dict_set name (get_default 0 (dict_get name (CardTables.card_usage tables)) + 1)
              (CardTables.card_usage tables))
    (dict_set name (get_default 0 (dict_get name (CardTables.card_wins tables))
                    + EventPerformance.wins p)
              (CardTables.card_wins tables))
    (dict_set name (get_default 0 (dict_get name (CardTables.card_losses tables))
                    + EventPerformance.losses p)
              (CardTables.card_losses tables)).

Definition card_tables (decks : list EventDeck.t) : CardTables.t :=
  fold_left
    (fun tables deck => fold_left (count_card deck) (Deck.cards (EventDeck.deck deck)) tables)
    decks CardTables.empty.

(** The loop "Calculate card win rates". *)
Definition card_win_rates (decks : list EventDeck.t) : dict Q :=
  let tables := card_tables decks in
  fold_left
    (fun rates card =>
       let total_card_wins := get_default 0 (dict_get card (CardTables.card_wins tables)) in
       let total_card_losses := get_default 0 (dict_get card (CardTables.card_losses tables)) in
       if 0 <? total_card_wins + total_card_losses
       then dict_set card
              (inject_Z total_card_wins / inject_Z (total_card_wins + total_card_losses))%Q
              rates
       else rates)
    (dict_keys (CardTables.card_usage tables)) [].

(* ================================================================== *)
(** ** Notions used to state the properties *)
(* ================================================================== *)

(** Recording a list of battles, one [add_battle] after the other. *)
Definition add_battles (wall_clock : nat -> datetime) (battles : list BattleRecord.t)
    (self : EventDeck.t) : Clock EventDeck.t :=
  foldM (fun s b => add_battle wall_clock b s) battles self.

(** The status the counters alone call for under a cap of [max_wins]. *)
Definition status_of_counters (max_wins : Z) (p : EventPerformance.t) : EventProgress :=
  if max_wins <=? EventPerformance.wins p then COMPLETED
  else if 3 <=? EventPerformance.losses p then ELIMINATED
  else IN_PROGRESS.

(** Completed by the cap: the cap is set and reached. *)
Definition completed_by_cap (self : EventDeck.t) : Prop :=
  EventPerformance.progress (EventDeck.performance self) = COMPLETED
  /\ exists m, EventPerformance.max_wins (EventDeck.performance self) = Some m
               /\ m <> 0 /\ m <= EventPerformance.wins (EventDeck.performance self).

(** The status set by the counters when the cap is set and no end time is. *)
Definition follows_counters (m : Z) (self : EventDeck.t) : Prop :=
  EventDeck.end_time self = None
  /\ EventPerformance.max_wins (EventDeck.performance self) = Some m
  /\ EventPerformance.progress (EventDeck.performance self)
     = status_of_counters m (EventDeck.performance self).

(** The status of a session that had left [in_progress] with the status
    [before], once further battles have brought its counters to [p]: with a
    cap (set and not 0) [completed] when the wins have reached it, else
    [eliminated] when the losses are 3 or more, else [before]; without a cap,
    [before]. *)
Definition status_after (before : EventProgress) (max_wins : option Z)
    (p : EventPerformance.t) : EventProgress :=
  match max_wins with
  | Some m =>
      if m =? 0 then before
      else if m <=? EventPerformance.wins p then COMPLETED
      else if 3 <=? EventPerformance.losses p then ELIMINATED
      else before
  | None => before
  end.

(** The cap of a session is set, not 0, and reached by the wins in [p]. *)
Definition cap_reached (self : EventDeck.t) (p : EventPerformance.t) : Prop :=
  exists m, EventPerformance.max_wins (EventDeck.performance self) = Some m
            /\ m <> 0 /\ m <= EventPerformance.wins p.

(** Neither a cap nor an end time: no rule of [_update_progress] applies. *)
Definition no_rule (self : EventDeck.t) : Prop :=
  EventDeck.end_time self = None
  /\ (EventPerformance.max_wins (EventDeck.performance self) = None
      \/ EventPerformance.max_wins (EventDeck.performance self) = Some 0).

(** *** Sample data *)

(** A clock that stands at 2026-11-04 00:00:00. *)
Definition sample_clock : nat -> datetime := fun _ => mk_datetime 2026 11 4 0 0 0 0.

Definition sample_record (result : string) (crowns opponent_crowns : Z) : BattleRecord.t :=
  BattleRecord.mk (mk_datetime 2024 12 8 9 0 0 0) "#OPP" (Some "opponent")
                  result crowns opponent_crowns None (Some "Grand Challenge").

Definition a_win : BattleRecord.t := sample_record "win" 3 1.
Definition a_loss : BattleRecord.t := sample_record "loss" 0 2.

(** A new session as the builder makes it, with the given cap. *)
Definition sample_session (max_wins : option Z) : EventDeck.t :=
  EventDeck.mk "grand_challenge_20241208_456" "#P" "Grand Challenge" CHALLENGE
    (mk_datetime 2024 12 8 9 0 0 0) None (Deck.mk [] 0%Q)
    (EventPerformance.mk 0 0 0%Q 0 0 max_wins 0 0 IN_PROGRESS) [] None.

(** A session with a cap of 10 wins that ended on 2024-12-09, before the
    time of the sample clock. *)
Definition ended_session : EventDeck.t :=
  EventDeck.mk "grand_challenge_20241208_456" "#P" "Grand Challenge" CHALLENGE
    (mk_datetime 2024 12 8 9 0 0 0) (Some (mk_datetime 2024 12 9 0 0 0 0))
    (Deck.mk [] 0%Q)
    (EventPerformance.mk 0 0 0%Q 0 0 (Some 10) 0 0 IN_PROGRESS) [] None.

(** Upserting a list of sessions, one [add_deck] after the other. *)
Definition add_decks (wall_clock : nat -> datetime) (decks : list EventDeck.t)
    (self : EventDeckCollection.t) : Clock EventDeckCollection.t :=
  foldM (fun c d => add_deck wall_clock d c) decks self.

(** The identities of a list of sessions, in order. *)
Definition identities (decks : list EventDeck.t) : list string :=
  map EventDeck.event_id decks.

(** Battles of the log: one player with the given cards against an opponent. *)
Definition sample_cards (names : list string) : list Json.card :=
  map (fun name => Json.mk_card (Some name) None) names.

Definition sample_player (names : list string) (crowns : Z) : Json.player :=
  Json.mk_player (Some (sample_cards names)) (Some crowns) (Some "#PLAYER")
                 (Some "player") None.

Definition sample_battle (battleTime : option string) (mode : string)
    (names : list string) (crowns opponent_crowns : Z) : Json.battle :=
  Json.mk_battle battleTime (Some mode)
    (Some [sample_player names crowns])
    (Some [sample_player ["Knight"] opponent_crowns])
    None.

Definition hog_cycle : list string :=
  ["Hog Rider"; "Fireball"; "Zap"; "Ice Spirit"; "Cannon"; "Musketeer";
   "Skeletons"; "Ice Golem"].

Definition battle_0900 : Json.battle :=
  sample_battle (Some "20241208T090000.000Z") "Grand Challenge" hog_cycle 3 1.
Definition battle_0910 : Json.battle :=
  sample_battle (Some "20241208T091000.000Z") "Grand Challenge" hog_cycle 1 1.
Definition battle_1100 : Json.battle :=
  sample_battle (Some "20241208T110000.000Z") "Grand Challenge" hog_cycle 0 2.

(** The card names of the deck of a session. *)
Definition deck_card_names (deck : EventDeck.t) : list string :=
  map CardInDeck.name (Deck.cards (EventDeck.deck deck)).

Definition contains_card (card : string) (deck : EventDeck.t) : bool :=
  existsb (String.eqb card) (deck_card_names deck).

(** The sum of a counter over the sessions whose deck contains the card. *)
Definition summed (counter : EventDeck.t -> Z) (card : string) (decks : list EventDeck.t) : Z :=
  fold_right Z.add 0 (map counter (filter (contains_card card) decks)).

(** The same sum with every session counted once per copy of the card in its
    deck, which is what the loop over the cards of a deck adds up. *)
Definition copies (card : string) (deck : EventDeck.t) : Z :=
  Z.of_nat (count_occ string_dec (deck_card_names deck) card).

Definition summed_per_copy (counter : EventDeck.t -> Z) (card : string)
    (decks : list EventDeck.t) : Z :=
  fold_right Z.add 0 (map (fun d => copies card d * counter d) decks).

Definition deck_wins (deck : EventDeck.t) : Z :=
  EventPerformance.wins (EventDeck.performance deck).
Definition deck_losses (deck : EventDeck.t) : Z :=
  EventPerformance.losses (EventDeck.performance deck).

(** [d.get(k, 0)]. *)
Definition get0 (k : string) (d : dict Z) : Z := get_default 0 (dict_get k d).

(** A stored session with the given deck and record. *)
Definition sample_card (name : string) : CardInDeck.t :=
  CardInDeck.mk name 26000000 11 14 "common" 3.

Definition stored_session (event_id event_name : string) (event_type : EventType)
    (start_time : datetime) (names : list string) (wins losses : Z) : EventDeck.t :=
  EventDeck.mk event_id "#PLAYER" event_name event_type start_time None
    (Deck.mk (map sample_card names) 3%Q)
    (EventPerformance.mk wins losses 0%Q 0 0 (Some 20) 0 0 IN_PROGRESS) [] None.

(** The order of two elements by their sort keys. *)
Definition key_le {A K : Type} (leb : K -> K -> bool) (key : A -> K) (x y : A) : Prop :=
  leb (key x) (key y) = true.

(** Every readable file lies in the sub-directory of the type of its session,
    which is where [save_event_deck] writes it. *)
Definition well_placed (pd : PlayerDir.t) : Prop :=
  forall (d : Subdir) (filename : string) (deck : EventDeck.t),
    In (filename, Some deck) (read_subdir d pd) ->
    subdir_of (EventDeck.event_type deck) = d.

(** The session started no earlier than the cutoff of some reading of the
    clock made during the query. *)
Definition within_cutoff (wall_clock : nat -> datetime) (first_reading : nat) (days : Z)
    (deck : EventDeck.t) : Prop :=
  exists (k : nat) (cutoff : datetime),
    (first_reading <= k)%nat
    /\ now_minus_days (wall_clock k) days = Some cutoff
    /\ cutoff <= EventDeck.start_time deck.

(** Saving a list of sessions, one [save_event_deck] after the other. *)
Definition save_event_decks (wall_clock : nat -> datetime) (decks : list EventDeck.t)
    (pd : PlayerDir.t) : Clock PlayerDir.t :=
  foldM (fun pd d => save_event_deck wall_clock d pd) decks pd.

(** Two stored sessions: a sudden-death event and a challenge. *)
Definition sudden_death_session : EventDeck.t :=
  stored_session "sudden_death_20241201_456" "Sudden Death" SUDDEN_DEATH
    (mk_datetime 2024 12 1 20 0 0 0) hog_cycle 1 1.
Definition challenge_session : EventDeck.t :=
  stored_session "grand_challenge_20241208_456" "Grand Challenge" CHALLENGE
    (mk_datetime 2024 12 8 9 0 0 0) hog_cycle 2 1.

(** The directory after both have been saved. *)
Definition sample_dir : PlayerDir.t :=
  fst (save_event_decks sample_clock [sudden_death_session; challenge_session]
         PlayerDir.empty 0%nat).

(** The sort key of a battle: [x.get("battleTime", "")]. *)
Definition battle_time_key (battle : Json.battle) : string :=
  get_default "" (Json.battleTime battle).

(** The identity [_generate_event_id] derives when the time of the first
    battle parses to [t]. *)
Definition event_id_at (hash : list string -> Z) (event_data : EventData.t) (t : datetime)
  : string :=
  (normalize_event_name (EventData.event_name event_data) ++ "_" ++ strftime_Ymd t ++ "_"
   ++ str_of_int (Z.abs match EventData.deck_cards event_data with
                        | [] => 0
                        | _ :: _ => hash (sorted_str (EventData.deck_cards event_data))
                        end mod 1000))%string.

(** The built-in hash of two processes with different hash seeds. *)
Definition hash_of_first_run : list string -> Z := fun _ => 123456.
Definition hash_of_second_run : list string -> Z := fun _ => 654321.

(** [t.strftime("%Y%m%dT%H%M%S")] of the [datetime] with these fields: the
    form in which the game API writes [battleTime], before the fraction. *)
Definition api_time_text (y m d hh mm ss : Z) : string :=
  (pad4 y ++ pad2 m ++ pad2 d ++ "T" ++ pad2 hh ++ pad2 mm ++ pad2 ss)%string.

(** A [battleTime] of the API: the fixed-width text of a date and time,
    alone or followed by a fraction that starts with a dot. *)
Definition well_formed_time (s : string) : Prop :=
  exists y m d hh mm ss frac,
    valid_fields y m d hh mm ss = true
    /\ s = (api_time_text y m d hh mm ss ++ frac)%string
    /\ (frac = EmptyString \/ exists r, frac = String "." r).

(** A run of consecutive elements of a list. *)
Definition segment {A : Type} (s l : list A) : Prop :=
  exists pre post, l = pre ++ s ++ post.

(** The timestamps [_parse_battle_time] gives the battles of a group, read
    in order (as the builder does when it makes the battle records). *)
Definition timestamps_of (wall_clock : nat -> datetime) (battles : list Json.battle)
  : Clock (list datetime) :=
  foldM (fun acc b =>
           t <- _parse_battle_time wall_clock (battle_time_key b) ;; ret (acc ++ [t]))
        battles [].

(** The loop invariant of [_group_battles_by_event] after the battles [done]:
    the open session is the last run of [done], and every saved session is a
    run of [done]. *)
Definition group_invariant (done : list Json.battle) (st : GroupLoop.t) : Prop :=
  (exists pre, done = pre ++ GroupLoop.current_battles st)
  /\ forall event_id event_data battles,
       In (event_id, (event_data, battles)) (GroupLoop.event_groups st) ->
       segment battles done.

(** The time a battle's [battleTime] parses to (0 when it does not parse). *)
Definition parsed_time (battle : Json.battle) : datetime :=
  get_default 0 (strptime (split_dot_head (battle_time_key battle))).

(** A battle of the log without a [battleTime]. *)
Definition battle_without_time : Json.battle :=
  sample_battle None "Grand Challenge" hog_cycle 1 0.

(* ================================================================== *)
(** ** Further notions *)
(* ================================================================== *)

(** Every saved session has a first battle and carries the event data read
    from it, and no two sessions are saved under one identity. *)
Definition sessions_well_formed (groups : dict (EventData.t * list Json.battle)) : Prop :=
  NoDup (dict_keys groups)
  /\ forall event_id event_data battles,
       In (event_id, (event_data, battles)) groups ->
       exists first rest,
         battles = first :: rest /\ event_data = _extract_event_data first.

(** The open session of the loop, if any, has a first battle and carries the
    event data read from it. *)
Definition open_session_well_formed (st : GroupLoop.t) : Prop :=
  match GroupLoop.current_event st with
  | None => GroupLoop.current_battles st = [] /\ GroupLoop.event_groups st = []
  | Some event_data =>
      exists first rest,
        GroupLoop.current_battles st = first :: rest
        /\ event_data = _extract_event_data first
  end.

(* ================================================================== *)
(** ** battle_log_parser.py: the session builder *)
(* ================================================================== *)

(** The keys of a card of the log that only the builder reads. *)
Module CardKeys.
Record t : Type := mk {
  id : option Z;
  level : option Z;
  maxLevel : option Z;
  rarity : option string;
  elixirCost : option Z
}.
End CardKeys.

(** What a call gives: the value it returns, or an exception. *)
Inductive Outcome (A : Type) : Type :=
| Returned (a : A)
| Raised.
Arguments Returned {A} a.
Arguments Raised {A}.

(** The roster of a player after [_extract_deck_from_battle] has sorted it
    in place: by slot when every card has one. *)
Definition sort_roster (player : Json.player) : Json.player :=
  match Json.cards player with
  | None => player
  | Some cards =>
      if forallb (fun c => match Json.slot c with Some _ => true | None => false end) cards
      then Json.mk_player
             (Some (sorted Z.leb (fun c => get_default 0 (Json.slot c)) cards))
             (Json.crowns player) (Json.tag player) (Json.player_name player)
             (Json.trophyChange player)
      else player
  end.

(** A battle after the segmenter has read its deck: the roster of the first
    player of the team is sorted. *)
Definition roster_sorted (battle : Json.battle) : Json.battle :=
  match Json.team battle with
  | Some (player :: others) =>
      Json.mk_battle (Json.battleTime battle) (Json.gameMode battle)
        (Some (sort_roster player :: others)) (Json.opponent battle)
        (Json.isLadderBattle battle)
  | _ => battle
  end.

(** "Set max_wins based on event type". *)
Definition max_wins_of (event_type : EventType) : Z :=
  match event_type with
  | GRAND_CHALLENGE => 10
  | CLASSIC_CHALLENGE => 12
  | DRAFT_CHALLENGE => 12
  | _ => 20
  end.

Definition set_max_wins (v : option Z) (p : EventPerformance.t) : EventPerformance.t :=
  EventPerformance.mk (EventPerformance.wins p) (EventPerformance.losses p)
    (EventPerformance.win_rate p) (EventPerformance.crowns_earned p)
    (EventPerformance.crowns_lost p) v (EventPerformance.current_streak p)
    (EventPerformance.best_streak p) (EventPerformance.progress p).

(** The cards the builder reads: those of the first player of the first
    battle. *)
Definition first_roster (battles : list Json.battle) : list Json.card :=
  match battles with
  | [] => []
  | first_battle :: _ =>
      match get_default [] (Json.team first_battle) with
      | [] => []
      | player_data :: _ => get_default [] (Json.cards player_data)
      end
  end.

Section Builder.

(** The successive readings of [datetime.now()] and the built-in [hash]. *)
Variable wall_clock : nat -> datetime.
Variable hash : list string -> Z.

(** The keys of a card other than [name] and [slot].  A card of the log is
    known here by its name and its slot, so its other keys are read through
    a function of the card. *)
Variable card_keys : Json.card -> CardKeys.t.

(** [CardInDeck(name=card_data.get("name", ""), ...)]. *)
Definition card_in_deck (card_data : Json.card) : CardInDeck.t :=
  let keys := card_keys card_data in
  CardInDeck.mk
    (get_default "" (Json.name card_data))
    (get_default 0 (CardKeys.id keys))
    (get_default 0 (CardKeys.level keys))
    (get_default 13 (CardKeys.maxLevel keys))
    (get_default "common" (CardKeys.rarity keys))
    (get_default 0 (CardKeys.elixirCost keys)).

(** The sum the loop over the cards keeps in [total_elixir]. *)
Definition total_elixir (deck_cards : list CardInDeck.t) : Z :=
  fold_left (fun total card => total + CardInDeck.elixir_cost card) deck_cards 0.

(** One turn of the loop "Add all battles". *)
Definition replay_step (event_deck : EventDeck.t) (battle : Json.battle)
  : Clock EventDeck.t :=
  battle_record <- _create_battle_record wall_clock battle ;;
  match battle_record with
  | Some record => add_battle wall_clock record event_deck
  | None => ret event_deck
  end.

(** [Raised] is the [ValidationError] of [Deck] for an average elixir
    outside 0..10. *)
Definition _create_event_deck (event_data : EventData.t) (battles : list Json.battle)
    (player_tag : string) : Clock (Outcome (option EventDeck.t)) :=
  match battles with
  | [] => ret (Returned None)
  | first_battle :: _ =>
      match get_default [] (Json.team first_battle) with
      | [] => ret (Returned None)
      | player_data :: _ =>
          let cards_data := get_default [] (Json.cards player_data) in
          if negb (Nat.eqb (List.length cards_data) 8) then ret (Returned None)
          else
            let deck_cards := map card_in_deck cards_data in
            let avg_elixir := (inject_Z (total_elixir deck_cards) / 8)%Q in
            if negb (Qle_bool 0 avg_elixir && Qle_bool avg_elixir 10) then ret Raised
            else
              let deck := Deck.mk deck_cards avg_elixir in
              let performance := EventPerformance.default in
              start_time <- _parse_battle_time wall_clock
                              (get_default "" (Json.battleTime first_battle)) ;;
              event_id <- _generate_event_id wall_clock hash event_data first_battle ;;
              let event_deck :=
                EventDeck.mk event_id player_tag (EventData.event_name event_data)
                  (EventData.event_type event_data) start_time None deck performance
                  [] None in
              event_deck <- foldM replay_step battles event_deck ;;
              let event_deck :=
                EventDeck.set_performance
                  (set_max_wins (Some (max_wins_of (EventData.event_type event_data)))
                                (EventDeck.performance event_deck))
                  event_deck in
              event_deck <- _update_progress wall_clock event_deck ;;
              ret (Returned (Some event_deck))
      end
  end.

(** One turn of the loop over the groups: a group whose session is not built
    (no deck, or an exception) is skipped.  The battles of a group are the
    battles of the log after the segmenter has read their decks, which has
    sorted the roster of the first battle of every group; of the later
    battles the builder reads no roster. *)
Definition parse_step (player_tag : string) (event_decks : list EventDeck.t)
    (group : string * (EventData.t * list Json.battle)) : Clock (list EventDeck.t) :=
  outcome <- _create_event_deck (fst (snd group)) (map roster_sorted (snd (snd group)))
               player_tag ;;
  match outcome with
  | Returned (Some event_deck) => ret (event_decks ++ [event_deck])
  | Returned None => ret event_decks
  | Raised => ret event_decks
  end.

Definition parse_battle_logs (battle_logs : list Json.battle) (player_tag : string)
  : Clock (list EventDeck.t) :=
  event_groups <- _group_battles_by_event wall_clock hash battle_logs ;;
  foldM (parse_step player_tag) event_groups [].

(** event_deck_manager.py: the sessions imported and the directory after. *)
Definition import_from_battle_logs (battle_logs : list Json.battle) (player_tag : string)
    (pd : PlayerDir.t) : Clock (list EventDeck.t * PlayerDir.t) :=
  event_decks <- parse_battle_logs battle_logs player_tag ;;
  foldM (fun state deck =>
           pd' <- save_event_deck wall_clock deck (snd state) ;;
           ret (fst state ++ [deck], pd'))
        event_decks ([], pd).

End Builder.

(** The battles of a group that give a battle record (team and opponent
    data), and those of them that are won. *)
Definition has_both_sides (battle : Json.battle) : bool :=
  match get_default [] (Json.team battle), get_default [] (Json.opponent battle) with
  | _ :: _, _ :: _ => true
  | _, _ => false
  end.

Definition is_won (battle : Json.battle) : bool :=
  match get_default [] (Json.team battle), get_default [] (Json.opponent battle) with
  | team0 :: _, opponent0 :: _ =>
      get_default 0 (Json.crowns opponent0) <? get_default 0 (Json.crowns team0)
  | _, _ => false
  end.

(** The keys of a card of the sample deck. *)
Definition sample_card_keys (card : Json.card) : CardKeys.t :=
  CardKeys.mk (Some 26000000) (Some 11) (Some 14) (Some "common") (Some 3).

(** The number of elements of a list that pass a test. *)
Definition count {A : Type} (test : A -> bool) (l : list A) : Z :=
  Z.of_nat (List.length (filter test l)).

(** The fields of a session that recording a battle leaves alone. *)
Definition static_fields (d : EventDeck.t)
  : string * string * string * EventType * datetime * option datetime * Deck.t
    * option string :=
  (EventDeck.event_id d, EventDeck.player_tag d, EventDeck.event_name d,
   EventDeck.event_type d, EventDeck.start_time d, EventDeck.end_time d,
   EventDeck.deck d, EventDeck.notes d).

(** Every saved session is filed under the identity generated from its event
    data and its first battle. *)
Definition sessions_keyed (wall_clock : nat -> datetime) (hash : list string -> Z)
    (groups : dict (EventData.t * list Json.battle)) : Prop :=
  forall event_id event_data battles,
    In (event_id, (event_data, battles)) groups ->
    exists first rest n,
      battles = first :: rest
      /\ event_id = fst (_generate_event_id wall_clock hash event_data first n).

(** The identities listed in [collection.json] as it was written, none when
    there is no such file. *)
Definition collection_identities (pd : PlayerDir.t) : list string :=
  match PlayerDir.collection_file pd with
  | Some collection => identities (EventDeckCollection.decks collection)
  | None => []
  end.

(** The identities of the collection that loading [collection.json] gives,
    none when there is no such file or when loading it raises. *)
Definition loaded_identities (pd : PlayerDir.t) : list string :=
  match read_collection (PlayerDir.collection_file pd) with
  | Some collection => identities (EventDeckCollection.decks collection)
  | None => []
  end.

(** Two sessions of one event name and one day, of different identities. *)
Definition morning_session : EventDeck.t :=
  stored_session "grand_challenge_20241208_456" "Grand Challenge" CHALLENGE
    (mk_datetime 2024 12 8 9 0 0 0) hog_cycle 2 1.
Definition evening_session : EventDeck.t :=
  stored_session "grand_challenge_20241208_831" "Grand Challenge" SUDDEN_DEATH
    (mk_datetime 2024 12 8 21 0 0 0) ["Giant"; "Witch"] 0 3.

(* ================================================================== *)
(** ** event_deck_manager.py: the counters of the analysis *)
(* ================================================================== *)

(** [event_type.value]. *)
Definition EventType_value (event_type : EventType) : string :=
  match event_type with
  | CHALLENGE => "challenge"
  | TOURNAMENT => "tournament"
  | SPECIAL_EVENT => "special_event"
  | GRAND_CHALLENGE => "grand_challenge"
  | CLASSIC_CHALLENGE => "classic_challenge"
  | DRAFT_CHALLENGE => "draft_challenge"
  | SUDDEN_DEATH => "sudden_death"
  | DOUBLE_ELIMINATION => "double_elimination"
  end.

(** An entry of [event_type_stats]. *)
Module TypeStats.
Record t : Type := mk {
  count : Z;
  wins : Z;
  losses : Z
}.

(** The entry the [defaultdict] makes for a new key. *)
Definition zero : t := mk 0 0 0.
End TypeStats.

(** "Update event type stats": the three [+=] on the entry of the type. *)
Definition count_event_type (stats : dict TypeStats.t) (deck : EventDeck.t)
  : dict TypeStats.t :=
  let key := EventType_value (EventDeck.event_type deck) in
  let entry := get_default TypeStats.zero (dict_get key stats) in
  dict_set key
    (TypeStats.mk (TypeStats.count entry + 1)
                  (TypeStats.wins entry + deck_wins deck)
                  (TypeStats.losses entry + deck_losses deck))
    stats.

Definition event_type_stats (decks : list EventDeck.t) : dict TypeStats.t :=
  fold_left count_event_type decks [].

(** [sum(f(d) for d in decks)]. *)
Definition sum_of (f : EventDeck.t -> Z) (decks : list EventDeck.t) : Z :=
  fold_left (fun total d => total + f d) decks 0.

(** The sessions of one type. *)
Definition of_type (event_type : EventType) (decks : list EventDeck.t)
  : list EventDeck.t :=
  filter (fun d => EventType_eqb (EventDeck.event_type d) event_type) decks.

(** A column of [event_type_stats] added up over its entries. *)
Definition column (f : TypeStats.t -> Z) (stats : dict TypeStats.t) : Z :=
  fold_right Z.add 0 (map (fun entry => f (snd entry)) stats).

(** The counters of a performance are consistent: no counter is negative, the
    current streak is at most the best streak, which is at most the wins, and
    the win rate lies between 0 and 1. *)
Definition consistent (p : EventPerformance.t) : Prop :=
  0 <= EventPerformance.losses p
  /\ 0 <= EventPerformance.current_streak p
  /\ EventPerformance.current_streak p <= EventPerformance.best_streak p
  /\ EventPerformance.best_streak p <= EventPerformance.wins p
  /\ (0 <= EventPerformance.win_rate p)%Q
  /\ (EventPerformance.win_rate p <= 1)%Q.

(** The crowns [_create_battle_record] reads from a battle, those of the
    first player of the team and of the first opponent, are not negative. *)
Definition crowns_not_negative (battle : Json.battle) : Prop :=
  match get_default [] (Json.team battle), get_default [] (Json.opponent battle) with
  | team0 :: _, opponent0 :: _ =>
      0 <= get_default 0 (Json.crowns team0)
      /\ 0 <= get_default 0 (Json.crowns opponent0)
  | _, _ => True
  end.

(** A session as [add_battle] leaves it after a win with a negative number
    of crowns: its [crowns_earned] is below 0. *)
Definition session_with_negative_crowns : EventDeck.t :=
  EventDeck.mk "grand_challenge_20241208_456" "#PLAYER" "Grand Challenge" CHALLENGE
    (mk_datetime 2024 12 8 9 0 0 0) None (Deck.mk (map sample_card hog_cycle) 3%Q)
    (EventPerformance.mk 1 0 1%Q (-1) 0 (Some 20) 1 1 IN_PROGRESS) [] None.

(* ================================================================== *)
(** ** Properties of the progress state machine *)
(* ================================================================== *)

#[local] Arguments Qdiv : simpl never.
#[local] Arguments inject_Z : simpl never.

Lemma foldM_preserves {A S : Type} (P : S -> Prop) (f : S -> A -> Clock S) :
  (forall s a n, P s -> P (fst (f s a n))) ->
  forall l s n, P s -> P (fst (foldM f l s n)).
Proof.
  intros Hstep l; induction l as [|a l IH]; intros s n Hs; cbn.
  - exact Hs.
  - unfold bind. specialize (Hstep s a n Hs).
    destruct (f s a n) as [s' n']; cbn in Hstep. now apply IH.
Qed.

(** Every test of the code in the goal is decided. *)
Ltac decide_tests :=
  repeat first
    [ progress cbn in *
    | match goal with
      | |- context [String.eqb ?x ?y] => destruct (String.eqb_spec x y)
      end
    | match goal with
      | |- context [(?x <=? ?y)%Z] => destruct (Z.leb_spec x y)
      end
    | match goal with
      | |- context [(?x <? ?y)%Z] => destruct (Z.ltb_spec x y)
      end
    | match goal with
      | |- context [(?x =? ?y)%Z] => destruct (Z.eqb_spec x y)
      end
    | match goal with
      | |- context [EventProgress_eqb ?x _] => is_var x; destruct x
      end ].

(** What [record_result] leaves alone, and the direction of the counters. *)
Lemma record_result_frame (b : BattleRecord.t) (p : EventPerformance.t) :
  EventPerformance.max_wins (record_result b p) = EventPerformance.max_wins p
  /\ EventPerformance.progress (record_result b p) = EventPerformance.progress p
  /\ EventPerformance.wins p <= EventPerformance.wins (record_result b p)
  /\ EventPerformance.losses p <= EventPerformance.losses (record_result b p).
Proof.
  unfold record_result. destruct p; decide_tests; repeat split; lia.
Qed.

(** [add_battle] is [_update_progress] after the counters are written. *)
Lemma add_battle_unfold (clk : nat -> datetime) (b : BattleRecord.t) (self : EventDeck.t) :
  add_battle clk b self
  = _update_progress clk
      (EventDeck.set_performance (record_result b (EventDeck.performance self))
         (EventDeck.set_battles (EventDeck.battles self ++ [b]) self)).
Proof. reflexivity. Qed.

Ltac open_update self :=
  unfold _update_progress, progress_by_counters, bind, ret, now;
  destruct self as [? ? ? ? ? [?|] ? [? ? ? ? ? [?|] ? ? ?] ? ?].

(** [_update_progress] writes the status and nothing else. *)
Lemma update_progress_frame (clk : nat -> datetime) (self : EventDeck.t) (n : nat) :
  let self' := fst (_update_progress clk self n) in
  EventDeck.end_time self' = EventDeck.end_time self
  /\ EventDeck.battles self' = EventDeck.battles self
  /\ exists v, EventDeck.performance self'
               = EventPerformance.set_progress v (EventDeck.performance self).
Proof.
  open_update self; decide_tests; repeat split; eexists; reflexivity.
Qed.

Lemma update_progress_not_back (clk : nat -> datetime) (self : EventDeck.t) (n : nat) :
  EventPerformance.progress (EventDeck.performance self) <> IN_PROGRESS ->
  EventPerformance.progress (EventDeck.performance (fst (_update_progress clk self n)))
  <> IN_PROGRESS.
Proof.
  open_update self; intros H; decide_tests; congruence.
Qed.

Lemma update_progress_completed_by_cap (clk : nat -> datetime) (self : EventDeck.t) (n : nat) :
  completed_by_cap self -> completed_by_cap (fst (_update_progress clk self n)).
Proof.
  unfold completed_by_cap.
  open_update self; intros [Hp [m' [Hm [Hz Hw]]]]; try discriminate;
    injection Hm as ->; decide_tests;
    (split; [congruence || (exfalso; lia) | eexists; repeat split; try reflexivity; lia]).
Qed.

Lemma update_progress_eliminated (clk : nat -> datetime) (self : EventDeck.t) (n : nat) :
  EventPerformance.progress (EventDeck.performance self) = ELIMINATED ->
  EventPerformance.progress (EventDeck.performance (fst (_update_progress clk self n)))
  = ELIMINATED
  \/ completed_by_cap (fst (_update_progress clk self n)).
Proof.
  unfold completed_by_cap.
  open_update self; cbn; intros H; subst; decide_tests;
    try (left; reflexivity);
    right; (split; [reflexivity | eexists; repeat split; try reflexivity; lia]).
Qed.

Lemma update_progress_follows_counters (clk : nat -> datetime) (m : Z)
    (self : EventDeck.t) (n : nat) :
  m <> 0 ->
  EventDeck.end_time self = None ->
  EventPerformance.max_wins (EventDeck.performance self) = Some m ->
  (EventPerformance.progress (EventDeck.performance self) = IN_PROGRESS
   \/ exists p0,
       EventPerformance.progress (EventDeck.performance self) = status_of_counters m p0
       /\ EventPerformance.wins p0 <= EventPerformance.wins (EventDeck.performance self)
       /\ EventPerformance.losses p0 <= EventPerformance.losses (EventDeck.performance self)) ->
  follows_counters m (fst (_update_progress clk self n)).
Proof.
  unfold follows_counters, status_of_counters.
  open_update self; intros Hm He Hc Hp; try discriminate.
  injection Hc as ->. decide_tests; repeat split; try lia.
  destruct Hp as [-> | [p0 [-> [Hw Hl]]]]; [reflexivity|].
  destruct (Z.leb_spec m (EventPerformance.wins p0)); [lia|].
  destruct (Z.leb_spec 3 (EventPerformance.losses p0)); [lia|reflexivity].
Qed.

Lemma update_progress_no_rule (clk : nat -> datetime) (self : EventDeck.t) (n : nat) :
  no_rule self ->
  no_rule (fst (_update_progress clk self n))
  /\ EventPerformance.progress (EventDeck.performance (fst (_update_progress clk self n)))
     = EventPerformance.progress (EventDeck.performance self).
Proof.
  unfold no_rule.
  open_update self; intros [He [Hc | Hc]]; try discriminate;
    try (injection Hc as ->); decide_tests; repeat split; auto; lia.
Qed.

(** The same facts for one [add_battle]. *)

Ltac norm_session :=
  cbn [EventDeck.performance EventDeck.set_performance EventDeck.set_battles
       EventDeck.end_time EventDeck.battles] in *.

Lemma add_battle_frame (clk : nat -> datetime) (b : BattleRecord.t) (self : EventDeck.t) (n : nat) :
  let self' := fst (add_battle clk b self n) in
  EventDeck.end_time self' = EventDeck.end_time self
  /\ EventPerformance.max_wins (EventDeck.performance self')
     = EventPerformance.max_wins (EventDeck.performance self)
  /\ EventPerformance.wins (EventDeck.performance self)
     <= EventPerformance.wins (EventDeck.performance self')
  /\ EventPerformance.losses (EventDeck.performance self)
     <= EventPerformance.losses (EventDeck.performance self').
Proof.
  cbv zeta. rewrite add_battle_unfold.
  match goal with
  | |- context [_update_progress clk ?s n] =>
      destruct (update_progress_frame clk s n) as [He [_ [v Hp]]]
  end.
  destruct (record_result_frame b (EventDeck.performance self)) as [Hm [_ [Hw Hl]]].
  rewrite He, Hp. norm_session.
  cbn [EventPerformance.set_progress EventPerformance.max_wins EventPerformance.wins
       EventPerformance.losses].
  repeat split; congruence || lia.
Qed.

Lemma add_battle_not_back (clk : nat -> datetime) (b : BattleRecord.t) (self : EventDeck.t) (n : nat) :
  EventPerformance.progress (EventDeck.performance self) <> IN_PROGRESS ->
  EventPerformance.progress (EventDeck.performance (fst (add_battle clk b self n)))
  <> IN_PROGRESS.
Proof.
  intros H. rewrite add_battle_unfold. apply update_progress_not_back.
  destruct (record_result_frame b (EventDeck.performance self)) as [_ [Hp _]].
  norm_session. congruence.
Qed.

Lemma add_battle_completed_by_cap (clk : nat -> datetime) (b : BattleRecord.t)
    (self : EventDeck.t) (n : nat) :
  completed_by_cap self -> completed_by_cap (fst (add_battle clk b self n)).
Proof.
  intros [Hp [m [Hm [Hz Hw]]]]. rewrite add_battle_unfold.
  apply update_progress_completed_by_cap.
  destruct (record_result_frame b (EventDeck.performance self)) as [Hm' [Hp' [Hw' _]]].
  unfold completed_by_cap. norm_session. split; [congruence|].
  exists m. repeat split; [congruence | assumption | lia].
Qed.

Lemma add_battle_eliminated (clk : nat -> datetime) (b : BattleRecord.t)
    (self : EventDeck.t) (n : nat) :
  EventPerformance.progress (EventDeck.performance self) = ELIMINATED
  \/ completed_by_cap self ->
  EventPerformance.progress (EventDeck.performance (fst (add_battle clk b self n)))
  = ELIMINATED
  \/ completed_by_cap (fst (add_battle clk b self n)).
Proof.
  intros [H | H]; [| right; now apply add_battle_completed_by_cap].
  rewrite add_battle_unfold. apply update_progress_eliminated.
  destruct (record_result_frame b (EventDeck.performance self)) as [_ [Hp _]].
  norm_session. congruence.
Qed.

Lemma add_battle_follows_counters (clk : nat -> datetime) (m : Z) (b : BattleRecord.t)
    (self : EventDeck.t) (n : nat) :
  m <> 0 ->
  follows_counters m self
  \/ (EventDeck.end_time self = None
      /\ EventPerformance.max_wins (EventDeck.performance self) = Some m
      /\ EventPerformance.progress (EventDeck.performance self) = IN_PROGRESS) ->
  follows_counters m (fst (add_battle clk b self n)).
Proof.
  intros Hm H. rewrite add_battle_unfold.
  destruct (record_result_frame b (EventDeck.performance self)) as [Hm' [Hp' [Hw' Hl']]].
  apply update_progress_follows_counters; try assumption.
  - destruct H as [[He _] | [He _]]; norm_session; assumption.
  - destruct H as [[_ [Hc _]] | [_ [Hc _]]]; norm_session; congruence.
  - destruct H as [[_ [_ Hp]] | [_ [_ Hp]]].
    + right. exists (EventDeck.performance self).
      norm_session. repeat split; [congruence | lia | lia].
    + left. norm_session. congruence.
Qed.

Lemma add_battle_no_rule (clk : nat -> datetime) (v : EventProgress) (b : BattleRecord.t)
    (self : EventDeck.t) (n : nat) :
  no_rule self /\ EventPerformance.progress (EventDeck.performance self) = v ->
  no_rule (fst (add_battle clk b self n))
  /\ EventPerformance.progress (EventDeck.performance (fst (add_battle clk b self n))) = v.
Proof.
  intros [[He Hc] Hp]. rewrite add_battle_unfold.
  destruct (record_result_frame b (EventDeck.performance self)) as [Hm' [Hp' _]].
  match goal with
  | |- context [_update_progress clk ?s n] =>
      destruct (update_progress_no_rule clk s n) as [Hn Hq]
  end.
  - split; [norm_session; assumption|].
    norm_session. rewrite Hm'. assumption.
  - split; [assumption|]. rewrite Hq. norm_session. congruence.
Qed.

Lemma progress_by_counters_status (p : EventPerformance.t) :
  progress_by_counters p
  = EventPerformance.set_progress
      (status_after (EventPerformance.progress p) (EventPerformance.max_wins p) p) p.
Proof.
  unfold progress_by_counters, status_after. destruct p as [w l wr ce cl [m|] cs bs pr]; cbn.
  - destruct (m =? 0); [reflexivity|]. destruct (m <=? w); [reflexivity|].
    now destruct (3 <=? l).
  - reflexivity.
Qed.

(** The rule of the end time changes nothing once [in_progress] is left. *)
Lemma update_progress_left (clk : nat -> datetime) (self : EventDeck.t) (n : nat) :
  EventPerformance.progress (progress_by_counters (EventDeck.performance self))
  <> IN_PROGRESS ->
  EventDeck.performance (fst (_update_progress clk self n))
  = progress_by_counters (EventDeck.performance self).
Proof.
  unfold _update_progress, bind, ret, now. intros H.
  destruct (EventDeck.end_time self) as [e|]; [|now destruct self].
  destruct (EventPerformance.progress (progress_by_counters (EventDeck.performance self)));
    try congruence; cbn [EventProgress_eqb]; rewrite andb_false_r; now destruct self.
Qed.

(** The status the counters call for does not depend on how the status
    before was reached, when the counters have not gone down since. *)
Lemma status_after_again (before : EventProgress) (cap : option Z)
    (p0 p : EventPerformance.t) :
  EventPerformance.wins p0 <= EventPerformance.wins p ->
  EventPerformance.losses p0 <= EventPerformance.losses p ->
  status_after (status_after before cap p0) cap p = status_after before cap p.
Proof.
  intros Hw Hl. unfold status_after. destruct cap as [m|]; [|reflexivity].
  destruct (Z.eqb_spec m 0); [reflexivity|].
  destruct (Z.leb_spec m (EventPerformance.wins p)); [reflexivity|].
  destruct (Z.leb_spec 3 (EventPerformance.losses p)); [reflexivity|].
  destruct (Z.leb_spec m (EventPerformance.wins p0)); [lia|].
  destruct (Z.leb_spec 3 (EventPerformance.losses p0)); [lia | reflexivity].
Qed.

Lemma status_after_left (before : EventProgress) (cap : option Z) (p : EventPerformance.t) :
  before <> IN_PROGRESS -> status_after before cap p <> IN_PROGRESS.
Proof.
  intros H. unfold status_after. destruct cap as [m|]; [|exact H].
  destruct (m =? 0); [exact H|]. destruct (m <=? _); [discriminate|].
  destruct (3 <=? _); [discriminate | exact H].
Qed.

(** The status [_update_progress] leaves, for a session that had left
    [in_progress] with the status [before] and has kept it unless its
    counters called for another. *)
Lemma update_progress_status_after (clk : nat -> datetime) (before : EventProgress)
    (self : EventDeck.t) (n : nat) :
  before <> IN_PROGRESS ->
  (EventPerformance.progress (EventDeck.performance self) = before
   \/ exists p0,
       EventPerformance.progress (EventDeck.performance self)
       = status_after before (EventPerformance.max_wins (EventDeck.performance self)) p0
       /\ EventPerformance.wins p0 <= EventPerformance.wins (EventDeck.performance self)
       /\ EventPerformance.losses p0
          <= EventPerformance.losses (EventDeck.performance self)) ->
  let self' := fst (_update_progress clk self n) in
  EventPerformance.progress (EventDeck.performance self')
  = status_after before (EventPerformance.max_wins (EventDeck.performance self))
      (EventDeck.performance self').
Proof.
  intros Hb Hp. cbv zeta.
  assert (Hs : status_after (EventPerformance.progress (EventDeck.performance self))
                 (EventPerformance.max_wins (EventDeck.performance self))
                 (EventDeck.performance self)
               = status_after before
                   (EventPerformance.max_wins (EventDeck.performance self))
                   (EventDeck.performance self)).
  { destruct Hp as [-> | [p0 [-> [Hw Hl]]]]; [reflexivity|].
    now apply status_after_again. }
  rewrite update_progress_left; rewrite progress_by_counters_status, Hs.
  - now destruct (EventDeck.performance self) as [w l wr ce cl [m|] cs bs pr].
  - cbn. generalize (status_after_left before
                  (EventPerformance.max_wins (EventDeck.performance self))
                  (EventDeck.performance self) Hb).
    now destruct (EventDeck.performance self).
Qed.

Lemma add_battle_status_after (clk : nat -> datetime) (before : EventProgress)
    (b : BattleRecord.t) (self : EventDeck.t) (n : nat) :
  before <> IN_PROGRESS ->
  (EventPerformance.progress (EventDeck.performance self) = before
   \/ EventPerformance.progress (EventDeck.performance self)
      = status_after before (EventPerformance.max_wins (EventDeck.performance self))
          (EventDeck.performance self)) ->
  let self' := fst (add_battle clk b self n) in
  EventPerformance.progress (EventDeck.performance self')
  = status_after before (EventPerformance.max_wins (EventDeck.performance self'))
      (EventDeck.performance self').
Proof.
  intros Hb Hp. cbv zeta.
  destruct (add_battle_frame clk b self n) as [_ [Hcap _]]. rewrite Hcap.
  rewrite add_battle_unfold.
  destruct (record_result_frame b (EventDeck.performance self)) as [Hm [Hpr [Hw Hl]]].
  match goal with
  | |- context [_update_progress clk ?s n] =>
      pose proof (update_progress_status_after clk before s n Hb) as H
  end.
  norm_session. rewrite Hm, Hpr in H. apply H.
  destruct Hp as [Hp | Hp]; [now left|].
  right. exists (EventDeck.performance self). now repeat split.
Qed.

(** After at least one further battle the status is the one the final
    counters call for, or the one the session had. *)
Lemma add_battles_status_after (clk : nat -> datetime) (before : EventProgress)
    (battles : list BattleRecord.t) :
  before <> IN_PROGRESS ->
  forall (self : EventDeck.t) (n : nat),
    (EventPerformance.progress (EventDeck.performance self) = before
     \/ EventPerformance.progress (EventDeck.performance self)
        = status_after before (EventPerformance.max_wins (EventDeck.performance self))
            (EventDeck.performance self)) ->
    battles <> [] ->
    let final := fst (add_battles clk battles self n) in
    EventPerformance.max_wins (EventDeck.performance final)
    = EventPerformance.max_wins (EventDeck.performance self)
    /\ EventPerformance.progress (EventDeck.performance final)
       = status_after before (EventPerformance.max_wins (EventDeck.performance self))
           (EventDeck.performance final).
Proof.
  intros Hb. induction battles as [|b rest IH]; intros self n Hp Hne; [congruence|].
  cbv zeta. unfold add_battles. cbn [foldM]. unfold bind.
  pose proof (add_battle_status_after clk before b self n Hb Hp) as Hstep.
  destruct (add_battle_frame clk b self n) as [_ [Hcap _]].
  destruct (add_battle clk b self n) as [s1 n1]. cbn [fst] in Hstep, Hcap.
  destruct rest as [|b' rest'].
  - cbn [foldM ret fst]. split; [exact Hcap|]. now rewrite <- Hcap.
  - fold (add_battles clk (b' :: rest') s1 n1).
    destruct (IH s1 n1 (or_intror Hstep) ltac:(discriminate)) as [Hc Hf].
    cbv zeta in Hc, Hf. rewrite Hc, Hf, Hcap. now split.
Qed.

(** C2, as stated, fails in both halves: a session with a cap of 10 wins is
    eliminated by its third loss and becomes completed when a later win is
    its tenth; and a session that its end time has completed, with two
    losses, becomes eliminated by its next loss. *)
Lemma C2_eliminated_becomes_completed_and_completed_eliminated :
  (let eliminated :=
     fst (add_battles sample_clock
            (repeat a_loss 3 ++ repeat a_win 9) (sample_session (Some 10)) 0%nat) in
   EventPerformance.progress (EventDeck.performance eliminated) = ELIMINATED
   /\ EventPerformance.progress
        (EventDeck.performance (fst (add_battle sample_clock a_win eliminated 0%nat)))
      = COMPLETED)
  /\ (let completed :=
        fst (add_battles sample_clock (repeat a_loss 2) ended_session 0%nat) in
      EventPerformance.progress (EventDeck.performance completed) = COMPLETED
      /\ EventPerformance.progress
           (EventDeck.performance (fst (add_battle sample_clock a_loss completed 0%nat)))
         = ELIMINATED).
Proof. repeat split; reflexivity. Qed.

(** C2 (amended): whatever battles are recorded after a session has left
    [in_progress], its status never returns to [in_progress], and a session
    completed by reaching its cap of wins stays completed.  After at least
    one further battle the status is decided by the final counters: with a
    cap set (and not 0) it is [completed] when the wins have reached the cap,
    else [eliminated] when the losses are 3 or more, else the status the
    session had; without a cap it is the status the session had.  So an
    eliminated session becomes completed exactly when its wins reach the
    cap, and stays eliminated otherwise. *)
Theorem C2_status_never_returns_to_in_progress
    (clk : nat -> datetime) (battles : list BattleRecord.t) (self : EventDeck.t) (n : nat) :
  let before := EventPerformance.progress (EventDeck.performance self) in
  let final := fst (add_battles clk battles self n) in
  (before <> IN_PROGRESS ->
   EventPerformance.progress (EventDeck.performance final) <> IN_PROGRESS)
  /\ (completed_by_cap self ->
      EventPerformance.progress (EventDeck.performance final) = COMPLETED)
  /\ (before = ELIMINATED ->
      EventPerformance.progress (EventDeck.performance final) = ELIMINATED
      \/ completed_by_cap final)
  /\ (before <> IN_PROGRESS -> battles <> [] ->
      EventPerformance.progress (EventDeck.performance final)
      = status_after before (EventPerformance.max_wins (EventDeck.performance self))
          (EventDeck.performance final))
  /\ (before = ELIMINATED -> battles <> [] ->
      (EventPerformance.progress (EventDeck.performance final) = COMPLETED
       <-> cap_reached self (EventDeck.performance final))
      /\ (EventPerformance.progress (EventDeck.performance final) = ELIMINATED
          <-> ~ cap_reached self (EventDeck.performance final))).
Proof.
  cbv zeta.
  assert (Hafter : EventPerformance.progress (EventDeck.performance self) <> IN_PROGRESS ->
                   battles <> [] ->
                   EventPerformance.progress
                     (EventDeck.performance (fst (add_battles clk battles self n)))
                   = status_after (EventPerformance.progress (EventDeck.performance self))
                       (EventPerformance.max_wins (EventDeck.performance self))
                       (EventDeck.performance (fst (add_battles clk battles self n)))).
  { intros Hb Hne.
    now apply (add_battles_status_after clk _ battles Hb self n (or_introl eq_refl) Hne). }
  split; [|split; [|split; [|split]]].
  - apply (foldM_preserves
             (fun s => EventPerformance.progress (EventDeck.performance s) <> IN_PROGRESS)).
    intros s b k. apply add_battle_not_back.
  - intros H.
    apply (foldM_preserves completed_by_cap
             (fun s b => add_battle clk b s)) with (l := battles) (n := n) in H.
    + apply H.
    + intros s b k. apply add_battle_completed_by_cap.
  - intros H.
    apply (foldM_preserves
             (fun s => EventPerformance.progress (EventDeck.performance s) = ELIMINATED
                       \/ completed_by_cap s)).
    + intros s b k. apply add_battle_eliminated.
    + now left.
  - exact Hafter.
  - intros He Hne. rewrite Hafter by congruence. rewrite He.
    unfold status_after, cap_reached.
    destruct (EventPerformance.max_wins (EventDeck.performance self)) as [m|].
    + destruct (Z.eqb_spec m 0) as [-> | Hm].
      * split; split; try discriminate; try reflexivity.
        -- intros [m [[= <-] [Hz _]]]. congruence.
        -- intros _ [m [[= <-] [Hz _]]]. congruence.
      * destruct (Z.leb_spec m (EventPerformance.wins
                   (EventDeck.performance (fst (add_battles clk battles self n))))).
        -- split; split; try discriminate; try reflexivity.
           ++ intros _. exists m. now repeat split.
           ++ intros Hno. exfalso. apply Hno. exists m. now repeat split.
        -- assert (Hno : ~ exists m0, Some m = Some m0 /\ m0 <> 0
                           /\ m0 <= EventPerformance.wins
                                (EventDeck.performance
                                   (fst (add_battles clk battles self n))))
             by (intros [m0 [[= <-] [_ Hw]]]; lia).
           destruct (3 <=? _); split; split; try discriminate; try reflexivity;
             try (intros H0; exfalso; now apply Hno); try (intros _; exact Hno).
    + split; split; try discriminate; try reflexivity.
      * intros [m [[=] _]].
      * intros _ [m [[=] _]].
Qed.

Lemma C2_witness :
  let eliminated :=
    fst (add_battles sample_clock (repeat a_loss 3) (sample_session (Some 10)) 0%nat) in
  let final := fst (add_battles sample_clock (repeat a_win 10) eliminated 0%nat) in
  EventPerformance.progress (EventDeck.performance eliminated) = ELIMINATED
  /\ EventPerformance.progress (EventDeck.performance final) = COMPLETED.
Proof.
  cbv zeta. split; [reflexivity|].
  destruct (C2_status_never_returns_to_in_progress sample_clock (repeat a_win 10)
              (fst (add_battles sample_clock (repeat a_loss 3)
                      (sample_session (Some 10)) 0%nat)) 0%nat)
    as (_ & _ & _ & _ & H).
  destruct H as [[_ Hc] _]; [reflexivity | discriminate |].
  apply Hc. exists 10. repeat split; [discriminate|]. vm_compute. discriminate.
Defined.

(** C3, as stated, fails: without a cap ([max_wins] unset, as in a new
    [EventPerformance]) three losses leave the session [in_progress]. *)
Lemma C3_three_losses_without_cap_not_eliminated :
  let final :=
    fst (add_battles sample_clock (repeat a_loss 3) (sample_session None) 0%nat) in
  EventPerformance.losses (EventDeck.performance final) = 3
  /\ EventPerformance.progress (EventDeck.performance final) = IN_PROGRESS.
Proof. split; reflexivity. Qed.

(** C3 (amended): for a session that starts [in_progress], has no end time
    and has a cap of wins set (not zero), after any battles are recorded the
    status is [eliminated] exactly when the losses are at least 3 and the wins
    are below the cap, [completed] exactly when the wins have reached the cap,
    and [in_progress] exactly when the losses are below 3 and the wins below
    the cap; with no cap set the status stays [in_progress]. *)
Theorem C3_eliminated_exactly_at_three_losses_below_cap
    (clk : nat -> datetime) (b : BattleRecord.t) (battles : list BattleRecord.t)
    (self : EventDeck.t) (n : nat)
    (Hend : EventDeck.end_time self = None)
    (Hstart : EventPerformance.progress (EventDeck.performance self) = IN_PROGRESS) :
  let final := EventDeck.performance (fst (add_battles clk (b :: battles) self n)) in
  (forall m, EventPerformance.max_wins (EventDeck.performance self) = Some m -> m <> 0 ->
     (EventPerformance.progress final = ELIMINATED
      <-> 3 <= EventPerformance.losses final /\ EventPerformance.wins final < m)
     /\ (EventPerformance.progress final = COMPLETED <-> m <= EventPerformance.wins final)
     /\ (EventPerformance.progress final = IN_PROGRESS
         <-> EventPerformance.losses final < 3 /\ EventPerformance.wins final < m))
  /\ (EventPerformance.max_wins (EventDeck.performance self) = None
      \/ EventPerformance.max_wins (EventDeck.performance self) = Some 0 ->
      EventPerformance.progress final = IN_PROGRESS).
Proof.
  cbv zeta. unfold add_battles. cbn [foldM]. unfold bind. split.
  - intros m Hm Hz.
    assert (H0 : follows_counters m (fst (add_battle clk b self n))).
    { apply add_battle_follows_counters; [assumption|]. right. auto. }
    destruct (add_battle clk b self n) as [s1 n1]; cbn [fst] in H0.
    apply (foldM_preserves (follows_counters m)
             (fun s b => add_battle clk b s)) with (l := battles) (n := n1) in H0.
    + destruct H0 as [_ [_ Hp]]. rewrite Hp. unfold status_of_counters.
      destruct (Z.leb_spec m (EventPerformance.wins
                  (EventDeck.performance (fst (foldM (fun s b => add_battle clk b s) battles s1 n1)))));
        [repeat split; intros; try discriminate; try reflexivity; lia|].
      destruct (Z.leb_spec 3 (EventPerformance.losses
                  (EventDeck.performance (fst (foldM (fun s b => add_battle clk b s) battles s1 n1)))));
        repeat split; intros; try discriminate; try reflexivity; lia.
    + intros s a k Hs. apply add_battle_follows_counters; [assumption|]. now left.
  - intros Hm.
    assert (H0 : no_rule (fst (add_battle clk b self n))
                 /\ EventPerformance.progress
                      (EventDeck.performance (fst (add_battle clk b self n))) = IN_PROGRESS).
    { apply add_battle_no_rule. unfold no_rule. auto. }
    destruct (add_battle clk b self n) as [s1 n1]; cbn [fst] in H0.
    apply (foldM_preserves
             (fun s => no_rule s
                       /\ EventPerformance.progress (EventDeck.performance s) = IN_PROGRESS)
             (fun s b => add_battle clk b s)) with (l := battles) (n := n1) in H0.
    + apply H0.
    + intros s a k. apply add_battle_no_rule.
Qed.

Lemma C3_witness :
  let final :=
    EventDeck.performance
      (fst (add_battles sample_clock (a_loss :: repeat a_loss 2 ++ repeat a_win 2)
              (sample_session (Some 10)) 0%nat)) in
  EventPerformance.progress final = ELIMINATED
  <-> 3 <= EventPerformance.losses final /\ EventPerformance.wins final < 10.
Proof.
  cbv zeta.
  refine (proj1 (proj1
    (C3_eliminated_exactly_at_three_losses_below_cap sample_clock a_loss
       (repeat a_loss 2 ++ repeat a_win 2) (sample_session (Some 10)) 0%nat
       eq_refl eq_refl) 10 eq_refl _)).
  discriminate.
Defined.

(** What one [add_battle] does to the counters. *)
Lemma add_battle_performance (clk : nat -> datetime) (b : BattleRecord.t)
    (self : EventDeck.t) (n : nat) :
  exists v,
    EventDeck.performance (fst (add_battle clk b self n))
    = EventPerformance.set_progress v (record_result b (EventDeck.performance self)).
Proof.
  rewrite add_battle_unfold.
  match goal with
  | |- context [_update_progress clk ?s n] =>
      destruct (update_progress_frame clk s n) as [_ [_ [v Hv]]]
  end.
  exists v. exact Hv.
Qed.

(** C4: recording a battle adds one to the wins when its result is "win" and
    one to the losses otherwise, and leaves the other counter; on a win the
    streak grows by one, the best streak is the larger of itself and the new
    streak, and the crowns earned grow by the crowns of the battle; on a loss
    the streak is 0 and the crowns lost grow by the opponent's crowns; and the
    win rate is then wins / (wins + losses).  (The counters of a performance
    are not negative: the fields are declared [ge=0].) *)
Theorem C4_add_battle_updates_counters
    (clk : nat -> datetime) (b : BattleRecord.t) (self : EventDeck.t) (n : nat)
    (Hwins : 0 <= EventPerformance.wins (EventDeck.performance self))
    (Hlosses : 0 <= EventPerformance.losses (EventDeck.performance self)) :
  let p := EventDeck.performance self in
  let p' := EventDeck.performance (fst (add_battle clk b self n)) in
  (BattleRecord.result b = "win" ->
     EventPerformance.wins p' = EventPerformance.wins p + 1
     /\ EventPerformance.losses p' = EventPerformance.losses p
     /\ EventPerformance.current_streak p' = EventPerformance.current_streak p + 1
     /\ EventPerformance.best_streak p'
        = Z.max (EventPerformance.best_streak p) (EventPerformance.current_streak p')
     /\ EventPerformance.crowns_earned p'
        = EventPerformance.crowns_earned p + BattleRecord.crowns b
     /\ EventPerformance.crowns_lost p' = EventPerformance.crowns_lost p)
  /\ (BattleRecord.result b <> "win" ->
     EventPerformance.wins p' = EventPerformance.wins p
     /\ EventPerformance.losses p' = EventPerformance.losses p + 1
     /\ EventPerformance.current_streak p' = 0
     /\ EventPerformance.best_streak p' = EventPerformance.best_streak p
     /\ EventPerformance.crowns_earned p' = EventPerformance.crowns_earned p
     /\ EventPerformance.crowns_lost p'
        = EventPerformance.crowns_lost p + BattleRecord.opponent_crowns b)
  /\ EventPerformance.win_rate p'
     = (inject_Z (EventPerformance.wins p')
        / inject_Z (EventPerformance.wins p' + EventPerformance.losses p'))%Q.
Proof.
  cbv zeta. destruct (add_battle_performance clk b self n) as [v ->].
  revert Hwins Hlosses. generalize (EventDeck.performance self) as p.
  intros [w l wr ce cl mw cs bst pr] Hw Hl. unfold record_result.
  cbn [EventPerformance.wins EventPerformance.losses] in Hw, Hl.
  destruct (String.eqb_spec (BattleRecord.result b) "win") as [E | E]; cbn.
  - destruct (Z.ltb_spec 0 (w + 1 + l)); [|lia]. cbn.
    repeat split; try reflexivity; intros; congruence.
  - destruct (Z.ltb_spec 0 (w + (l + 1))); [|lia]. cbn.
    repeat split; try reflexivity; intros; congruence.
Qed.

Lemma C4_witness :
  let p := EventDeck.performance (sample_session (Some 10)) in
  let p' :=
    EventDeck.performance
      (fst (add_battle sample_clock a_win (sample_session (Some 10)) 0%nat)) in
  EventPerformance.win_rate p'
  = (inject_Z (EventPerformance.wins p')
     / inject_Z (EventPerformance.wins p' + EventPerformance.losses p'))%Q.
Proof.
  cbv zeta.
  refine (proj2 (proj2
    (C4_add_battle_updates_counters sample_clock a_win (sample_session (Some 10)) 0%nat
       _ _))); cbn; lia.
Defined.

(** C10: a battle with team and opponent data gives a record whose result is
    "win" exactly when the own crowns exceed the opponent's, so a draw gives
    "loss"; and [add_battle] counts every record whose result is not the
    string "win" as a loss: the losses grow by one, the crowns lost by the
    opponent's crowns, and the wins stay. *)
Theorem C10_result_is_win_iff_more_crowns
    (clk : nat -> datetime) (battle : Json.battle) (n : nat)
    (team0 opponent0 : Json.player) (team_rest opponent_rest : list Json.player)
    (Hteam : Json.team battle = Some (team0 :: team_rest))
    (Hopponent : Json.opponent battle = Some (opponent0 :: opponent_rest)) :
  let own := get_default 0 (Json.crowns team0) in
  let theirs := get_default 0 (Json.crowns opponent0) in
  (exists record,
      fst (_create_battle_record clk battle n) = Some record
      /\ BattleRecord.crowns record = own
      /\ BattleRecord.opponent_crowns record = theirs
      /\ (BattleRecord.result record = "win" <-> theirs < own)
      /\ (own = theirs -> BattleRecord.result record = "loss"))
  /\ (forall (record : BattleRecord.t) (self : EventDeck.t) (k : nat),
        BattleRecord.result record <> "win" ->
        let p := EventDeck.performance self in
        let p' := EventDeck.performance (fst (add_battle clk record self k)) in
        EventPerformance.losses p' = EventPerformance.losses p + 1
        /\ EventPerformance.crowns_lost p'
           = EventPerformance.crowns_lost p + BattleRecord.opponent_crowns record
        /\ EventPerformance.wins p' = EventPerformance.wins p).
Proof.
  cbv zeta. split.
  - unfold _create_battle_record. rewrite Hteam, Hopponent.
    cbn [get_default]. unfold bind, ret.
    destruct (_parse_battle_time clk (get_default "" (Json.battleTime battle)) n)
      as [t n'].
    eexists. cbn [fst]. split; [reflexivity|]. cbn.
    destruct (Z.ltb_spec (get_default 0 (Json.crowns opponent0))
                         (get_default 0 (Json.crowns team0))).
    + repeat split; auto; intros; lia.
    + repeat split; auto; intros; try discriminate; lia.
  - intros record self k Hr.
    destruct (add_battle_performance clk record self k) as [v ->].
    generalize (EventDeck.performance self) as p.
    intros [w l wr ce cl mw cs bst pr]. unfold record_result.
    destruct (String.eqb_spec (BattleRecord.result record) "win") as [E | E];
      [contradiction|].
    cbn. destruct (0 <? w + (l + 1)); cbn; repeat split.
Qed.

Lemma C10_witness :
  exists record,
    fst (_create_battle_record sample_clock battle_0910 0%nat) = Some record
    /\ BattleRecord.crowns record = 1
    /\ BattleRecord.opponent_crowns record = 1
    /\ (BattleRecord.result record = "win" <-> 1 < 1)
    /\ (1 = 1 -> BattleRecord.result record = "loss").
Proof.
  exact (proj1 (C10_result_is_win_iff_more_crowns sample_clock battle_0910 0%nat
                  _ _ _ _ eq_refl eq_refl)).
Defined.

(* ================================================================== *)
(** ** Properties of the collection *)
(* ================================================================== *)

Lemma replace_existing_Some (deck : EventDeck.t) (decks decks' : list EventDeck.t) :
  replace_existing deck decks = Some decks' ->
  exists before existing after,
    decks = before ++ existing :: after
    /\ EventDeck.event_id existing = EventDeck.event_id deck
    /\ ~ In (EventDeck.event_id deck) (identities before)
    /\ decks' = before ++ deck :: after.
Proof.
  revert decks'. induction decks as [|x rest IH]; intros decks'; cbn.
  - discriminate.
  - destruct (String.eqb_spec (EventDeck.event_id x) (EventDeck.event_id deck)) as [E | E].
    + intros [= <-]. exists [], x, rest. cbn. auto.
    + destruct (replace_existing deck rest) as [rest'|]; cbn; [|discriminate].
      intros [= <-]. destruct (IH rest' eq_refl) as [bf [ex [af [-> [Hid [Hnot ->]]]]]].
      exists (x :: bf), ex, af. cbn. repeat split; auto.
      intros [H | H]; auto.
Qed.

Lemma replace_existing_None (deck : EventDeck.t) (decks : list EventDeck.t) :
  replace_existing deck decks = None <->
  ~ In (EventDeck.event_id deck) (identities decks).
Proof.
  induction decks as [|x rest IH]; cbn.
  - tauto.
  - destruct (String.eqb_spec (EventDeck.event_id x) (EventDeck.event_id deck)) as [E | E].
    + split; [discriminate | intros H; exfalso; auto].
    + destruct (replace_existing deck rest); cbn.
      * split; [discriminate|]. intros H. destruct IH as [_ IH].
        discriminate IH. intros Hin. apply H. now right.
      * split; [|reflexivity]. intros _ [H | H]; [auto|]. now apply IH.
Qed.

Lemma add_deck_decks (clk : nat -> datetime) (deck : EventDeck.t)
    (self : EventDeckCollection.t) (n : nat) :
  EventDeckCollection.decks (fst (add_deck clk deck self n))
  = match replace_existing deck (EventDeckCollection.decks self) with
    | Some decks => decks
    | None => EventDeckCollection.decks self ++ [deck]
    end.
Proof. reflexivity. Qed.

Lemma add_deck_NoDup (clk : nat -> datetime) (deck : EventDeck.t)
    (self : EventDeckCollection.t) (n : nat) :
  NoDup (identities (EventDeckCollection.decks self)) ->
  NoDup (identities (EventDeckCollection.decks (fst (add_deck clk deck self n)))).
Proof.
  intros H. rewrite add_deck_decks.
  destruct (replace_existing deck (EventDeckCollection.decks self)) as [decks'|] eqn:E.
  - apply replace_existing_Some in E.
    destruct E as [bf [ex [af [E1 [Hid [_ ->]]]]]].
    rewrite E1 in H. unfold identities in *.
    rewrite map_app in *. cbn in *. now rewrite <- Hid.
  - apply replace_existing_None in E. unfold identities in *.
    rewrite map_app. cbn. apply NoDup_app; auto.
    + repeat constructor. auto.
    + intros a Ha [<- | []]. exact (E Ha).
Qed.

(** C5: upserting a session into a collection replaces, in place, the first
    entry with the same identity and keeps the size when there is one, and
    appends the session (size plus one) when there is none; so distinct
    identities stay distinct, and a collection filled by upserts alone never
    holds two entries with one identity. *)
Theorem C5_add_deck_keeps_identities_unique
    (clk : nat -> datetime) (deck : EventDeck.t) (self : EventDeckCollection.t) (n : nat) :
  let decks := EventDeckCollection.decks self in
  let decks' := EventDeckCollection.decks (fst (add_deck clk deck self n)) in
  (In (EventDeck.event_id deck) (identities decks) ->
     List.length decks' = List.length decks
     /\ exists before existing after,
          decks = before ++ existing :: after
          /\ EventDeck.event_id existing = EventDeck.event_id deck
          /\ ~ In (EventDeck.event_id deck) (identities before)
          /\ decks' = before ++ deck :: after)
  /\ (~ In (EventDeck.event_id deck) (identities decks) ->
      decks' = decks ++ [deck] /\ List.length decks' = S (List.length decks))
  /\ (NoDup (identities decks) -> NoDup (identities decks'))
  /\ (forall (inserted : list EventDeck.t) (player_tag : string) (created : datetime) (k : nat),
        NoDup (identities
                 (EventDeckCollection.decks
                    (fst (add_decks clk inserted
                            (EventDeckCollection.mk player_tag [] created) k))))).
Proof.
  cbv zeta. rewrite add_deck_decks. repeat split.
  - destruct (replace_existing deck (EventDeckCollection.decks self)) as [decks'|] eqn:E.
    + apply replace_existing_Some in E.
      destruct E as [bf [ex [af [-> [_ [_ ->]]]]]].
      rewrite !length_app. reflexivity.
    + apply replace_existing_None in E. contradiction.
  - destruct (replace_existing deck (EventDeckCollection.decks self)) as [decks'|] eqn:E.
    + apply replace_existing_Some in E.
      destruct E as [bf [ex [af E]]]. exists bf, ex, af. exact E.
    + apply replace_existing_None in E. contradiction.
  - apply replace_existing_None in H. now rewrite H.
  - apply replace_existing_None in H. rewrite H, length_app. cbn. lia.
  - intros H. rewrite <- add_deck_decks with (clk := clk) (n := n).
    now apply add_deck_NoDup.
  - intros inserted player_tag created k. unfold add_decks.
    apply (foldM_preserves
             (fun c => NoDup (identities (EventDeckCollection.decks c)))).
    + intros c d j. apply add_deck_NoDup.
    + constructor.
Qed.

Lemma C5_witness :
  let collection :=
    fst (add_decks sample_clock [sample_session None]
           (EventDeckCollection.mk "#PLAYER" [] 0) 0%nat) in
  let decks := EventDeckCollection.decks collection in
  let decks' :=
    EventDeckCollection.decks
      (fst (add_deck sample_clock (sample_session (Some 10)) collection 0%nat)) in
  List.length decks' = List.length decks
  /\ exists before existing after,
       decks = before ++ existing :: after
       /\ EventDeck.event_id existing = EventDeck.event_id (sample_session (Some 10))
       /\ ~ In (EventDeck.event_id (sample_session (Some 10))) (identities before)
       /\ decks' = before ++ sample_session (Some 10) :: after.
Proof.
  cbv zeta.
  apply (C5_add_deck_keeps_identities_unique sample_clock (sample_session (Some 10))).
  cbn. left. reflexivity.
Defined.

(* ================================================================== *)
(** ** Properties of [dict] *)
(* ================================================================== *)

Lemma dict_get_set_same {V : Type} (k : string) (v : V) (d : dict V) :
  dict_get k (dict_set k v d) = Some v.
Proof.
  induction d as [|[k' v'] r IH]; cbn.
  - now rewrite String.eqb_refl.
  - destruct (String.eqb_spec k' k) as [-> | E]; cbn.
    + now rewrite String.eqb_refl.
    + destruct (String.eqb_spec k' k); [contradiction | exact IH].
Qed.

Lemma dict_get_set_other {V : Type} (k k' : string) (v : V) (d : dict V) :
  k <> k' -> dict_get k (dict_set k' v d) = dict_get k d.
Proof.
  intros Hk. induction d as [|[k0 v0] r IH]; cbn.
  - destruct (String.eqb_spec k' k); [congruence | reflexivity].
  - destruct (String.eqb_spec k0 k') as [-> | E]; cbn.
    + destruct (String.eqb_spec k' k); [congruence | reflexivity].
    + destruct (String.eqb_spec k0 k); [reflexivity | exact IH].
Qed.

Lemma dict_keys_set {V : Type} (k k' : string) (v : V) (d : dict V) :
  In k (dict_keys (dict_set k' v d)) <-> k = k' \/ In k (dict_keys d).
Proof.
  unfold dict_keys. induction d as [|[k0 v0] r IH]; cbn.
  - intuition congruence.
  - destruct (String.eqb_spec k0 k') as [-> | E]; cbn.
    + intuition congruence.
    + rewrite IH. intuition congruence.
Qed.

Lemma dict_get_None {V : Type} (k : string) (d : dict V) :
  dict_get k d = None <-> ~ In k (dict_keys d).
Proof.
  unfold dict_keys. induction d as [|[k0 v0] r IH]; cbn.
  - tauto.
  - destruct (String.eqb_spec k0 k) as [-> | E].
    + split; [discriminate | intros H; exfalso; auto].
    + rewrite IH. intuition congruence.
Qed.

Lemma dict_set_NoDup {V : Type} (k : string) (v : V) (d : dict V) :
  NoDup (dict_keys d) -> NoDup (dict_keys (dict_set k v d)).
Proof.
  unfold dict_keys. induction d as [|[k0 v0] r IH]; cbn; intros H.
  - repeat constructor. auto.
  - inversion H as [|? ? Hn Hr]; subst.
    destruct (String.eqb_spec k0 k) as [-> | E]; cbn.
    + now constructor.
    + constructor; [|auto]. intros Hin.
      apply (dict_keys_set k0 k v r) in Hin. destruct Hin; [congruence | auto].
Qed.

Lemma get0_set_same (k : string) (v : Z) (d : dict Z) : get0 k (dict_set k v d) = v.
Proof. unfold get0. now rewrite dict_get_set_same. Qed.

Lemma get0_set_other (k k' : string) (v : Z) (d : dict Z) :
  k <> k' -> get0 k (dict_set k' v d) = get0 k d.
Proof. intros H. unfold get0. now rewrite dict_get_set_other. Qed.

(* ================================================================== *)
(** ** Properties of the per-card tables *)
(* ================================================================== *)

(** One card of one deck. *)
Lemma count_card_step (deck : EventDeck.t) (tables : CardTables.t) (card : CardInDeck.t)
    (c : string) :
  let tables' := count_card deck tables card in
  let hit := if string_dec (CardInDeck.name card) c then 1 else 0 in
  get0 c (CardTables.card_wins tables')
  = get0 c (CardTables.card_wins tables) + hit * deck_wins deck
  /\ get0 c (CardTables.card_losses tables')
     = get0 c (CardTables.card_losses tables) + hit * deck_losses deck
  /\ (In c (dict_keys (CardTables.card_usage tables'))
      <-> c = CardInDeck.name card \/ In c (dict_keys (CardTables.card_usage tables))).
Proof.
  cbv zeta. unfold count_card, deck_wins, deck_losses.
  cbn [CardTables.card_wins CardTables.card_losses CardTables.card_usage].
  split; [|split]; [| |apply dict_keys_set].
  - destruct (string_dec (CardInDeck.name card) c) as [<- | E].
    + rewrite get0_set_same. unfold get0. lia.
    + rewrite get0_set_other by congruence. lia.
  - destruct (string_dec (CardInDeck.name card) c) as [<- | E].
    + rewrite get0_set_same. unfold get0. lia.
    + rewrite get0_set_other by congruence. lia.
Qed.

(** All the cards of one deck. *)
Lemma count_cards_of_deck (deck : EventDeck.t) (cards : list CardInDeck.t)
    (tables : CardTables.t) (c : string) :
  let tables' := fold_left (count_card deck) cards tables in
  let k := Z.of_nat (count_occ string_dec (map CardInDeck.name cards) c) in
  get0 c (CardTables.card_wins tables')
  = get0 c (CardTables.card_wins tables) + k * deck_wins deck
  /\ get0 c (CardTables.card_losses tables')
     = get0 c (CardTables.card_losses tables) + k * deck_losses deck
  /\ (In c (dict_keys (CardTables.card_usage tables'))
      <-> In c (map CardInDeck.name cards)
          \/ In c (dict_keys (CardTables.card_usage tables))).
Proof.
  cbv zeta. revert tables. induction cards as [|card cards IH]; intros tables.
  - cbn. repeat split; try lia; tauto.
  - cbn [fold_left map count_occ In].
    destruct (IH (count_card deck tables card)) as [Hw [Hl Hk]].
    destruct (count_card_step deck tables card c) as [Hw1 [Hl1 Hk1]].
    rewrite Hw, Hl, Hk, Hw1, Hl1, Hk1.
    destruct (string_dec (CardInDeck.name card) c) as [E | E].
    + repeat split; try lia; intuition congruence.
    + repeat split; try lia; intuition congruence.
Qed.

(** All the decks. *)
Lemma card_tables_from (decks : list EventDeck.t) (tables : CardTables.t) (c : string) :
  let tables' :=
    fold_left
      (fun tables deck =>
         fold_left (count_card deck) (Deck.cards (EventDeck.deck deck)) tables)
      decks tables in
  get0 c (CardTables.card_wins tables')
  = get0 c (CardTables.card_wins tables) + summed_per_copy deck_wins c decks
  /\ get0 c (CardTables.card_losses tables')
     = get0 c (CardTables.card_losses tables) + summed_per_copy deck_losses c decks
  /\ (In c (dict_keys (CardTables.card_usage tables'))
      <-> (exists d, In d decks /\ In c (deck_card_names d))
          \/ In c (dict_keys (CardTables.card_usage tables))).
Proof.
  cbv zeta. revert tables. induction decks as [|deck decks IH]; intros tables.
  - cbn. repeat split; try lia; [tauto|]. intros [[d [[] _]] | H]; exact H.
  - cbn [fold_left].
    destruct (IH (fold_left (count_card deck) (Deck.cards (EventDeck.deck deck)) tables))
      as [Hw [Hl Hk]].
    destruct (count_cards_of_deck deck (Deck.cards (EventDeck.deck deck)) tables c)
      as [Hw1 [Hl1 Hk1]].
    rewrite Hw, Hl, Hk, Hw1, Hl1, Hk1.
    unfold summed_per_copy, copies, deck_card_names. cbn [map fold_right].
    repeat split; try lia.
    + intros [[d [Hd Hc]] | [Hc | Hc]]; auto.
      * left. exists d. split; [now right | exact Hc].
      * left. exists deck. split; [now left | exact Hc].
    + intros [[d [[<- | Hd] Hc]] | Hc]; auto.
      left. exists d. auto.
Qed.

(** With distinct card names in every deck, a deck counts once. *)
Lemma summed_per_copy_NoDup (counter : EventDeck.t -> Z) (c : string)
    (decks : list EventDeck.t) :
  Forall (fun d => NoDup (deck_card_names d)) decks ->
  summed_per_copy counter c decks = summed counter c decks.
Proof.
  unfold summed_per_copy, summed. induction 1 as [|d decks Hd _ IH]; [reflexivity|].
  cbn [map fold_right filter]. rewrite IH. unfold copies, contains_card.
  destruct (existsb (String.eqb c) (deck_card_names d)) eqn:E.
  - apply existsb_exists in E. destruct E as [x [Hx Ex]].
    apply String.eqb_eq in Ex. subst x.
    apply (NoDup_count_occ' string_dec) in Hx; [|exact Hd].
    rewrite Hx. cbn [map fold_right]. lia.
  - assert (Hn : ~ In c (deck_card_names d)).
    { intros Hin. apply Bool.not_true_iff_false in E. apply E.
      apply existsb_exists. exists c. split; [exact Hin | apply String.eqb_refl]. }
    apply (count_occ_not_In string_dec) in Hn. rewrite Hn. lia.
Qed.

(** The loop that fills [card_win_rates], for any test and any value. *)
Lemma fold_rates (test : string -> bool) (q : string -> Q) (keys : list string)
    (rates : dict Q) (c : string) :
  let rates' :=
    fold_left (fun rates card => if test card then dict_set card (q card) rates else rates)
              keys rates in
  (In c keys -> test c = true -> dict_get c rates' = Some (q c))
  /\ (~ In c keys \/ test c = false -> dict_get c rates' = dict_get c rates).
Proof.
  cbv zeta. revert rates. induction keys as [|k keys IH]; intros rates.
  - cbn. split; [tauto | reflexivity].
  - cbn [fold_left In].
    destruct (IH (if test k then dict_set k (q k) rates else rates)) as [IH1 IH2].
    split.
    + intros Hin Ht. destruct (in_dec string_dec c keys) as [Hc | Hc]; [auto|].
      destruct Hin as [-> | Hin]; [|contradiction].
      rewrite IH2 by (now left). rewrite Ht. apply dict_get_set_same.
    + intros H. rewrite IH2 by tauto.
      destruct (test k) eqn:Ek; [|reflexivity].
      apply dict_get_set_other. intros ->. destruct H as [H | H]; [tauto | congruence].
Qed.

(** C9, as stated, fails: a card of a session without recorded battles has
    no entry in the table of win rates. *)
Lemma C9_card_without_battles_is_omitted :
  let decks :=
    [stored_session "grand_challenge_20241208_456" "Grand Challenge" CHALLENGE
       (mk_datetime 2024 12 8 9 0 0 0) hog_cycle 0 0] in
  (exists d, In d decks /\ In "Hog Rider" (deck_card_names d))
  /\ dict_get "Hog Rider" (card_win_rates decks) = None.
Proof.
  split; [|reflexivity].
  eexists. split; [left; reflexivity | left; reflexivity].
Qed.

(** C9 (amended): for sessions whose decks hold no card twice, the table of
    win rates has an entry for every card of some deck whose summed wins and
    losses, over the sessions whose deck contains it, are positive, and the
    entry is the summed wins divided by the summed wins plus losses; a card
    with no recorded battle has no entry. *)
Theorem C9_card_win_rate_is_summed_wins_over_battles
    (decks : list EventDeck.t) (card : string)
    (Hdistinct : Forall (fun d => NoDup (deck_card_names d)) decks)
    (Hused : exists d, In d decks /\ In card (deck_card_names d)) :
  let wins := summed deck_wins card decks in
  let losses := summed deck_losses card decks in
  (0 < wins + losses ->
   dict_get card (card_win_rates decks)
   = Some (inject_Z wins / inject_Z (wins + losses))%Q)
  /\ (wins + losses <= 0 -> dict_get card (card_win_rates decks) = None).
Proof.
  cbv zeta.
  destruct (card_tables_from decks CardTables.empty card) as [Hw [Hl Hk]].
  fold (card_tables decks) in Hw, Hl, Hk.
  rewrite (summed_per_copy_NoDup _ _ _ Hdistinct) in Hw.
  rewrite (summed_per_copy_NoDup _ _ _ Hdistinct) in Hl.
  change (get0 card (CardTables.card_wins CardTables.empty)) with 0 in Hw.
  change (get0 card (CardTables.card_losses CardTables.empty)) with 0 in Hl.
  rewrite Z.add_0_l in Hw, Hl.
  assert (Hin : In card (dict_keys (CardTables.card_usage (card_tables decks)))).
  { apply Hk. now left. }
  pose (tables := card_tables decks).
  pose (test := fun c => 0 <? get0 c (CardTables.card_wins tables)
                          + get0 c (CardTables.card_losses tables)).
  pose (q := fun c =>
          (inject_Z (get0 c (CardTables.card_wins tables))
           / inject_Z (get0 c (CardTables.card_wins tables)
                       + get0 c (CardTables.card_losses tables)))%Q).
  destruct (fold_rates test q (dict_keys (CardTables.card_usage tables)) [] card)
    as [H1 H2].
  change (fold_left _ _ _) with (card_win_rates decks) in H1, H2.
  subst test q tables. cbv beta in H1, H2. rewrite Hw, Hl in H1, H2.
  split.
  - intros Hpos. apply H1; [exact Hin|]. apply Z.ltb_lt. exact Hpos.
  - intros Hzero. rewrite H2; [reflexivity|]. right. apply Z.ltb_ge. exact Hzero.
Qed.

Lemma C9_witness :
  let decks :=
    [stored_session "grand_challenge_20241208_456" "Grand Challenge" CHALLENGE
       (mk_datetime 2024 12 8 9 0 0 0) hog_cycle 2 1] in
  dict_get "Zap" (card_win_rates decks)
  = Some (inject_Z (summed deck_wins "Zap" decks)
          / inject_Z (summed deck_wins "Zap" decks + summed deck_losses "Zap" decks))%Q.
Proof.
  cbv zeta.
  apply C9_card_win_rate_is_summed_wins_over_battles.
  - repeat constructor; cbn; intuition discriminate.
  - eexists. split; [left; reflexivity|]. cbn. auto 10.
  - cbn. lia.
Defined.

(* ================================================================== *)
(** ** Properties of [sorted] and of the clock monad *)
(* ================================================================== *)

Section StableSortFacts.
Context {A K : Type} (leb : K -> K -> bool) (key : A -> K).
Hypothesis leb_total : forall a b, leb a b = true \/ leb b a = true.

Lemma insert_sorted_perm (x : A) (l : list A) :
    Permutation (insert_sorted leb key x l) (x :: l).
  Proof.
    induction l as [|y r IH]; cbn.
    - reflexivity.
    - destruct (leb (key x) (key y)); [reflexivity|].
      rewrite IH. apply perm_swap.
  Qed.

Lemma sorted_perm (l : list A) : Permutation (sorted leb key l) l.
  Proof.
    induction l as [|x r IH]; cbn.
    - reflexivity.
    - rewrite insert_sorted_perm. now constructor.
  Qed.

Lemma insert_sorted_HdRel (a x : A) (l : list A) :
    (key_le leb key) a x -> HdRel (key_le leb key) a l -> HdRel (key_le leb key) a (insert_sorted leb key x l).
  Proof.
    intros Hax Hal. destruct l as [|y r]; cbn.
    - now constructor.
    - destruct (leb (key x) (key y)); constructor; [assumption|].
      now inversion Hal.
  Qed.

Lemma insert_sorted_Sorted (x : A) (l : list A) :
    Sorted (key_le leb key) l -> Sorted (key_le leb key) (insert_sorted leb key x l).
  Proof.
    induction 1 as [|y r Hr IH Hy]; cbn.
    - repeat constructor.
    - destruct (leb (key x) (key y)) eqn:E.
      + constructor; [now constructor|]. constructor. exact E.
      + constructor; [exact IH|].
        apply insert_sorted_HdRel; [|exact Hy].
        destruct (leb_total (key x) (key y)) as [H | H]; [congruence | exact H].
  Qed.

Lemma sorted_Sorted (l : list A) : Sorted (key_le leb key) (sorted leb key l).
  Proof.
    induction l as [|x r IH]; cbn.
    - constructor.
    - now apply insert_sorted_Sorted.
  Qed.
End StableSortFacts.

Lemma foldM_preserves_In {A S : Type} (P : S -> Prop) (f : S -> A -> Clock S) (l : list A) :
  (forall s a n, In a l -> P s -> P (fst (f s a n))) ->
  forall s n, P s -> P (fst (foldM f l s n)).
Proof.
  induction l as [|a l IH]; intros Hstep s n Hs; cbn.
  - exact Hs.
  - unfold bind. specialize (Hstep s a n (or_introl eq_refl) Hs) as H1.
    destruct (f s a n) as [s' n']; cbn in H1. apply IH; [|exact H1].
    intros s0 a0 n0 Hin. apply Hstep. now right.
Qed.

(* ================================================================== *)
(** ** Properties of the store *)
(* ================================================================== *)

Lemma dict_set_In {V : Type} (k k' : string) (v v' : V) (d : dict V) :
  In (k, v) (dict_set k' v' d) -> (k = k' /\ v = v') \/ In (k, v) d.
Proof.
  induction d as [|[k0 v0] r IH]; cbn.
  - intros [[= <- <-] | []]. now left.
  - destruct (String.eqb_spec k0 k') as [-> | E]; cbn.
    + intros [[= <- <-] | H]; [now left | right; now right].
    + intros [H | H]; [right; now left|].
      destruct (IH H) as [H' | H']; [now left | right; now right].
Qed.

Lemma well_placed_empty : well_placed PlayerDir.empty.
Proof. intros [] f d []. Qed.

Lemma save_event_deck_well_placed (clk : nat -> datetime) (deck : EventDeck.t)
    (pd : PlayerDir.t) (n : nat) :
  well_placed pd -> well_placed (fst (save_event_deck clk deck pd n)).
Proof.
  intros H d f x.
  unfold save_event_deck, _update_collection_file, add_deck, bind, ret, now.
  destruct (read_collection _); cbn [fst];
    unfold set_collection_file, write_file;
    destruct (subdir_of (EventDeck.event_type deck)) eqn:E; destruct d; cbn;
    intros Hin;
    try (apply dict_set_In in Hin; destruct Hin as [[_ [= <-]] | Hin]; [exact E|]);
    try (eapply (H Challenges); exact Hin);
    try (eapply (H Tournaments); exact Hin);
    try (eapply (H SpecialEvents); exact Hin).
Qed.

(** What one turn of the loop over the files adds to the list. *)
Lemma load_file_spec (clk : nat -> datetime) (days_back : option Z)
    (decks : list EventDeck.t) (file : string * option EventDeck.t) (n : nat) :
  let decks' := fst (load_file clk days_back decks file n) in
  decks' = decks
  \/ exists deck,
       snd file = Some deck /\ valid_session deck = true /\ decks' = decks ++ [deck]
       /\ forall days, days_back = Some days -> days <> 0 ->
            exists cutoff, now_minus_days (clk n) days = Some cutoff
                           /\ cutoff <= EventDeck.start_time deck.
Proof.
  cbv zeta. unfold load_file, read_session, bind, ret, now.
  destruct (String.eqb (fst file) "collection.json"); [now left|].
  destruct (snd file) as [deck|]; [|now left].
  destruct (valid_session deck) eqn:Hvalid; [|now left].
  destruct days_back as [days|].
  - destruct (Z.eqb_spec days 0) as [-> | Hd].
    + right. exists deck. split; [reflexivity|]. split; [exact Hvalid|].
      split; [reflexivity|]. intros d [= <-] Hd. congruence.
    + destruct (now_minus_days (clk n) days) as [cutoff|] eqn:Ec; [|now left].
      destruct (Z.ltb_spec (EventDeck.start_time deck) cutoff); [now left|].
      right. exists deck. split; [reflexivity|]. split; [exact Hvalid|].
      split; [reflexivity|]. intros d [= <-] _. now exists cutoff.
  - right. exists deck. split; [reflexivity|]. split; [exact Hvalid|].
    split; [reflexivity|]. discriminate.
Qed.

Lemma load_file_clock (clk : nat -> datetime) (days_back : option Z)
    (decks : list EventDeck.t) (file : string * option EventDeck.t) (n : nat) :
  (n <= snd (load_file clk days_back decks file n))%nat.
Proof.
  unfold load_file, read_session, bind, ret, now.
  repeat match goal with
         | |- context [match ?x with _ => _ end] => destruct x; cbn
         end; lia.
Qed.

(** A property that holds for the session of every file, under the condition
    of the recency filter at some reading of the clock, holds for every
    loaded session. *)
Lemma load_files_Forall (clk : nat -> datetime) (days_back : option Z)
    (P : EventDeck.t -> Prop) (first_reading : nat) (files : dict (option EventDeck.t)) :
  (forall filename deck k,
      (first_reading <= k)%nat ->
      In (filename, Some deck) files ->
      (forall days, days_back = Some days -> days <> 0 ->
         exists cutoff, now_minus_days (clk k) days = Some cutoff
                        /\ cutoff <= EventDeck.start_time deck) ->
      P deck) ->
  forall decks n,
    (first_reading <= n)%nat ->
    Forall P decks ->
    Forall P (fst (foldM (load_file clk days_back) files decks n)).
Proof.
  induction files as [|file files IH]; intros Hfile decks n Hn Hdecks; cbn.
  - exact Hdecks.
  - unfold bind.
    pose proof (load_file_spec clk days_back decks file n) as Hs.
    pose proof (load_file_clock clk days_back decks file n) as Hc.
    destruct (load_file clk days_back decks file n) as [decks' n']. cbn [fst snd] in Hs, Hc.
    apply IH.
    + intros f d k Hk Hin. apply (Hfile f d k Hk). now right.
    + lia.
    + destruct Hs as [-> | [deck [Hf [_ [-> Hcut]]]]]; [exact Hdecks|].
      apply Forall_app. split; [exact Hdecks|]. constructor; [|constructor].
      apply (Hfile (fst file) deck n Hn); [|exact Hcut].
      left. rewrite <- Hf. now destruct file.
Qed.

Lemma firstn_StronglySorted {A : Type} (R : A -> A -> Prop) (n : nat) (l : list A) :
  StronglySorted R l -> StronglySorted R (firstn n l).
Proof.
  revert l. induction n as [|n IH]; intros l H; cbn.
  - constructor.
  - destruct H as [|x l Hl Hx]; constructor; [now apply IH|].
    rewrite Forall_forall in *. intros y Hy. apply Hx.
    rewrite <- (firstn_skipn n l). apply in_or_app. now left.
Qed.

Lemma firstn_Forall {A : Type} (P : A -> Prop) (n : nat) (l : list A) :
  Forall P l -> Forall P (firstn n l).
Proof.
  intros H. rewrite Forall_forall in *. intros y Hy. apply H.
  rewrite <- (firstn_skipn n l). apply in_or_app. now left.
Qed.

Lemma slice_to_StronglySorted {A : Type} (R : A -> A -> Prop) (n : Z) (l : list A) :
  StronglySorted R l -> StronglySorted R (slice_to n l).
Proof. unfold slice_to. destruct (0 <=? n); apply firstn_StronglySorted. Qed.

Lemma slice_to_Forall {A : Type} (P : A -> Prop) (n : Z) (l : list A) :
  Forall P l -> Forall P (slice_to n l).
Proof. unfold slice_to. destruct (0 <=? n); apply firstn_Forall. Qed.

(** The list [get_event_decks] returns, from the loaded sessions. *)
Lemma get_event_decks_result (clk : nat -> datetime) (pd : PlayerDir.t)
    (event_type : option EventType) (days_back limit : option Z) (n : nat) :
  let loaded :=
    fst (foldM (load_file clk days_back)
           (flat_map (fun d => read_subdir d pd) (searched_subdirs event_type)) [] n) in
  let ordered := sorted (fun a b => b <=? a) EventDeck.start_time loaded in
  fst (get_event_decks clk pd event_type days_back limit n)
  = match limit with
    | None => ordered
    | Some k => if k =? 0 then ordered else slice_to k ordered
    end.
Proof.
  cbv zeta. unfold get_event_decks, bind, ret.
  destruct (foldM _ _ _ _) as [loaded n']. reflexivity.
Qed.

Lemma Sorted_impl {A : Type} (R R' : A -> A -> Prop) (l : list A) :
  (forall a b, R a b -> R' a b) -> Sorted R l -> Sorted R' l.
Proof.
  intros HR. induction 1 as [|x l Hl IH Hx]; constructor; [exact IH|].
  destruct Hx; constructor. now apply HR.
Qed.

Lemma newest_first_StronglySorted (decks : list EventDeck.t) :
  StronglySorted (fun a b => EventDeck.start_time b <= EventDeck.start_time a)
                 (sorted (fun a b => b <=? a) EventDeck.start_time decks).
Proof.
  apply Sorted_StronglySorted.
  - intros a b c Hab Hbc. lia.
  - apply (Sorted_impl (key_le (fun a b => b <=? a) EventDeck.start_time)).
    + intros a b. unfold key_le. apply Z.leb_le.
    + apply sorted_Sorted. intros a b. rewrite !Z.leb_le. lia.
Qed.

(** What a query does guarantee: for a directory in which every file lies in
    the sub-directory of its session's category (where [save_event_deck]
    writes it), every query returns sessions of the storage class of the requested
    category - the requested category itself for [tournament] and
    [special_event], any category other than these two for every other
    request - sorted newest-first by start time; with a non-zero [days_back]
    every returned session started no earlier than the cutoff of a reading of
    the clock made during the query; with a positive [limit] at most [limit]
    sessions are returned. *)
Lemma query_filters_by_storage_class_sorts_and_truncates
    (clk : nat -> datetime) (pd : PlayerDir.t) (event_type : option EventType)
    (days_back limit : option Z) (n : nat)
    (Hplaced : well_placed pd) :
  let result := fst (get_event_decks clk pd event_type days_back limit n) in
  (forall ty, event_type = Some ty ->
     Forall (fun d => subdir_of (EventDeck.event_type d) = subdir_of ty) result
     /\ (ty = TOURNAMENT \/ ty = SPECIAL_EVENT ->
         Forall (fun d => EventDeck.event_type d = ty) result))
  /\ StronglySorted (fun a b => EventDeck.start_time b <= EventDeck.start_time a) result
  /\ (forall days, days_back = Some days -> days <> 0 ->
        Forall (within_cutoff clk n days) result)
  /\ (forall k, limit = Some k -> 0 < k -> Z.of_nat (List.length result) <= k).
Proof.
  cbv zeta. rewrite get_event_decks_result.
  set (loaded := fst (foldM _ _ _ _)).
  set (ordered := sorted _ _ loaded).
  assert (Hperm : Permutation ordered loaded) by apply sorted_perm.
  assert (Hall : forall P : EventDeck.t -> Prop,
             Forall P loaded ->
             Forall P match limit with
                      | None => ordered
                      | Some k => if k =? 0 then ordered else slice_to k ordered
                      end).
  { intros P HP.
    assert (HP' : Forall P ordered)
      by (eapply Permutation_Forall; [symmetry; exact Hperm | exact HP]).
    destruct limit as [k|]; [|exact HP'].
    destruct (k =? 0); [exact HP' | apply slice_to_Forall; exact HP']. }
  assert (Hclass : forall ty, event_type = Some ty ->
             Forall (fun d => subdir_of (EventDeck.event_type d) = subdir_of ty) loaded).
  { intros ty ->. subst loaded.
    apply (load_files_Forall clk days_back _ n); [|lia|constructor].
    intros f d k _ Hin _. cbn in Hin. rewrite app_nil_r in Hin.
    now apply (Hplaced _ f). }
  split; [|split; [|split]].
  - intros ty Hty. split.
    + apply Hall. now apply Hclass.
    + intros Hcase. apply Hall. eapply Forall_impl; [|exact (Hclass ty Hty)].
      intros d Hd. cbv beta in Hd.
      destruct Hcase as [-> | ->]; destruct (EventDeck.event_type d);
        cbn in Hd; congruence.
  - assert (Hs : StronglySorted
                   (fun a b => EventDeck.start_time b <= EventDeck.start_time a) ordered)
      by apply newest_first_StronglySorted.
    destruct limit as [k|]; [|exact Hs].
    destruct (k =? 0); [exact Hs | apply slice_to_StronglySorted; exact Hs].
  - intros days -> Hdays. apply Hall. subst loaded.
    apply (load_files_Forall clk (Some days) _ n); [|lia|constructor].
    intros f d k Hk _ Hcut. destruct (Hcut days eq_refl Hdays) as [cutoff [H1 H2]].
    now exists k, cutoff.
  - intros k -> Hk. destruct (Z.eqb_spec k 0); [lia|].
    unfold slice_to. destruct (Z.leb_spec 0 k); [|lia].
    pose proof (firstn_le_length (Z.to_nat k) ordered). lia.
Qed.


(** The loop over the files only appends. *)
Lemma load_files_keep (clk : nat -> datetime) (days_back : option Z)
    (files : dict (option EventDeck.t)) (x : EventDeck.t) :
  forall decks n,
    In x decks -> In x (fst (foldM (load_file clk days_back) files decks n)).
Proof.
  intros decks n. apply (foldM_preserves (fun decks => In x decks)).
  intros s file k Hs.
  destruct (load_file_spec clk days_back s file k) as [-> | [deck [_ [_ [-> _]]]]];
    [exact Hs | apply in_or_app; now left].
Qed.

(** Without a recency filter every file that holds a valid session is
    loaded, whatever the category of the session. *)
Lemma load_files_In (clk : nat -> datetime) (files : dict (option EventDeck.t))
    (filename : string) (deck : EventDeck.t) :
  In (filename, Some deck) files ->
  String.eqb filename "collection.json" = false ->
  valid_session deck = true ->
  forall decks n, In deck (fst (foldM (load_file clk None) files decks n)).
Proof.
  intros Hin Hname Hvalid.
  induction files as [|file files IH]; intros decks n; [destruct Hin|].
  cbn [foldM]. unfold bind.
  destruct Hin as [-> | Hin].
  - assert (E : load_file clk None decks (filename, Some deck) n
                = (decks ++ [deck], n))
      by (unfold load_file, read_session; cbn [fst snd]; now rewrite Hname, Hvalid).
    rewrite E. apply load_files_keep. apply in_or_app. right. now left.
  - destruct (load_file clk None decks file n) as [decks' n']. now apply IH.
Qed.

(** Every loaded session is valid. *)
Lemma load_files_valid (clk : nat -> datetime) (days_back : option Z)
    (files : dict (option EventDeck.t)) :
  forall decks n,
    Forall (fun d => valid_session d = true) decks ->
    Forall (fun d => valid_session d = true)
           (fst (foldM (load_file clk days_back) files decks n)).
Proof.
  apply (foldM_preserves (fun decks => Forall (fun d => valid_session d = true) decks)).
  intros s file k Hs.
  destruct (load_file_spec clk days_back s file k) as [-> | [deck [_ [Hv [-> _]]]]];
    [exact Hs|].
  apply Forall_app. split; [exact Hs | now repeat constructor].
Qed.

(** [days_back=0] is no filter: the files are loaded as without [days_back],
    and the clock is not read. *)
Lemma load_files_days_back_0 (clk : nat -> datetime) (files : dict (option EventDeck.t)) :
  forall decks n,
    foldM (load_file clk (Some 0)) files decks n = foldM (load_file clk None) files decks n.
Proof.
  induction files as [|file files IH]; intros decks n; [reflexivity|].
  cbn [foldM]. unfold bind.
  assert (E : load_file clk (Some 0) decks file n = load_file clk None decks file n)
    by (unfold load_file; cbn [Z.eqb]; reflexivity).
  rewrite E. destruct (load_file clk None decks file n) as [decks' n']. apply IH.
Qed.

(** C6: the category of a stored session is never compared with the
    requested one: a query for a category returns every valid session kept
    in the sub-directory the category selects ([challenges], [tournaments]
    or [special_events]), whatever the category of the session.  Nor do the
    other filters hold at 0 and below: [limit=0] returns the list untruncated,
    a negative [limit] returns the list without its last [-limit] sessions,
    and [days_back=0] applies no cutoff. *)
Theorem C6_query_returns_every_session_of_the_sub_directory
    (clk : nat -> datetime) (pd : PlayerDir.t) (requested : EventType)
    (filename : string) (deck : EventDeck.t) (n : nat)
    (Hfile : In (filename, Some deck) (read_subdir (subdir_of requested) pd))
    (Hname : filename <> "collection.json")
    (Hvalid : valid_session deck = true) :
  In deck (fst (get_event_decks clk pd (Some requested) None None n))
  /\ In deck (fst (get_event_decks clk pd (Some requested) (Some 0) (Some 0) n))
  /\ (forall event_type days_back,
        get_event_decks clk pd event_type days_back (Some 0) n
        = get_event_decks clk pd event_type days_back None n)
  /\ (forall event_type days_back k, k < 0 ->
        let unlimited := fst (get_event_decks clk pd event_type days_back None n) in
        fst (get_event_decks clk pd event_type days_back (Some k) n)
        = firstn (Z.to_nat (Z.of_nat (List.length unlimited) + k)) unlimited)
  /\ (forall event_type limit,
        get_event_decks clk pd event_type (Some 0) limit n
        = get_event_decks clk pd event_type None limit n).
Proof.
  assert (Hin : In deck (fst (get_event_decks clk pd (Some requested) None None n))).
  { rewrite get_event_decks_result. cbv zeta.
    eapply Permutation_in; [symmetry; apply sorted_perm|].
    apply (load_files_In clk _ filename).
    - cbn [searched_subdirs flat_map]. now rewrite app_nil_r.
    - now apply String.eqb_neq.
    - exact Hvalid. }
  assert (Hlimit : forall event_type days_back,
             get_event_decks clk pd event_type days_back (Some 0) n
             = get_event_decks clk pd event_type days_back None n)
    by reflexivity.
  assert (Hdays : forall event_type limit,
             get_event_decks clk pd event_type (Some 0) limit n
             = get_event_decks clk pd event_type None limit n).
  { intros event_type limit. unfold get_event_decks, bind.
    now rewrite load_files_days_back_0. }
  split; [exact Hin|]. split; [now rewrite Hlimit, Hdays|].
  split; [exact Hlimit|]. split; [|exact Hdays].
  intros event_type days_back k Hk. cbv zeta.
  rewrite !get_event_decks_result. cbv zeta.
  destruct (Z.eqb_spec k 0); [lia|].
  unfold slice_to. destruct (Z.leb_spec 0 k); [lia | reflexivity].
Qed.

(** The instance of C6 at the sample directory: the query for [challenge]
    returns the stored sudden-death session, and with [limit=0] it returns
    both stored sessions. *)
Lemma C6_witness :
  let result :=
    fst (get_event_decks sample_clock sample_dir (Some CHALLENGE) None None 0%nat) in
  In sudden_death_session result
  /\ EventDeck.event_type sudden_death_session <> CHALLENGE
  /\ List.length
       (fst (get_event_decks sample_clock sample_dir (Some CHALLENGE) None (Some 0) 0%nat))
     = 2%nat.
Proof.
  cbv zeta.
  destruct (C6_query_returns_every_session_of_the_sub_directory sample_clock sample_dir
              CHALLENGE "2024-12-01_sudden_death.json" sudden_death_session 0%nat)
    as (Hin & _ & Hlimit & _).
  - vm_compute. left. reflexivity.
  - discriminate.
  - reflexivity.
  - split; [exact Hin|]. split; [discriminate|].
    rewrite Hlimit. vm_compute. reflexivity.
Defined.

(* ================================================================== *)
(** ** Properties of the session segmenter *)
(* ================================================================== *)

#[local] Arguments str_of_int : simpl never.

Lemma parse_battle_time_parsed (clk : nat -> datetime) (s : string) (t : datetime) (n : nat) :
  strptime (split_dot_head s) = Some t -> _parse_battle_time clk s n = (t, n).
Proof. intros H. unfold _parse_battle_time. now rewrite H. Qed.

Lemma generate_event_id_parsed (clk : nat -> datetime) (hash : list string -> Z)
    (event_data : EventData.t) (battle : Json.battle) (t : datetime) (n : nat) :
  strptime (split_dot_head (battle_time_key battle)) = Some t ->
  _generate_event_id clk hash event_data battle n = (event_id_at hash event_data t, n).
Proof.
  intros H. unfold _generate_event_id, bind, ret.
  fold (battle_time_key battle). now rewrite (parse_battle_time_parsed clk _ t n H).
Qed.

Lemma group_step_parsed (clk : nat -> datetime) (hash : list string -> Z)
    (st : GroupLoop.t) (battle : Json.battle) (t : datetime) (n : nat) :
  strptime (split_dot_head (battle_time_key battle)) = Some t ->
  group_step clk hash st battle n
  = if _is_new_event battle (GroupLoop.current_event st) t (GroupLoop.last_battle_time st)
    then (GroupLoop.mk (fst (save_current clk hash st n))
            (Some (_extract_event_data battle)) [battle] (Some t),
          snd (save_current clk hash st n))
    else (GroupLoop.mk (GroupLoop.event_groups st) (GroupLoop.current_event st)
            (GroupLoop.current_battles st ++ [battle]) (Some t), n).
Proof.
  intros H. unfold group_step, bind, ret.
  fold (battle_time_key battle). rewrite (parse_battle_time_parsed clk _ t n H).
  destruct (_is_new_event _ _ _ _); [|reflexivity].
  now destruct (save_current clk hash st n).
Qed.

Lemma save_current_parsed (clk : nat -> datetime) (hash : list string -> Z)
    (groups : dict (EventData.t * list Json.battle)) (event_data : EventData.t)
    (first : Json.battle) (rest : list Json.battle) (last : option datetime)
    (t : datetime) (n : nat) :
  strptime (split_dot_head (battle_time_key first)) = Some t ->
  save_current clk hash (GroupLoop.mk groups (Some event_data) (first :: rest) last) n
  = (dict_set (event_id_at hash event_data t) (event_data, first :: rest) groups, n).
Proof.
  intros H. unfold save_current, bind, ret. cbn [GroupLoop.current_event
    GroupLoop.current_battles GroupLoop.event_groups].
  now rewrite (generate_event_id_parsed clk hash event_data first t n H).
Qed.

(** C1 fails on the code: the battles of 09:00 and 09:10 form one session,
    the battle of 11:00 (same deck, same mode, same day) starts another; both
    get the same identity, and the later one replaces the earlier one in
    the result, which then holds the battle of 11:00 alone. *)
Theorem C1_later_session_replaces_earlier_one
    (clk : nat -> datetime) (hash : list string -> Z) (n : nat) :
  let groups :=
    fst (_group_battles_by_event clk hash [battle_0900; battle_0910; battle_1100] n) in
  map (fun g => snd (snd g)) groups = [[battle_1100]].
Proof.
  cbv zeta. unfold _group_battles_by_event.
  replace (sorted_battles [battle_0900; battle_0910; battle_1100])
    with [battle_0900; battle_0910; battle_1100] by reflexivity.
  set (ev := _extract_event_data battle_0900).
  set (t0 := mk_datetime 2024 12 8 9 0 0 0).
  set (t1 := mk_datetime 2024 12 8 9 10 0 0).
  set (t2 := mk_datetime 2024 12 8 11 0 0 0).
  assert (P0 : strptime (split_dot_head (battle_time_key battle_0900)) = Some t0)
    by reflexivity.
  assert (P1 : strptime (split_dot_head (battle_time_key battle_0910)) = Some t1)
    by reflexivity.
  assert (P2 : strptime (split_dot_head (battle_time_key battle_1100)) = Some t2)
    by reflexivity.
  cbn [foldM]. unfold bind at 1 2 3 4.
  rewrite (group_step_parsed clk hash _ _ t0 n P0). cbn [_is_new_event GroupLoop.init
    GroupLoop.current_event fst snd save_current GroupLoop.current_battles
    GroupLoop.event_groups ret].
  rewrite (group_step_parsed clk hash _ _ t1 n P1).
  replace (_is_new_event battle_0910 _ t1 _) with false by reflexivity.
  rewrite (group_step_parsed clk hash _ _ t2 n P2).
  replace (_is_new_event battle_1100 _ t2 _) with true by reflexivity.
  cbn [GroupLoop.event_groups GroupLoop.current_event GroupLoop.current_battles app].
  rewrite (save_current_parsed clk hash _ _ _ _ _ t0 n P0). cbn [fst snd ret].
  replace (_extract_event_data battle_1100) with ev by reflexivity.
  rewrite (save_current_parsed clk hash _ _ _ _ _ t2 n P2).
  replace (event_id_at hash ev t2) with (event_id_at hash ev t0) by reflexivity.
  cbn [fst dict_set]. rewrite String.eqb_refl. reflexivity.
Qed.

Lemma append_inj_l (p a b : string) : (p ++ a)%string = (p ++ b)%string -> a = b.
Proof.
  induction p as [|c p IH]; cbn; intros H; [exact H|].
  injection H as H. now apply IH.
Qed.

Lemma to_int_not_nil (n : Z) : Z.to_int n <> Decimal.Pos Decimal.Nil /\ Z.to_int n <> Decimal.Neg Decimal.Nil.
Proof.
  destruct n as [|p|p]; cbn; split; try discriminate;
    intros [= H]; now apply (DecimalPos.Unsigned.to_uint_nonnil p).
Qed.

Lemma str_of_int_inj (a b : Z) : str_of_int a = str_of_int b -> a = b.
Proof.
  unfold str_of_int. intros H.
  apply DecimalZ.to_int_inj.
  destruct (to_int_not_nil a) as [Ha1 Ha2], (to_int_not_nil b) as [Hb1 Hb2].
  pose proof (NilZero.isi (Z.to_int a) Ha1 Ha2) as Ia.
  pose proof (NilZero.isi (Z.to_int b) Hb1 Hb2) as Ib.
  rewrite H in Ia. rewrite Ia in Ib. now injection Ib.
Qed.

Lemma insert_sorted_not_nil {A K : Type} (leb : K -> K -> bool) (key : A -> K)
    (x : A) (l : list A) : insert_sorted leb key x l <> [].
Proof. destruct l as [|y r]; cbn; [discriminate|]. now destruct (leb (key x) (key y)). Qed.

(** Within one process the identity is a function of the normalized event
    name, of the text of the time of the first battle, and of the sorted
    card names. *)
Lemma generate_event_id_deterministic (clk : nat -> datetime) (hash : list string -> Z)
    (ev1 ev2 : EventData.t) (b1 b2 : Json.battle) (n : nat) :
  normalize_event_name (EventData.event_name ev1)
  = normalize_event_name (EventData.event_name ev2) ->
  battle_time_key b1 = battle_time_key b2 ->
  sorted_str (EventData.deck_cards ev1) = sorted_str (EventData.deck_cards ev2) ->
  _generate_event_id clk hash ev1 b1 n = _generate_event_id clk hash ev2 b2 n.
Proof.
  intros Hn Ht Hd. unfold _generate_event_id.
  fold (battle_time_key b1) (battle_time_key b2). rewrite Hn, Ht, Hd.
  destruct (EventData.deck_cards ev1) as [|x1 r1], (EventData.deck_cards ev2) as [|x2 r2];
    try reflexivity.
  - exfalso. symmetry in Hd. revert Hd. apply insert_sorted_not_nil.
  - exfalso. revert Hd. apply insert_sorted_not_nil.
Qed.

Lemma append_inj_same_length (a b c d : string) :
  String.length a = String.length b ->
  (a ++ c)%string = (b ++ d)%string -> a = b /\ c = d.
Proof.
  revert b. induction a as [|x a IH]; intros [|y b]; cbn; try discriminate.
  - auto.
  - intros [= Hl] [= -> H]. destruct (IH b Hl H) as [-> ->]. auto.
Qed.

Lemma strftime_Ymd_length (t : datetime) : String.length (strftime_Ymd t) = 8%nat.
Proof. unfold strftime_Ymd. now destruct (ord2ymd (t / US_PER_DAY)) as [[y m] d]. Qed.

(** C8 fails on the code: the numeric suffix of the identity is the built-in
    hash of the running process, so two processes whose hashes of the sorted
    card names differ modulo 1000 derive different identities for the same
    group, whatever their clocks show. *)
Theorem C8_identity_changes_with_the_hash_of_the_process
    (clock1 clock2 : nat -> datetime) (hash1 hash2 : list string -> Z)
    (event_data : EventData.t) (battle : Json.battle) (n1 n2 : nat)
    (Hdeck : EventData.deck_cards event_data <> [])
    (Hhash : Z.abs (hash1 (sorted_str (EventData.deck_cards event_data))) mod 1000
             <> Z.abs (hash2 (sorted_str (EventData.deck_cards event_data))) mod 1000) :
  fst (_generate_event_id clock1 hash1 event_data battle n1)
  <> fst (_generate_event_id clock2 hash2 event_data battle n2).
Proof.
  unfold _generate_event_id, bind, ret.
  destruct (_parse_battle_time clock1 (get_default "" (Json.battleTime battle)) n1)
    as [t1 k1].
  destruct (_parse_battle_time clock2 (get_default "" (Json.battleTime battle)) n2)
    as [t2 k2].
  cbn [fst]. destruct (EventData.deck_cards event_data) as [|x r] eqn:E; [congruence|].
  intros H. do 2 apply append_inj_l in H.
  apply append_inj_same_length in H;
    [|now rewrite !strftime_Ymd_length].
  destruct H as [_ H]. apply append_inj_l in H.
  apply str_of_int_inj in H. contradiction.
Qed.

Lemma C8_witness :
  fst (_generate_event_id sample_clock hash_of_first_run
         (_extract_event_data battle_0900) battle_0900 0%nat)
  <> fst (_generate_event_id sample_clock hash_of_second_run
            (_extract_event_data battle_0900) battle_0900 0%nat).
Proof.
  apply C8_identity_changes_with_the_hash_of_the_process.
  - discriminate.
  - vm_compute. discriminate.
Defined.

(* ================================================================== *)
(** ** Well-formed battle times: text order is time order *)
(* ================================================================== *)

Lemma digit_cases (d : Z) :
  0 <= d <= 9 ->
  d = 0 \/ d = 1 \/ d = 2 \/ d = 3 \/ d = 4 \/ d = 5 \/ d = 6 \/ d = 7 \/ d = 8 \/ d = 9.
Proof. lia. Qed.

Ltac each_digit d H :=
  destruct (digit_cases d H) as [-> | [-> | [-> | [-> | [-> | [-> | [-> | [-> | [-> | ->]]]]]]]]].

Lemma dig_digit_char (d : Z) :
  0 <= d <= 9 ->
  dig (digit_char d) = true
  /\ Z.of_N (N_of_ascii (digit_char d)) - 48 = d
  /\ Ascii.eqb (digit_char d) "." = false.
Proof. intros H. each_digit d H; repeat split. Qed.

Lemma compare_digit_char (a b : Z) :
  0 <= a <= 9 -> 0 <= b <= 9 ->
  Ascii.compare (digit_char a) (digit_char b) = (a ?= b).
Proof. intros Ha Hb. each_digit a Ha; each_digit b Hb; reflexivity. Qed.

Lemma two_digits (n : Z) : 0 <= n <= 99 -> 0 <= n / 10 <= 9 /\ 0 <= n mod 10 <= 9.
Proof. intros H. split; Z.div_mod_to_equations; lia. Qed.

Lemma string_app_assoc (a b c : string) : ((a ++ b) ++ c = a ++ b ++ c)%string.
Proof. induction a as [|x a IH]; cbn; [reflexivity | now rewrite IH]. Qed.

Lemma string_app_nil_r (a : string) : (a ++ "")%string = a.
Proof. induction a as [|x a IH]; cbn; [reflexivity | now rewrite IH]. Qed.

(** Two texts that start with a two-digit field compare by the fields, then
    by what follows. *)
Lemma compare_pad2 (a b : Z) (r1 r2 : string) :
  0 <= a <= 99 -> 0 <= b <= 99 ->
  String.compare (pad2 a ++ r1) (pad2 b ++ r2)
  = match a ?= b with
    | Eq => String.compare r1 r2
    | c => c
    end.
Proof.
  intros Ha Hb.
  destruct (two_digits a Ha) as [Ha1 Ha0], (two_digits b Hb) as [Hb1 Hb0].
  unfold pad2. cbn [append String.compare].
  rewrite !compare_digit_char by assumption.
  destruct (Z.compare_spec (a / 10) (b / 10)) as [E1 | L1 | G1];
    [destruct (Z.compare_spec (a mod 10) (b mod 10)) as [E0 | L0 | G0]| |];
    destruct (Z.compare_spec a b) as [E | L | G]; try reflexivity;
    exfalso; Z.div_mod_to_equations; lia.
Qed.

Lemma split_dot_head_pad2 (v : Z) (rest : string) :
  0 <= v <= 99 ->
  split_dot_head (pad2 v ++ rest) = (pad2 v ++ split_dot_head rest)%string.
Proof.
  intros Hv. destruct (two_digits v Hv) as [H1 H0].
  unfold pad2. cbn [append split_dot_head].
  destruct (dig_digit_char _ H1) as [_ [_ ->]], (dig_digit_char _ H0) as [_ [_ ->]].
  reflexivity.
Qed.

Lemma valid_fields_ranges (y m d hh mm ss : Z) :
  valid_fields y m d hh mm ss = true ->
  1 <= y <= 9999 /\ 1 <= m <= 12 /\ 1 <= d <= days_in_month y m
  /\ 0 <= hh <= 23 /\ 0 <= mm <= 59 /\ 0 <= ss <= 59.
Proof.
  unfold valid_fields. rewrite !andb_true_iff, !Z.leb_le. tauto.
Qed.

Lemma month_cases (m : Z) :
  1 <= m <= 12 ->
  m = 1 \/ m = 2 \/ m = 3 \/ m = 4 \/ m = 5 \/ m = 6 \/ m = 7 \/ m = 8 \/ m = 9
  \/ m = 10 \/ m = 11 \/ m = 12.
Proof. lia. Qed.

Ltac each_month m H :=
  destruct (month_cases m H)
    as [-> | [-> | [-> | [-> | [-> | [-> | [-> | [-> | [-> | [-> | [-> | ->]]]]]]]]]]].

Lemma days_in_month_le_31 (y m : Z) : 1 <= m <= 12 -> 28 <= days_in_month y m <= 31.
Proof.
  intros H. unfold days_in_month.
  each_month m H; destruct (is_leap y); vm_compute; split; discriminate.
Qed.

(** Every value of a range, one after the other. *)
Lemma Z_range_ind (P : Z -> Prop) (lo : Z) (n : nat) :
  (forall k, (k < n)%nat -> P (lo + Z.of_nat k)) ->
  forall v, lo <= v < lo + Z.of_nat n -> P v.
Proof.
  intros H v Hv. replace v with (lo + Z.of_nat (Z.to_nat (v - lo))) by lia.
  apply H. lia.
Qed.

Ltac each_value lo n :=
  apply (Z_range_ind _ lo n);
  [ let k := fresh "k" in
    let Hk := fresh "Hk" in
    intros k Hk;
    repeat (destruct k as [|k]; [reflexivity | try (exfalso; lia)])
  | lia ].

(** The first match of each group on the zero-padded text of a value. *)
Lemma first_match_m (v : Z) (rest : string) :
  1 <= v <= 12 -> hd_error (group_matches re_m (pad2 v ++ rest)) = Some (v, rest).
Proof. intros H. pattern v. each_value 1 12%nat. Qed.

Lemma first_match_d (v : Z) (rest : string) :
  1 <= v <= 31 -> hd_error (group_matches re_d (pad2 v ++ rest)) = Some (v, rest).
Proof. intros H. pattern v. each_value 1 31%nat. Qed.

Lemma first_match_H (v : Z) (rest : string) :
  0 <= v <= 23 -> hd_error (group_matches re_H (pad2 v ++ rest)) = Some (v, rest).
Proof. intros H. pattern v. each_value 0 24%nat. Qed.

Lemma first_match_M (v : Z) (rest : string) :
  0 <= v <= 59 -> hd_error (group_matches re_M (pad2 v ++ rest)) = Some (v, rest).
Proof. intros H. pattern v. each_value 0 60%nat. Qed.

Lemma first_match_S (v : Z) (rest : string) :
  0 <= v <= 59 -> hd_error (group_matches re_S (pad2 v ++ rest)) = Some (v, rest).
Proof. intros H. pattern v. each_value 0 60%nat. Qed.

Lemma first_match_T (rest : string) :
  hd_error (group_matches re_T (String "T" rest)) = Some (0, rest).
Proof. reflexivity. Qed.

Lemma first_match_Y (v : Z) (rest : string) :
  0 <= v <= 9999 -> hd_error (group_matches re_Y (pad4 v ++ rest)) = Some (v, rest).
Proof.
  intros H. unfold pad4, pad2, re_Y, group_matches.
  assert (H1 : 0 <= v / 100 <= 99) by (Z.div_mod_to_equations; lia).
  assert (H0 : 0 <= v mod 100 <= 99) by (Z.div_mod_to_equations; lia).
  destruct (two_digits _ H1) as [Ha Hb], (two_digits _ H0) as [Hc Hd].
  destruct (dig_digit_char _ Ha) as [Da [Va _]], (dig_digit_char _ Hb) as [Db [Vb _]],
    (dig_digit_char _ Hc) as [Dc [Vc _]], (dig_digit_char _ Hd) as [Dd [Vd _]].
  cbn [append flat_map match_classes].
  rewrite Da, Db, Dc, Dd. cbn [app hd_error int_of_text].
  rewrite Da, Db, Dc, Dd, Va, Vb, Vc, Vd.
  do 2 f_equal. Z.div_mod_to_equations; lia.
Qed.

Lemma hd_error_flat_map {A B : Type} (f : A -> list B) (l : list A) (a : A) (r : B) :
  hd_error l = Some a -> hd_error (f a) = Some r -> hd_error (flat_map f l) = Some r.
Proof.
  destruct l as [|x l]; cbn; [discriminate|]. intros [= ->] H.
  destruct (f a) as [|y fa]; cbn in *; [discriminate | exact H].
Qed.

Lemma hd_error_map {A B : Type} (f : A -> B) (l : list A) (a : A) :
  hd_error l = Some a -> hd_error (map f l) = Some (f a).
Proof. destruct l; cbn; [discriminate | now intros [= ->]]. Qed.

(** The first match of the whole format on a fixed-width text. *)
Lemma format_matches_api_time_text (y m d hh mm ss : Z) :
  valid_fields y m d hh mm ss = true ->
  hd_error (format_matches (api_time_text y m d hh mm ss))
  = Some (y, m, d, hh, mm, ss, EmptyString).
Proof.
  intros Hv. apply valid_fields_ranges in Hv.
  destruct Hv as [Hy [Hm [Hd [Hh [Hmi Hs]]]]].
  pose proof (days_in_month_le_31 y m Hm) as Hdim.
  unfold format_matches, api_time_text.
  eapply hd_error_flat_map; [apply first_match_Y; lia|].
  eapply hd_error_flat_map; [apply first_match_m; lia|].
  eapply hd_error_flat_map; [apply first_match_d; lia|].
  eapply hd_error_flat_map; [apply first_match_T|].
  eapply hd_error_flat_map; [apply first_match_H; lia|].
  eapply hd_error_flat_map; [apply first_match_M; lia|].
  rewrite <- (string_app_nil_r (pad2 ss)).
  rewrite (hd_error_map _ _ _ (first_match_S ss EmptyString Hs)). reflexivity.
Qed.

(** Reading back the text of a date and time gives that date and time. *)
Lemma strptime_api_time_text (y m d hh mm ss : Z) :
  valid_fields y m d hh mm ss = true ->
  strptime (api_time_text y m d hh mm ss) = Some (mk_datetime y m d hh mm ss 0).
Proof.
  intros Hv. unfold strptime.
  pose proof (format_matches_api_time_text y m d hh mm ss Hv) as H.
  destruct (format_matches _) as [|x l]; cbn in H; [discriminate|].
  injection H as ->. now rewrite Hv.
Qed.

Lemma split_dot_head_api_time_text (y m d hh mm ss : Z) (frac : string) :
  valid_fields y m d hh mm ss = true ->
  frac = EmptyString \/ (exists r, frac = String "." r) ->
  split_dot_head (api_time_text y m d hh mm ss ++ frac) = api_time_text y m d hh mm ss.
Proof.
  intros Hv Hf. apply valid_fields_ranges in Hv.
  destruct Hv as [Hy [Hm [Hd [Hh [Hmi Hs]]]]].
  pose proof (days_in_month_le_31 y m Hm) as Hdim.
  assert (H1 : 0 <= y / 100 <= 99) by (Z.div_mod_to_equations; lia).
  assert (H0 : 0 <= y mod 100 <= 99) by (Z.div_mod_to_equations; lia).
  unfold api_time_text, pad4. rewrite !string_app_assoc.
  rewrite !split_dot_head_pad2 by lia.
  cbn [append split_dot_head Ascii.eqb Bool.eqb].
  rewrite !split_dot_head_pad2 by lia.
  assert (E : split_dot_head frac = EmptyString)
    by (destruct Hf as [-> | [r ->]]; reflexivity).
  rewrite E. reflexivity.
Qed.

(** The time of a well-formed text does not depend on the clock. *)
Lemma well_formed_time_parses (s : string) :
  well_formed_time s ->
  exists y m d hh mm ss,
    valid_fields y m d hh mm ss = true
    /\ strptime (split_dot_head s) = Some (mk_datetime y m d hh mm ss 0)
    /\ exists frac, s = (api_time_text y m d hh mm ss ++ frac)%string.
Proof.
  intros [y [m [d [hh [mm [ss [frac [Hv [-> Hf]]]]]]]]].
  exists y, m, d, hh, mm, ss. split; [exact Hv|]. split; [|now exists frac].
  rewrite split_dot_head_api_time_text by assumption.
  now apply strptime_api_time_text.
Qed.

(** The calendar: later dates have later ordinals. *)

Lemma days_before_year_next (y : Z) :
  days_before_year (y + 1) = days_before_year y + 365 + (if is_leap y then 1 else 0).
Proof.
  unfold days_before_year, is_leap. cbv zeta.
  replace (y + 1 - 1) with y by lia.
  destruct (Z.eqb_spec (y mod 4) 0), (Z.eqb_spec (y mod 100) 0),
    (Z.eqb_spec (y mod 400) 0); cbn; Z.div_mod_to_equations; lia.
Qed.

Lemma days_before_year_mono (y1 y2 : Z) :
  y1 <= y2 -> days_before_year y1 <= days_before_year y2.
Proof. intros H. unfold days_before_year. cbv zeta. Z.div_mod_to_equations. lia. Qed.

(** The two month tables, for a leap year ([leap = true]) or not. *)
Lemma month_tables (leap : bool) (m : Z) :
  1 <= m <= 12 ->
  0 <= nth (Z.to_nat m) DAYS_BEFORE_MONTH 0 + (if (2 <? m) && leap then 1 else 0)
  /\ nth (Z.to_nat m) DAYS_BEFORE_MONTH 0 + (if (2 <? m) && leap then 1 else 0)
     + (if (m =? 2) && leap then 29 else nth (Z.to_nat m) DAYS_IN_MONTH 0)
     <= 365 + (if leap then 1 else 0).
Proof.
  intros Hm. destruct leap; each_month m Hm; vm_compute; split; discriminate.
Qed.

Lemma month_tables_next (leap : bool) (m1 m2 : Z) :
  1 <= m1 -> m1 < m2 -> m2 <= 12 ->
  nth (Z.to_nat m1) DAYS_BEFORE_MONTH 0 + (if (2 <? m1) && leap then 1 else 0)
  + (if (m1 =? 2) && leap then 29 else nth (Z.to_nat m1) DAYS_IN_MONTH 0)
  <= nth (Z.to_nat m2) DAYS_BEFORE_MONTH 0 + (if (2 <? m2) && leap then 1 else 0).
Proof.
  intros H1 H12 H2.
  assert (Hm1 : 1 <= m1 <= 12) by lia. assert (Hm2 : 1 <= m2 <= 12) by lia.
  destruct leap; each_month m1 Hm1; each_month m2 Hm2; try lia;
    vm_compute; discriminate.
Qed.

Lemma days_within_year (y m d : Z) :
  1 <= m <= 12 -> 1 <= d <= days_in_month y m ->
  1 <= days_before_month y m + d <= 365 + (if is_leap y then 1 else 0).
Proof.
  intros Hm. unfold days_before_month, days_in_month.
  pose proof (month_tables (is_leap y) m Hm). lia.
Qed.

Lemma days_before_month_next (y m1 m2 : Z) :
  1 <= m1 -> m1 < m2 -> m2 <= 12 ->
  days_before_month y m1 + days_in_month y m1 <= days_before_month y m2.
Proof.
  intros H1 H12 H2. unfold days_before_month, days_in_month.
  apply month_tables_next; assumption.
Qed.

Lemma ymd2ord_lt (y1 m1 d1 y2 m2 d2 : Z) :
  1 <= m1 <= 12 -> 1 <= d1 <= days_in_month y1 m1 ->
  1 <= m2 <= 12 -> 1 <= d2 <= days_in_month y2 m2 ->
  y1 < y2 \/ (y1 = y2 /\ (m1 < m2 \/ (m1 = m2 /\ d1 < d2))) ->
  ymd2ord y1 m1 d1 < ymd2ord y2 m2 d2.
Proof.
  intros Hm1 Hd1 Hm2 Hd2 H. unfold ymd2ord.
  pose proof (days_within_year y1 m1 d1 Hm1 Hd1) as W1.
  pose proof (days_within_year y2 m2 d2 Hm2 Hd2) as W2.
  destruct H as [Hy | [-> [Hm | [-> Hd]]]].
  - pose proof (days_before_year_next y1) as N.
    pose proof (days_before_year_mono (y1 + 1) y2 ltac:(lia)) as M. lia.
  - pose proof (days_before_month_next y2 m1 m2 ltac:(lia) Hm ltac:(lia)). lia.
  - lia.
Qed.

(** Later fields, in the order year, month, day, hour, minute, second, make
    a later [datetime]. *)
Lemma mk_datetime_le (y1 m1 d1 hh1 mm1 ss1 y2 m2 d2 hh2 mm2 ss2 : Z) :
  valid_fields y1 m1 d1 hh1 mm1 ss1 = true ->
  valid_fields y2 m2 d2 hh2 mm2 ss2 = true ->
  y1 < y2 \/ (y1 = y2 /\ (m1 < m2 \/ (m1 = m2 /\ (d1 < d2 \/ (d1 = d2 /\
    (hh1 < hh2 \/ (hh1 = hh2 /\ (mm1 < mm2 \/ (mm1 = mm2 /\ ss1 <= ss2))))))))) ->
  mk_datetime y1 m1 d1 hh1 mm1 ss1 0 <= mk_datetime y2 m2 d2 hh2 mm2 ss2 0.
Proof.
  intros V1 V2 H.
  apply valid_fields_ranges in V1. destruct V1 as [Hy1 [Hm1 [Hd1 [Hh1 [Hmi1 Hs1]]]]].
  apply valid_fields_ranges in V2. destruct V2 as [Hy2 [Hm2 [Hd2 [Hh2 [Hmi2 Hs2]]]]].
  unfold mk_datetime, US_PER_SECOND.
  assert (D : ymd2ord y1 m1 d1 < ymd2ord y2 m2 d2
              \/ (ymd2ord y1 m1 d1 = ymd2ord y2 m2 d2
                  /\ (hh1 < hh2 \/ (hh1 = hh2 /\ (mm1 < mm2 \/ (mm1 = mm2 /\ ss1 <= ss2)))))).
  { destruct H as [Hy | [-> [Hm | [-> [Hd | [-> Ht]]]]]].
    - left. apply ymd2ord_lt; auto.
    - left. apply ymd2ord_lt; auto.
    - left. apply ymd2ord_lt; auto.
    - right. split; [reflexivity | exact Ht]. }
  lia.
Qed.

(** The order of two fixed-width texts is the order of their fields. *)
Lemma api_time_text_leb (y1 m1 d1 hh1 mm1 ss1 y2 m2 d2 hh2 mm2 ss2 : Z) (f1 f2 : string) :
  valid_fields y1 m1 d1 hh1 mm1 ss1 = true ->
  valid_fields y2 m2 d2 hh2 mm2 ss2 = true ->
  String.leb (api_time_text y1 m1 d1 hh1 mm1 ss1 ++ f1)
             (api_time_text y2 m2 d2 hh2 mm2 ss2 ++ f2) = true ->
  y1 < y2 \/ (y1 = y2 /\ (m1 < m2 \/ (m1 = m2 /\ (d1 < d2 \/ (d1 = d2 /\
    (hh1 < hh2 \/ (hh1 = hh2 /\ (mm1 < mm2 \/ (mm1 = mm2 /\ ss1 <= ss2))))))))).
Proof.
  intros V1 V2.
  apply valid_fields_ranges in V1. destruct V1 as [Hy1 [Hm1 [Hd1 [Hh1 [Hmi1 Hs1]]]]].
  apply valid_fields_ranges in V2. destruct V2 as [Hy2 [Hm2 [Hd2 [Hh2 [Hmi2 Hs2]]]]].
  pose proof (days_in_month_le_31 y1 m1 Hm1) as Hdim1.
  pose proof (days_in_month_le_31 y2 m2 Hm2) as Hdim2.
  assert (A1 : 0 <= y1 / 100 <= 99) by (Z.div_mod_to_equations; lia).
  assert (B1 : 0 <= y1 mod 100 <= 99) by (Z.div_mod_to_equations; lia).
  assert (A2 : 0 <= y2 / 100 <= 99) by (Z.div_mod_to_equations; lia).
  assert (B2 : 0 <= y2 mod 100 <= 99) by (Z.div_mod_to_equations; lia).
  unfold String.leb, api_time_text, pad4. rewrite !string_app_assoc.
  rewrite !compare_pad2 by lia.
  cbn [append String.compare].
  replace (Ascii.compare "T" "T") with Eq by reflexivity.
  rewrite !compare_pad2 by lia.
  destruct (Z.compare_spec (y1 / 100) (y2 / 100));
    [|intros _; left; Z.div_mod_to_equations; lia | discriminate].
  destruct (Z.compare_spec (y1 mod 100) (y2 mod 100));
    [|intros _; left; Z.div_mod_to_equations; lia | discriminate].
  assert (y1 = y2) by (Z.div_mod_to_equations; lia).
  destruct (Z.compare_spec m1 m2); [|intros _; lia | discriminate].
  destruct (Z.compare_spec d1 d2); [|intros _; lia | discriminate].
  destruct (Z.compare_spec hh1 hh2); [|intros _; lia | discriminate].
  destruct (Z.compare_spec mm1 mm2); [|intros _; lia | discriminate].
  destruct (Z.compare_spec ss1 ss2); [intros _; lia | intros _; lia | discriminate].
Qed.

(** For well-formed battle times the order of the texts is the order of the
    times they parse to. *)
Lemma well_formed_time_mono (s1 s2 : string) (t1 t2 : datetime) :
  well_formed_time s1 -> well_formed_time s2 ->
  String.leb s1 s2 = true ->
  strptime (split_dot_head s1) = Some t1 ->
  strptime (split_dot_head s2) = Some t2 ->
  t1 <= t2.
Proof.
  intros [y1 [m1 [d1 [hh1 [mm1 [ss1 [f1 [V1 [-> F1]]]]]]]]]
         [y2 [m2 [d2 [hh2 [mm2 [ss2 [f2 [V2 [-> F2]]]]]]]]] Hle.
  rewrite !split_dot_head_api_time_text, !strptime_api_time_text by assumption.
  intros [= <-] [= <-].
  apply mk_datetime_le; try assumption.
  now apply (api_time_text_leb _ _ _ _ _ _ _ _ _ _ _ _ f1 f2).
Qed.

(* ================================================================== *)
(** ** The sessions of the segmenter are runs of the sorted event battles *)
(* ================================================================== *)

Lemma segment_app_r {A : Type} (s l x : list A) : segment s l -> segment s (l ++ x).
Proof.
  intros [pre [post ->]]. exists pre, (post ++ x). now rewrite <- !app_assoc.
Qed.

Lemma segment_suffix {A : Type} (pre s : list A) : segment s (pre ++ s).
Proof. exists pre, []. now rewrite app_nil_r. Qed.

Lemma segment_Forall {A : Type} (P : A -> Prop) (s l : list A) :
  segment s l -> Forall P l -> Forall P s.
Proof.
  intros [pre [post ->]] H. apply Forall_app in H. destruct H as [_ H].
  apply Forall_app in H. tauto.
Qed.

Lemma Sorted_app_r {A : Type} (R : A -> A -> Prop) (a b : list A) :
  Sorted R (a ++ b) -> Sorted R b.
Proof.
  induction a as [|x a IH]; cbn; intros H; [exact H|].
  apply IH. now inversion H.
Qed.

Lemma Sorted_app_l {A : Type} (R : A -> A -> Prop) (a b : list A) :
  Sorted R (a ++ b) -> Sorted R a.
Proof.
  induction a as [|x a IH]; cbn; intros H; [constructor|].
  inversion H as [|? ? Hs Hh]; subst. constructor; [now apply IH|].
  destruct a as [|y a]; constructor. cbn in Hh. now inversion Hh.
Qed.

Lemma segment_Sorted {A : Type} (R : A -> A -> Prop) (s l : list A) :
  segment s l -> Sorted R l -> Sorted R s.
Proof.
  intros [pre [post ->]] H. apply Sorted_app_r in H. now apply Sorted_app_l in H.
Qed.

(** The sessions after "Save previous event if exists". *)
Lemma save_current_In (clk : nat -> datetime) (hash : list string -> Z)
    (st : GroupLoop.t) (n : nat) (event_id : string) (event_data : EventData.t)
    (battles : list Json.battle) :
  In (event_id, (event_data, battles)) (fst (save_current clk hash st n)) ->
  In (event_id, (event_data, battles)) (GroupLoop.event_groups st)
  \/ battles = GroupLoop.current_battles st.
Proof.
  unfold save_current, bind, ret.
  destruct (GroupLoop.current_event st) as [ev|]; [|now left].
  destruct (GroupLoop.current_battles st) as [|first rest]; [now left|].
  destruct (_generate_event_id clk hash ev first n) as [k n']. cbn [fst].
  intros H. apply dict_set_In in H. destruct H as [[_ [= _ ->]] | H]; auto.
Qed.

Lemma group_step_invariant (clk : nat -> datetime) (hash : list string -> Z)
    (done : list Json.battle) (st : GroupLoop.t) (battle : Json.battle) (n : nat) :
  group_invariant done st ->
  group_invariant (done ++ [battle]) (fst (group_step clk hash st battle n)).
Proof.
  intros [[pre Hpre] Hgroups]. unfold group_step, bind, ret.
  destruct (_parse_battle_time clk _ n) as [t n1].
  destruct (_is_new_event battle _ t _).
  - pose proof (save_current_In clk hash st n1) as Hsave.
    destruct (save_current clk hash st n1) as [groups n2]. cbn [fst] in *.
    split; cbn [GroupLoop.current_battles GroupLoop.event_groups].
    + now exists done.
    + intros k ev bs Hin. apply segment_app_r.
      destruct (Hsave k ev bs Hin) as [H | ->].
      * now apply (Hgroups k ev).
      * rewrite Hpre. apply segment_suffix.
  - cbn [fst]. split; cbn [GroupLoop.current_battles GroupLoop.event_groups].
    + exists pre. now rewrite Hpre, app_assoc.
    + intros k ev bs Hin. apply segment_app_r. now apply (Hgroups k ev).
Qed.

Lemma group_loop_invariant (clk : nat -> datetime) (hash : list string -> Z)
    (todo done : list Json.battle) (st : GroupLoop.t) (n : nat) :
  group_invariant done st ->
  group_invariant (done ++ todo) (fst (foldM (group_step clk hash) todo st n)).
Proof.
  revert done st n. induction todo as [|b todo IH]; intros done st n H; cbn.
  - now rewrite app_nil_r.
  - unfold bind. pose proof (group_step_invariant clk hash done st b n H) as H1.
    destruct (group_step clk hash st b n) as [st1 n1]. cbn [fst] in H1.
    replace (done ++ b :: todo) with ((done ++ [b]) ++ todo)
      by (now rewrite <- app_assoc).
    now apply IH.
Qed.

(** Every session of the result is a run of consecutive battles of the
    event battles sorted by [battleTime]. *)
Lemma group_battles_segments (clk : nat -> datetime) (hash : list string -> Z)
    (battle_logs : list Json.battle) (n : nat) (event_id : string)
    (event_data : EventData.t) (battles : list Json.battle) :
  In (event_id, (event_data, battles))
     (fst (_group_battles_by_event clk hash battle_logs n)) ->
  segment battles (sorted_battles battle_logs).
Proof.
  unfold _group_battles_by_event, bind.
  pose proof (group_loop_invariant clk hash (sorted_battles battle_logs) []
                GroupLoop.init n) as H.
  destruct (foldM (group_step clk hash) (sorted_battles battle_logs) GroupLoop.init n)
    as [st n1].
  cbn [fst app] in H. destruct H as [[pre Hpre] Hgroups].
  { split; [now exists [] | intros k ev bs []]. }
  intros Hin. apply save_current_In in Hin. destruct Hin as [Hin | ->].
  - now apply (Hgroups event_id event_data).
  - rewrite Hpre. apply segment_suffix.
Qed.

Lemma sorted_battles_event_battles (battle_logs : list Json.battle) :
  Forall (fun b => _is_event_battle b = true) (sorted_battles battle_logs).
Proof.
  unfold sorted_battles.
  eapply Permutation_Forall; [symmetry; apply sorted_perm|].
  apply Forall_forall. intros b Hb. now apply filter_In in Hb.
Qed.

Lemma sorted_battles_Sorted (battle_logs : list Json.battle) :
  Sorted (key_le String.leb battle_time_key) (sorted_battles battle_logs).
Proof. unfold sorted_battles. apply sorted_Sorted. apply String.leb_total. Qed.

(** The timestamps of battles whose times parse are their parsed times,
    whatever the clock shows. *)
Lemma timestamps_of_parsed (clk : nat -> datetime) (battles : list Json.battle) (n : nat) :
  Forall (fun b => well_formed_time (battle_time_key b)) battles ->
  fst (timestamps_of clk battles n) = map parsed_time battles.
Proof.
  unfold timestamps_of. intros H.
  enough (G : forall acc, fst (foldM (fun acc b =>
                t <- _parse_battle_time clk (battle_time_key b) ;; ret (acc ++ [t]))
              battles acc n) = acc ++ map parsed_time battles) by apply (G []).
  induction H as [|b bs Hb _ IH]; intros acc; cbn.
  - now rewrite app_nil_r.
  - unfold bind at 1 2. unfold ret at 1.
    destruct (well_formed_time_parses _ Hb) as [y [m [d [hh [mm [ss [_ [Hp _]]]]]]]].
    assert (E : parsed_time b = mk_datetime y m d hh mm ss 0)
      by (unfold parsed_time; now rewrite Hp).
    rewrite (parse_battle_time_parsed clk _ _ n Hp).
    rewrite IH, E, <- app_assoc. reflexivity.
Qed.

Lemma Sorted_map_mono {A B : Type} (R : A -> A -> Prop) (R' : B -> B -> Prop)
    (P : A -> Prop) (f : A -> B) (l : list A) :
  (forall a b, P a -> P b -> R a b -> R' (f a) (f b)) ->
  Forall P l -> Sorted R l -> Sorted R' (map f l).
Proof.
  intros Hf HP. induction 1 as [|x l Hl IH Hx]; cbn; [constructor|].
  inversion HP as [|? ? Px Pl]; subst. constructor; [now apply IH|].
  destruct Hx as [|y l Hxy]; cbn; constructor.
  inversion Pl; subst. now apply Hf.
Qed.

Lemma parsed_time_mono (a b : Json.battle) :
  well_formed_time (battle_time_key a) -> well_formed_time (battle_time_key b) ->
  key_le String.leb battle_time_key a b -> parsed_time a <= parsed_time b.
Proof.
  intros Ha Hb Hab. unfold parsed_time.
  destruct (well_formed_time_parses _ Ha) as [y [m [d [hh [mm [ss [_ [Pa _]]]]]]]].
  destruct (well_formed_time_parses _ Hb) as [y' [m' [d' [hh' [mm' [ss' [_ [Pb _]]]]]]]].
  rewrite Pa, Pb. cbn [get_default].
  exact (well_formed_time_mono _ _ _ _ Ha Hb Hab Pa Pb).
Qed.




(* ================================================================== *)
(** ** Further properties: decks as multisets of card names *)
(* ================================================================== *)

Lemma string_compare_trans (s1 s2 s3 : string) :
  String.compare s1 s2 <> Gt -> String.compare s2 s3 <> Gt -> String.compare s1 s3 <> Gt.
Proof.
  revert s2 s3. induction s1 as [|a r1 IH]; intros [|b r2] [|c r3]; cbn; try easy.
  unfold Ascii.compare.
  destruct (N.compare_spec (N_of_ascii a) (N_of_ascii b)) as [E1 | L1 | G1];
    destruct (N.compare_spec (N_of_ascii b) (N_of_ascii c)) as [E2 | L2 | G2];
    destruct (N.compare_spec (N_of_ascii a) (N_of_ascii c)) as [E3 | L3 | G3];
    try easy; try lia.
  apply IH.
Qed.

Lemma string_leb_trans (s1 s2 s3 : string) :
  String.leb s1 s2 = true -> String.leb s2 s3 = true -> String.leb s1 s3 = true.
Proof.
  unfold String.leb. intros H12 H23.
  pose proof (string_compare_trans s1 s2 s3) as T.
  destruct (String.compare s1 s2), (String.compare s2 s3), (String.compare s1 s3);
    try reflexivity; try discriminate; exfalso; apply T; congruence.
Qed.

Lemma sorted_str_StronglySorted (l : list string) :
  StronglySorted (fun a b => String.leb a b = true) (sorted_str l).
Proof.
  apply Sorted_StronglySorted.
  - intros a b c. apply string_leb_trans.
  - apply (sorted_Sorted String.leb (fun s : string => s)). apply String.leb_total.
Qed.

(** Two sorted lists with the same elements are the same list. *)
Lemma StronglySorted_perm_eq {A : Type} (R : A -> A -> Prop) (l1 l2 : list A) :
  (forall a b, R a b -> R b a -> a = b) ->
  StronglySorted R l1 -> StronglySorted R l2 -> Permutation l1 l2 -> l1 = l2.
Proof.
  intros Hanti H1. revert l2. induction H1 as [|x l1 Hs1 IH Hx]; intros l2 H2 Hp.
  - apply Permutation_nil in Hp. now subst.
  - destruct H2 as [|y l2 Hs2 Hy].
    + symmetry in Hp. now apply Permutation_nil in Hp.
    + assert (Exy : x = y).
      { assert (Hin1 : In x (y :: l2)) by (eapply Permutation_in; [exact Hp | now left]).
        assert (Hin2 : In y (x :: l1))
          by (eapply Permutation_in; [symmetry; exact Hp | now left]).
        destruct Hin1 as [-> | Hin1]; [reflexivity|].
        destruct Hin2 as [-> | Hin2]; [reflexivity|].
        rewrite Forall_forall in Hx, Hy. apply Hanti; auto. }
      subst y. f_equal. apply IH; [exact Hs2|].
      now apply Permutation_cons_inv in Hp.
Qed.

Lemma sorted_str_perm (l1 l2 : list string) :
  Permutation l1 l2 -> sorted_str l1 = sorted_str l2.
Proof.
  intros Hp.
  apply (StronglySorted_perm_eq (fun a b => String.leb a b = true)).
  - intros a b. apply String.leb_antisym.
  - apply sorted_str_StronglySorted.
  - apply sorted_str_StronglySorted.
  - unfold sorted_str. rewrite !sorted_perm. exact Hp.
Qed.

Lemma list_str_eqb_eq (l1 l2 : list string) : list_str_eqb l1 l2 = true <-> l1 = l2.
Proof.
  revert l2. induction l1 as [|x l1 IH]; intros [|y l2]; cbn; try easy.
  rewrite andb_true_iff, String.eqb_eq, IH. split; [intros [-> ->] | intros [= -> ->]]; auto.
Qed.

(** X1: two decks are "the same deck" exactly when they hold the same card
    names with the same multiplicities, in any order. *)
Theorem X1_same_deck_iff_same_cards_in_any_order (deck1 deck2 : list string) :
  _is_same_deck_different_levels deck1 deck2 = true <-> Permutation deck1 deck2.
Proof.
  unfold _is_same_deck_different_levels. split.
  - destruct (Nat.eqb _ _); cbn; [|discriminate].
    intros H. apply list_str_eqb_eq in H. unfold sorted_str in H.
    rewrite <- (sorted_perm String.leb (fun s : string => s) deck1).
    rewrite <- (sorted_perm String.leb (fun s : string => s) deck2).
    now rewrite H.
  - intros Hp. rewrite (Permutation_length Hp), Nat.eqb_refl. cbn.
    apply list_str_eqb_eq. now apply sorted_str_perm.
Qed.

(** X2: the deck read from a battle holds the card names of the first player
    of the team, each as often as the roster holds it, whatever the slots
    say about their order; a battle without a team gives the empty deck. *)
Theorem X2_extracted_deck_is_the_roster_of_the_first_player (battle : Json.battle) :
  match get_default [] (Json.team battle) with
  | [] => _extract_deck_from_battle battle = []
  | player :: _ =>
      Permutation (_extract_deck_from_battle battle)
        (map (fun c => get_default "" (Json.name c)) (get_default [] (Json.cards player)))
  end.
Proof.
  unfold _extract_deck_from_battle.
  destruct (get_default [] (Json.team battle)) as [|player rest]; [reflexivity|].
  destruct (forallb _ _); [|reflexivity].
  apply Permutation_map. apply sorted_perm.
Qed.

(* ================================================================== *)
(** ** Further properties: the event type read from the mode name *)
(* ================================================================== *)

Lemma prefix_app (needle hay : string) :
  String.prefix needle hay = true <-> exists post, hay = (needle ++ post)%string.
Proof.
  revert hay. induction needle as [|a n IH]; intros hay.
  - destruct hay; cbn; split; eauto.
  - destruct hay as [|b h]; cbn.
    + split; [discriminate | intros [post H]; discriminate].
    + destruct (Ascii.ascii_dec a b) as [-> | Hab].
      * rewrite IH. split; intros [post H]; exists post; congruence.
      * split; [discriminate | intros [post [= H _]]; congruence].
Qed.

Lemma contains_app (needle hay : string) :
  contains needle hay = true
  <-> exists pre post, hay = (pre ++ needle ++ post)%string.
Proof.
  induction hay as [|c h IH].
  - cbn [contains]. rewrite orb_false_r, prefix_app. split.
    + intros [post H]. now exists EmptyString, post.
    + intros [[|x pre] [post H]]; [now exists post | discriminate].
  - cbn [contains]. rewrite orb_true_iff, prefix_app, IH. split.
    + intros [[post H] | [pre [post H]]].
      * now exists EmptyString, post.
      * exists (String c pre), post. cbn. now rewrite H.
    + intros [[|x pre] [post H]].
      * left. now exists post.
      * right. cbn in H. injection H as _ H. now exists pre, post.
Qed.

(** A text that contains a phrase contains every ending of the phrase. *)
Lemma contains_ending (start ending hay : string) :
  contains (start ++ ending) hay = true -> contains ending hay = true.
Proof.
  rewrite !contains_app. intros [pre [post H]].
  exists (pre ++ start)%string, post. now rewrite H, !string_app_assoc.
Qed.

Lemma not_contains_ending (start ending hay : string) :
  contains ending hay = false -> contains (start ++ ending) hay = false.
Proof.
  intros H. destruct (contains (start ++ ending) hay) eqn:E; [|reflexivity].
  apply contains_ending in E. congruence.
Qed.

(** X3: whatever the mode name, the event type read from a battle is never
    [grand_challenge], [classic_challenge] or [draft_challenge]: a mode name
    that contains one of these phrases contains "challenge", which the table
    lists first, and the type is [challenge]. *)
Theorem X3_event_type_is_never_a_specific_challenge (battle : Json.battle) :
  let event_type := EventData.event_type (_extract_event_data battle) in
  (contains "challenge" (lower (mode_name_of battle)) = true -> event_type = CHALLENGE)
  /\ event_type <> GRAND_CHALLENGE
  /\ event_type <> CLASSIC_CHALLENGE
  /\ event_type <> DRAFT_CHALLENGE.
Proof.
  cbv zeta. unfold _extract_event_data. cbn [EventData.event_type].
  set (m := lower (mode_name_of battle)).
  unfold EVENT_BATTLE_MODES. cbn [first_match].
  change (lower "Challenge") with "challenge".
  change (lower "Grand Challenge") with ("grand " ++ "challenge")%string.
  change (lower "Classic Challenge") with ("classic " ++ "challenge")%string.
  change (lower "Draft Challenge") with ("draft " ++ "challenge")%string.
  destruct (contains "challenge" m) eqn:E; cbn [get_default].
  - repeat split; discriminate.
  - rewrite (not_contains_ending "grand " _ _ E),
      (not_contains_ending "classic " _ _ E), (not_contains_ending "draft " _ _ E).
    repeat match goal with
           | |- context [if ?c then _ else _] => destruct c
           end; cbn; repeat split; discriminate.
Qed.

(* ================================================================== *)
(** ** Further properties of the session segmenter *)
(* ================================================================== *)

Lemma dict_set_In_self {V : Type} (k : string) (v : V) (d : dict V) :
  In (k, v) (dict_set k v d).
Proof.
  induction d as [|[k0 v0] r IH]; cbn.
  - now left.
  - destruct (String.eqb_spec k0 k) as [-> | E]; [now left | now right].
Qed.

Lemma save_current_well_formed (clk : nat -> datetime) (hash : list string -> Z)
    (st : GroupLoop.t) (n : nat) :
  sessions_well_formed (GroupLoop.event_groups st) ->
  open_session_well_formed st ->
  sessions_well_formed (fst (save_current clk hash st n)).
Proof.
  intros [Hnd Hgroups] Hopen. unfold save_current, bind, ret.
  unfold open_session_well_formed in Hopen.
  destruct (GroupLoop.current_event st) as [ev|]; [|now split].
  destruct Hopen as [first [rest [Hb ->]]]. rewrite Hb.
  destruct (_generate_event_id clk hash _ first n) as [k n']. cbn [fst].
  split.
  - now apply dict_set_NoDup.
  - intros k' ev bs Hin. apply dict_set_In in Hin.
    destruct Hin as [[_ [= -> ->]] | Hin]; [now exists first, rest|].
    now apply (Hgroups k').
Qed.

(** One turn of the loop keeps the sessions well formed, and leaves an open
    session that ends with the battle of this turn. *)
Lemma group_step_well_formed (clk : nat -> datetime) (hash : list string -> Z)
    (st : GroupLoop.t) (battle : Json.battle) (n : nat) :
  sessions_well_formed (GroupLoop.event_groups st) ->
  open_session_well_formed st ->
  let st' := fst (group_step clk hash st battle n) in
  sessions_well_formed (GroupLoop.event_groups st')
  /\ open_session_well_formed st'
  /\ GroupLoop.current_event st' <> None
  /\ exists pre, GroupLoop.current_battles st' = pre ++ [battle].
Proof.
  intros Hg Ho. cbv zeta. unfold group_step, bind, ret.
  destruct (_parse_battle_time clk _ n) as [t n1].
  destruct (_is_new_event battle _ t _) eqn:Enew.
  - pose proof (save_current_well_formed clk hash st n1 Hg Ho) as Hs.
    destruct (save_current clk hash st n1) as [groups n2]. cbn [fst] in *.
    cbn [GroupLoop.event_groups GroupLoop.current_event GroupLoop.current_battles].
    repeat split; try apply Hs; try discriminate.
    + unfold open_session_well_formed. cbn. now exists battle, [].
    + now exists [].
  - cbn [fst GroupLoop.event_groups GroupLoop.current_event GroupLoop.current_battles].
    unfold open_session_well_formed in *.
    cbn [GroupLoop.event_groups GroupLoop.current_event GroupLoop.current_battles].
    destruct (GroupLoop.current_event st) as [ev|].
    + destruct Ho as [first [rest [Hb ->]]]. rewrite Hb.
      repeat split; try apply Hg; try discriminate.
      * now exists first, (rest ++ [battle]).
      * now exists (first :: rest).
    + discriminate.
Qed.

Lemma foldM_snoc {A S : Type} (f : S -> A -> Clock S) (l : list A) (a : A) (s : S) (n : nat) :
  foldM f (l ++ [a]) s n
  = f (fst (foldM f l s n)) a (snd (foldM f l s n)).
Proof.
  revert s n. induction l as [|x l IH]; intros s n; cbn.
  - unfold bind, ret. now destruct (f s a n).
  - unfold bind. destruct (f s x n) as [s1 n1]. apply IH.
Qed.

Lemma group_loop_well_formed (clk : nat -> datetime) (hash : list string -> Z)
    (battles : list Json.battle) (st : GroupLoop.t) (n : nat) :
  sessions_well_formed (GroupLoop.event_groups st) ->
  open_session_well_formed st ->
  let st' := fst (foldM (group_step clk hash) battles st n) in
  sessions_well_formed (GroupLoop.event_groups st') /\ open_session_well_formed st'.
Proof.
  cbv zeta. revert st n. induction battles as [|b battles IH]; intros st n Hg Ho; cbn.
  - now split.
  - unfold bind.
    destruct (group_step_well_formed clk hash st b n Hg Ho) as [Hg1 [Ho1 _]].
    destruct (group_step clk hash st b n) as [st1 n1]. cbn [fst] in *. now apply IH.
Qed.

Lemma init_well_formed :
  sessions_well_formed (GroupLoop.event_groups GroupLoop.init)
  /\ open_session_well_formed GroupLoop.init.
Proof.
  split; [split; [constructor | intros k ev bs []] | now split].
Qed.

(** X4: in the result of the segmenter no two sessions share an identity,
    every session has at least one battle, and the event data of a session
    are those read from its first battle. *)
Theorem X4_sessions_are_not_empty_and_named_after_their_first_battle
    (clk : nat -> datetime) (hash : list string -> Z) (battle_logs : list Json.battle)
    (n : nat) :
  let groups := fst (_group_battles_by_event clk hash battle_logs n) in
  NoDup (dict_keys groups)
  /\ forall event_id event_data battles,
       In (event_id, (event_data, battles)) groups ->
       exists first rest,
         battles = first :: rest /\ event_data = _extract_event_data first.
Proof.
  cbv zeta. unfold _group_battles_by_event, bind.
  destruct init_well_formed as [Hg Ho].
  pose proof (group_loop_well_formed clk hash (sorted_battles battle_logs)
                GroupLoop.init n Hg Ho) as H.
  destruct (foldM _ _ _ _) as [st n1]. cbn [fst] in H. destruct H as [Hg1 Ho1].
  exact (save_current_well_formed clk hash st n1 Hg1 Ho1).
Qed.

(** After a non-empty list of battles the loop has an open session, which
    ends with the last battle. *)
Lemma group_loop_last (clk : nat -> datetime) (hash : list string -> Z)
    (battles : list Json.battle) (last : Json.battle) (n : nat) :
  let st := fst (foldM (group_step clk hash) (battles ++ [last]) GroupLoop.init n) in
  sessions_well_formed (GroupLoop.event_groups st)
  /\ open_session_well_formed st
  /\ GroupLoop.current_event st <> None
  /\ exists pre, GroupLoop.current_battles st = pre ++ [last].
Proof.
  cbv zeta. rewrite foldM_snoc.
  destruct init_well_formed as [Hg Ho].
  destruct (group_loop_well_formed clk hash battles GroupLoop.init n Hg Ho) as [Hg1 Ho1].
  now apply group_step_well_formed.
Qed.

Lemma save_current_keeps_open_session (clk : nat -> datetime) (hash : list string -> Z)
    (st : GroupLoop.t) (n : nat) :
  open_session_well_formed st ->
  GroupLoop.current_event st <> None ->
  exists event_id event_data,
    In (event_id, (event_data, GroupLoop.current_battles st))
       (fst (save_current clk hash st n)).
Proof.
  intros Ho Hsome. unfold save_current, bind, ret. unfold open_session_well_formed in Ho.
  destruct (GroupLoop.current_event st) as [ev|]; [|contradiction].
  destruct Ho as [first [rest [Hb _]]]. rewrite Hb.
  destruct (_generate_event_id clk hash ev first n) as [k n']. cbn [fst].
  exists k, ev. apply dict_set_In_self.
Qed.

Lemma sorted_battles_nil (battle_logs : list Json.battle) :
  sorted_battles battle_logs = [] <-> filter _is_event_battle battle_logs = [].
Proof.
  unfold sorted_battles. split; intros H.
  - apply Permutation_nil. rewrite <- H. apply sorted_perm.
  - now rewrite H.
Qed.

(** X5: the result of the segmenter is empty exactly when no battle of the
    log is an event battle. *)
Theorem X5_no_session_iff_no_event_battle
    (clk : nat -> datetime) (hash : list string -> Z) (battle_logs : list Json.battle)
    (n : nat) :
  fst (_group_battles_by_event clk hash battle_logs n) = []
  <-> filter _is_event_battle battle_logs = [].
Proof.
  rewrite <- sorted_battles_nil. unfold _group_battles_by_event, bind.
  destruct (sorted_battles battle_logs) as [|b l] eqn:E using rev_ind.
  - cbn. tauto.
  - clear IHl. split; [|intros H; now destruct l].
    pose proof (group_loop_last clk hash l b n) as [_ [Ho [Hsome _]]].
    destruct (foldM _ _ _ _) as [st n1]. cbn [fst] in *.
    destruct (save_current_keeps_open_session clk hash st n1 Ho Hsome) as [k [ev Hin]].
    intros H. rewrite H in Hin. destruct Hin.
Qed.

(** X6: the latest event battle (the last one in the order of [battleTime])
    is never lost: the result holds a session that ends with it. *)
Theorem X6_latest_event_battle_is_in_a_session
    (clk : nat -> datetime) (hash : list string -> Z) (battle_logs : list Json.battle)
    (n : nat) (earlier : list Json.battle) (latest : Json.battle)
    (Hlatest : sorted_battles battle_logs = earlier ++ [latest]) :
  exists event_id event_data battles pre,
    In (event_id, (event_data, battles))
       (fst (_group_battles_by_event clk hash battle_logs n))
    /\ battles = pre ++ [latest].
Proof.
  unfold _group_battles_by_event, bind. rewrite Hlatest.
  pose proof (group_loop_last clk hash earlier latest n) as [_ [Ho [Hsome [pre Hpre]]]].
  destruct (foldM _ _ _ _) as [st n1]. cbn [fst] in *.
  destruct (save_current_keeps_open_session clk hash st n1 Ho Hsome) as [k [ev Hin]].
  exists k, ev, (GroupLoop.current_battles st), pre. now split.
Qed.

Lemma X6_witness :
  exists event_id event_data battles pre,
    In (event_id, (event_data, battles))
       (fst (_group_battles_by_event sample_clock hash_of_first_run
               [battle_1100; battle_0900] 0%nat))
    /\ battles = pre ++ [battle_1100].
Proof.
  apply (X6_latest_event_battle_is_in_a_session sample_clock hash_of_first_run
           [battle_1100; battle_0900] 0%nat [battle_0900] battle_1100).
  reflexivity.
Defined.

Lemma EventType_eqb_eq (a b : EventType) : EventType_eqb a b = true <-> a = b.
Proof. destruct a, b; cbn; split; intros H; try reflexivity; discriminate. Qed.

(** X7: while a session is open, a battle continues it exactly when it comes
    at most an hour after the previous battle, has the event type of the
    session, and either has no team or has the card names of the session's
    deck (in any order); otherwise it starts a new session. *)
Theorem X7_battle_continues_the_session_iff_close_same_type_same_cards
    (battle : Json.battle) (current : EventData.t) (battle_time last_battle_time : datetime) :
  _is_new_event battle (Some current) battle_time (Some last_battle_time) = false
  <-> battle_time - last_battle_time <= US_PER_HOUR
      /\ EventData.event_type (_extract_event_data battle) = EventData.event_type current
      /\ (get_default [] (Json.team battle) = []
          \/ Permutation (EventData.deck_cards current) (_extract_deck_from_battle battle)).
Proof.
  unfold _is_new_event.
  destruct (Z.ltb_spec US_PER_HOUR (battle_time - last_battle_time)) as [Hgap | Hgap];
    [split; [discriminate | intros [H _]; lia]|].
  destruct (EventType_eqb _ _) eqn:Etype; cbn [negb].
  - apply EventType_eqb_eq in Etype.
    destruct (get_default [] (Json.team battle)) as [|p team] eqn:Eteam.
    + split; auto.
    + destruct (list_str_eqb _ _) eqn:Eeq; cbn [negb].
      * apply list_str_eqb_eq in Eeq. split; [|reflexivity].
        intros _. repeat split; auto. right. now rewrite Eeq.
      * assert (Hsame : forall d1 d2,
                   _is_same_deck_different_levels d1 d2 = true <-> Permutation d1 d2).
        { intros d1 d2. unfold _is_same_deck_different_levels. split.
          - destruct (Nat.eqb _ _); cbn; [|discriminate].
            intros H. apply list_str_eqb_eq in H. unfold sorted_str in H.
            rewrite <- (sorted_perm String.leb (fun s : string => s) d1).
            rewrite <- (sorted_perm String.leb (fun s : string => s) d2).
            now rewrite H.
          - intros Hp. rewrite (Permutation_length Hp), Nat.eqb_refl. cbn.
            apply list_str_eqb_eq. now apply sorted_str_perm. }
        rewrite negb_false_iff, Hsame.
        split; [intros H; auto | intros [_ [_ [H | H]]]; [discriminate | exact H]].
  - split; [discriminate|]. intros [_ [H _]]. apply EventType_eqb_eq in H. congruence.
Qed.



(* ================================================================== *)
(** ** Further properties: the session builder *)
(* ================================================================== *)

Lemma avg_elixir_in_range (total : Z) :
  Qle_bool 0 (inject_Z total / 8) && Qle_bool (inject_Z total / 8) 10 = true
  <-> 0 <= total <= 80.
Proof.
  rewrite andb_true_iff, !Qle_bool_iff.
  unfold Qle, Qdiv, Qmult, Qinv, inject_Z. cbn. lia.
Qed.

Lemma update_progress_session (clk : nat -> datetime) (self : EventDeck.t) (n : nat) :
  exists v,
    fst (_update_progress clk self n)
    = EventDeck.set_performance
        (EventPerformance.set_progress v (EventDeck.performance self)) self.
Proof.
  unfold _update_progress, progress_by_counters, bind, ret, now.
  destruct self as [? ? ? ? ? [e|] ? [? ? ? ? ? [m|] ? ? ?] ? ?];
    cbn [EventDeck.end_time EventDeck.performance EventPerformance.max_wins];
    repeat match goal with
           | |- context [if ?c then _ else _] => destruct c
           end;
    cbn [fst]; eexists; reflexivity.
Qed.

(** Recording a battle touches the list of battles and the performance of a
    session, nothing else. *)
Lemma add_battle_static (clk : nat -> datetime) (record : BattleRecord.t)
    (self : EventDeck.t) (n : nat) :
  static_fields (fst (add_battle clk record self n)) = static_fields self
  /\ EventDeck.battles (fst (add_battle clk record self n))
     = EventDeck.battles self ++ [record].
Proof.
  rewrite add_battle_unfold.
  destruct (update_progress_session clk
              (EventDeck.set_performance
                 (record_result record (EventDeck.performance self))
                 (EventDeck.set_battles (EventDeck.battles self ++ [record]) self)) n)
    as [v ->].
  now destruct self.
Qed.

Lemma record_result_counters (record : BattleRecord.t) (p : EventPerformance.t) :
  EventPerformance.wins (record_result record p)
  = EventPerformance.wins p + (if String.eqb (BattleRecord.result record) "win" then 1 else 0)
  /\ EventPerformance.losses (record_result record p)
     = EventPerformance.losses p
       + (if String.eqb (BattleRecord.result record) "win" then 0 else 1).
Proof.
  unfold record_result. destruct p as [w l wr ce cl mw cs bs pr].
  destruct (String.eqb _ "win"); cbn;
    match goal with |- context [if ?c then _ else _] => destruct c end; cbn; lia.
Qed.

(** One turn of the replay, for a session without cap and without end time. *)
Lemma replay_step_spec (clk : nat -> datetime) (d : EventDeck.t) (battle : Json.battle)
    (n : nat) :
  no_rule d ->
  let d' := fst (replay_step clk d battle n) in
  no_rule d'
  /\ static_fields d' = static_fields d
  /\ EventPerformance.progress (EventDeck.performance d')
     = EventPerformance.progress (EventDeck.performance d)
  /\ EventPerformance.max_wins (EventDeck.performance d')
     = EventPerformance.max_wins (EventDeck.performance d)
  /\ EventPerformance.wins (EventDeck.performance d')
     = EventPerformance.wins (EventDeck.performance d) + count is_won [battle]
  /\ EventPerformance.losses (EventDeck.performance d')
     = EventPerformance.losses (EventDeck.performance d)
       + count (fun b => has_both_sides b && negb (is_won b)) [battle]
  /\ Z.of_nat (List.length (EventDeck.battles d'))
     = Z.of_nat (List.length (EventDeck.battles d)) + count has_both_sides [battle].
Proof.
  intros Hrule. cbv zeta. unfold replay_step, _create_battle_record, bind, ret.
  unfold count, has_both_sides, is_won. cbn [filter].
  destruct (get_default [] (Json.team battle)) as [|team0 team];
    [cbn; repeat split; try lia; apply Hrule|].
  destruct (get_default [] (Json.opponent battle)) as [|opponent0 opponent];
    [cbn; repeat split; try lia; apply Hrule|].
  destruct (_parse_battle_time clk _ n) as [t n1].
  set (record := BattleRecord.mk _ _ _ _ _ _ _ _).
  destruct (add_battle_no_rule clk _ record d n1 (conj Hrule eq_refl)) as [Hr Hp].
  destruct (add_battle_static clk record d n1) as [Hs Hb].
  destruct (add_battle_frame clk record d n1) as [_ [Hm _]].
  destruct (add_battle_performance clk record d n1) as [v Hv].
  destruct (record_result_counters record (EventDeck.performance d)) as [Hw Hl].
  cbn [fst]. rewrite Hv in *. cbn [EventPerformance.wins EventPerformance.losses
    EventPerformance.set_progress] in *.
  split; [exact Hr|]. split; [exact Hs|]. split; [exact Hp|]. split; [exact Hm|].
  rewrite Hb, length_app.
  assert (Hres : BattleRecord.result record
                 = if get_default 0 (Json.crowns opponent0) <? get_default 0 (Json.crowns team0)
                   then "win" else "loss") by reflexivity.
  rewrite Hres in Hw, Hl. clear Hres. clearbody record.
  destruct (_ <? _);
    cbn [String.eqb Ascii.eqb Bool.eqb] in Hw, Hl;
    cbn [andb negb Datatypes.length app]; repeat split; lia.
Qed.

Lemma count_cons {A : Type} (test : A -> bool) (a : A) (l : list A) :
  count test (a :: l) = count test [a] + count test l.
Proof. unfold count. cbn [filter]. destruct (test a); cbn [Datatypes.length]; lia. Qed.

(** The loop "Add all battles", for a session without cap and without end
    time: the counters count the battles, the status stays. *)
Lemma replay_spec (clk : nat -> datetime) (battles : list Json.battle) :
  forall (d : EventDeck.t) (n : nat),
  no_rule d ->
  let d' := fst (foldM (replay_step clk) battles d n) in
  no_rule d'
  /\ static_fields d' = static_fields d
  /\ EventPerformance.progress (EventDeck.performance d')
     = EventPerformance.progress (EventDeck.performance d)
  /\ EventPerformance.max_wins (EventDeck.performance d')
     = EventPerformance.max_wins (EventDeck.performance d)
  /\ EventPerformance.wins (EventDeck.performance d')
     = EventPerformance.wins (EventDeck.performance d) + count is_won battles
  /\ EventPerformance.losses (EventDeck.performance d')
     = EventPerformance.losses (EventDeck.performance d)
       + count (fun b => has_both_sides b && negb (is_won b)) battles
  /\ Z.of_nat (List.length (EventDeck.battles d'))
     = Z.of_nat (List.length (EventDeck.battles d)) + count has_both_sides battles.
Proof.
  induction battles as [|battle battles IH]; intros d n Hrule; cbv zeta.
  - cbn. unfold count. cbn. repeat split; try lia; apply Hrule.
  - cbn [foldM]. unfold bind.
    pose proof (replay_step_spec clk d battle n Hrule) as Hstep. cbv zeta in Hstep.
    destruct (replay_step clk d battle n) as [d1 n1]. cbn [fst] in Hstep.
    destruct Hstep as (Hr1 & Hs1 & Hp1 & Hm1 & Hw1 & Hl1 & Hb1).
    specialize (IH d1 n1 Hr1). cbv zeta in IH.
    destruct IH as (Hr & Hs & Hp & Hm & Hw & Hl & Hb).
    rewrite (count_cons is_won), (count_cons has_both_sides),
      (count_cons (fun b => has_both_sides b && negb (is_won b))).
    split; [exact Hr|]. split; [congruence|]. split; [congruence|].
    split; [congruence|]. repeat split; lia.
Qed.

(** What a built session holds. *)
Lemma create_event_deck_built (clk : nat -> datetime) (hash : list string -> Z)
    (keys : Json.card -> CardKeys.t) (event_data : EventData.t)
    (battles : list Json.battle) (player_tag : string) (n : nat) (deck : EventDeck.t) :
  fst (_create_event_deck clk hash keys event_data battles player_tag n)
  = Returned (Some deck) ->
  List.length (first_roster battles) = 8%nat
  /\ EventDeck.deck deck
     = Deck.mk (map (card_in_deck keys) (first_roster battles))
         (inject_Z (total_elixir (map (card_in_deck keys) (first_roster battles))) / 8)%Q
  /\ EventDeck.player_tag deck = player_tag
  /\ EventDeck.event_name deck = EventData.event_name event_data
  /\ EventDeck.event_type deck = EventData.event_type event_data
  /\ follows_counters (max_wins_of (EventData.event_type event_data)) deck
  /\ EventPerformance.wins (EventDeck.performance deck) = count is_won battles
  /\ EventPerformance.losses (EventDeck.performance deck)
     = count (fun b => has_both_sides b && negb (is_won b)) battles
  /\ Z.of_nat (List.length (EventDeck.battles deck)) = count has_both_sides battles.
Proof.
  unfold _create_event_deck, first_roster.
  destruct battles as [|first_battle rest]; [discriminate|].
  destruct (get_default [] (Json.team first_battle)) as [|player_data others];
    [discriminate|].
  set (cards_data := get_default [] (Json.cards player_data)).
  destruct (Nat.eqb (List.length cards_data) 8) eqn:Hlen; cbn [negb]; [|discriminate].
  apply Nat.eqb_eq in Hlen.
  destruct (Qle_bool 0 _ && Qle_bool _ 10); cbn [negb]; [|discriminate].
  unfold bind, ret.
  destruct (_parse_battle_time clk _ n) as [start_time n1].
  destruct (_generate_event_id clk hash event_data first_battle n1) as [event_id n2].
  set (d0 := EventDeck.mk event_id player_tag _ _ start_time None _ _ [] None).
  assert (Hrule0 : no_rule d0) by (split; [reflexivity | left; reflexivity]).
  pose proof (replay_spec clk (first_battle :: rest) d0 n2 Hrule0) as Hreplay.
  cbv zeta in Hreplay.
  destruct (foldM (replay_step clk) (first_battle :: rest) d0 n2) as [d1 n3].
  cbn [fst] in Hreplay.
  destruct Hreplay as ([He1 _] & Hs & Hp & Hm & Hw & Hl & Hb).
  set (d2 := EventDeck.set_performance _ d1).
  assert (Hcap : max_wins_of (EventData.event_type event_data) <> 0)
    by (destruct (EventData.event_type event_data); cbn; lia).
  assert (He2 : EventDeck.end_time d2 = None) by (subst d2; now destruct d1).
  assert (Hm2 : EventPerformance.max_wins (EventDeck.performance d2)
                = Some (max_wins_of (EventData.event_type event_data)))
    by (subst d2; now destruct d1).
  assert (Hp2 : EventPerformance.progress (EventDeck.performance d2) = IN_PROGRESS)
    by (subst d2; destruct d1 as [? ? ? ? ? ? ? [] ? ?]; exact Hp).
  pose proof (update_progress_follows_counters clk _ d2 n3 Hcap He2 Hm2 (or_introl Hp2))
    as Hfollow.
  destruct (update_progress_session clk d2 n3) as [v Hv].
  destruct (_update_progress clk d2 n3) as [d3 n4]. cbn [fst] in *.
  intros [= <-]. subst d3.
  unfold static_fields in Hs. subst d2 d0.
  destruct d1 as [? ? ? ? ? ? ? [] ? ?]. cbn in *.
  injection Hs as -> -> -> -> -> -> -> ->.
  split; [exact Hlen|]. split; [reflexivity|]. split; [reflexivity|].
  split; [reflexivity|]. split; [reflexivity|]. split; [exact Hfollow|].
  repeat split; lia.
Qed.

(** X9: the builder returns no session exactly when the first player of the
    first battle does not have 8 cards (no battle and no team count as no
    cards); with 8 cards it raises exactly when their elixir costs do not sum
    to a number from 0 to 80, and returns a session otherwise. *)
Theorem X9_builder_gives_a_session_iff_eight_cards_of_valid_cost
    (clk : nat -> datetime) (hash : list string -> Z) (keys : Json.card -> CardKeys.t)
    (event_data : EventData.t) (battles : list Json.battle) (player_tag : string)
    (n : nat) :
  let roster := first_roster battles in
  let total := total_elixir (map (card_in_deck keys) roster) in
  match fst (_create_event_deck clk hash keys event_data battles player_tag n) with
  | Returned None => List.length roster <> 8%nat
  | Raised => List.length roster = 8%nat /\ ~ 0 <= total <= 80
  | Returned (Some _) => List.length roster = 8%nat /\ 0 <= total <= 80
  end.
Proof.
  cbv zeta. unfold _create_event_deck, first_roster.
  destruct battles as [|first_battle rest]; [cbn; discriminate|].
  destruct (get_default [] (Json.team first_battle)) as [|player_data others];
    [cbn; discriminate|].
  set (cards_data := get_default [] (Json.cards player_data)).
  destruct (Nat.eqb (List.length cards_data) 8) eqn:Hlen; cbn [negb].
  - apply Nat.eqb_eq in Hlen.
    destruct (Qle_bool 0 _ && Qle_bool _ 10) eqn:Hq; cbn [negb].
    + apply avg_elixir_in_range in Hq. unfold bind, ret.
      repeat match goal with
             | |- context [let (_, _) := ?c in _] => destruct c
             end.
      cbn [fst]. now split.
    + cbn. split; [exact Hlen|]. intros H. apply avg_elixir_in_range in H. congruence.
  - cbn. now apply Nat.eqb_neq.
Qed.

(** X10: a session the builder returns holds the 8 cards of the first player
    of the first battle and their average cost; it has one battle record for
    every battle with team and opponent data, its wins are those of them in
    which the first team player has more crowns than the first opponent, and
    its losses are all the others. *)
Theorem X10_built_session_counts_the_battles_with_both_sides
    (clk : nat -> datetime) (hash : list string -> Z) (keys : Json.card -> CardKeys.t)
    (event_data : EventData.t) (battles : list Json.battle) (player_tag : string)
    (n : nat) (deck : EventDeck.t) :
  fst (_create_event_deck clk hash keys event_data battles player_tag n)
  = Returned (Some deck) ->
  let cards := map (card_in_deck keys) (first_roster battles) in
  Deck.cards (EventDeck.deck deck) = cards
  /\ List.length cards = 8%nat
  /\ Deck.avg_elixir (EventDeck.deck deck) = (inject_Z (total_elixir cards) / 8)%Q
  /\ Z.of_nat (List.length (EventDeck.battles deck)) = count has_both_sides battles
  /\ EventPerformance.wins (EventDeck.performance deck) = count is_won battles
  /\ EventPerformance.wins (EventDeck.performance deck)
     + EventPerformance.losses (EventDeck.performance deck)
     = count has_both_sides battles.
Proof.
  intros H. apply create_event_deck_built in H.
  destruct H as (Hlen & Hdeck & _ & _ & _ & _ & Hw & Hl & Hb).
  cbv zeta. rewrite Hdeck. cbn [Deck.cards Deck.avg_elixir].
  split; [reflexivity|]. split; [now rewrite length_map|]. split; [reflexivity|].
  split; [exact Hb|]. split; [exact Hw|]. rewrite Hw, Hl. clear.
  induction battles as [|b bs IH].
  - reflexivity.
  - rewrite (count_cons is_won), (count_cons has_both_sides),
      (count_cons (fun b => has_both_sides b && negb (is_won b))).
    assert (count is_won [b] + count (fun b => has_both_sides b && negb (is_won b)) [b]
            = count has_both_sides [b]); [|lia].
    unfold count, has_both_sides, is_won. cbn [filter].
    destruct (get_default [] (Json.team b)); [reflexivity|].
    destruct (get_default [] (Json.opponent b)); [reflexivity|].
    now destruct (_ <? _).
Qed.

Lemma X10_witness :
  exists deck,
    fst (_create_event_deck sample_clock hash_of_first_run sample_card_keys
           (_extract_event_data battle_0900) [battle_0900; battle_0910; battle_1100]
           "#PLAYER" 0%nat)
    = Returned (Some deck)
    /\ Z.of_nat (List.length (EventDeck.battles deck)) = 3
    /\ EventPerformance.wins (EventDeck.performance deck) = 1
    /\ EventPerformance.wins (EventDeck.performance deck)
       + EventPerformance.losses (EventDeck.performance deck) = 3.
Proof.
  eexists. split; [vm_compute; reflexivity|].
  match goal with
  | |- context [EventDeck.battles ?d] =>
      pose proof (X10_built_session_counts_the_battles_with_both_sides
                    sample_clock hash_of_first_run sample_card_keys
                    (_extract_event_data battle_0900)
                    [battle_0900; battle_0910; battle_1100] "#PLAYER" 0%nat d) as H
  end.
  specialize (H ltac:(vm_compute; reflexivity)). cbv zeta in H.
  destruct H as (_ & _ & _ & Hb & Hw & Hs).
  split; [rewrite Hb; reflexivity|]. split; [rewrite Hw | rewrite Hs]; reflexivity.
Defined.

(** X11: a session the builder returns has no end time and the cap of its
    event type (10 for a grand challenge, 12 for a classic or draft
    challenge, 20 otherwise), and its status is decided once, after all
    battles are counted: completed when the wins reach the cap, else
    eliminated when there are 3 losses or more, else in progress. *)
Theorem X11_built_session_status_is_decided_by_the_final_counters
    (clk : nat -> datetime) (hash : list string -> Z) (keys : Json.card -> CardKeys.t)
    (event_data : EventData.t) (battles : list Json.battle) (player_tag : string)
    (n : nat) (deck : EventDeck.t) :
  fst (_create_event_deck clk hash keys event_data battles player_tag n)
  = Returned (Some deck) ->
  let cap := max_wins_of (EventData.event_type event_data) in
  let won := count is_won battles in
  let lost := count (fun b => has_both_sides b && negb (is_won b)) battles in
  EventDeck.end_time deck = None
  /\ EventDeck.event_type deck = EventData.event_type event_data
  /\ EventPerformance.max_wins (EventDeck.performance deck) = Some cap
  /\ EventPerformance.progress (EventDeck.performance deck)
     = (if cap <=? won then COMPLETED
        else if 3 <=? lost then ELIMINATED else IN_PROGRESS).
Proof.
  intros H. apply create_event_deck_built in H.
  destruct H as (_ & _ & _ & _ & Hty & (He & Hm & Hp) & Hw & Hl & _).
  cbv zeta. rewrite <- Hw, <- Hl. repeat split; assumption.
Qed.

Lemma X11_witness :
  exists deck,
    fst (_create_event_deck sample_clock hash_of_first_run sample_card_keys
           (EventData.mk GRAND_CHALLENGE "Grand Challenge" "Grand Challenge" hog_cycle)
           [battle_1100; battle_1100; battle_1100; battle_0900] "#PLAYER" 0%nat)
    = Returned (Some deck)
    /\ EventPerformance.max_wins (EventDeck.performance deck) = Some 10
    /\ EventPerformance.progress (EventDeck.performance deck) = ELIMINATED.
Proof.
  eexists. split; [vm_compute; reflexivity|].
  match goal with
  | |- context [EventDeck.performance ?d] =>
      pose proof (X11_built_session_status_is_decided_by_the_final_counters
                    sample_clock hash_of_first_run sample_card_keys
                    (EventData.mk GRAND_CHALLENGE "Grand Challenge" "Grand Challenge"
                       hog_cycle)
                    [battle_1100; battle_1100; battle_1100; battle_0900] "#PLAYER" 0%nat d)
        as H
  end.
  specialize (H ltac:(vm_compute; reflexivity)). cbv zeta in H.
  destruct H as (_ & _ & Hm & Hp).
  split; [rewrite Hm | rewrite Hp]; reflexivity.
Defined.

(* ================================================================== *)
(** ** Further properties: the parser as a whole *)
(* ================================================================== *)

Lemma roster_sorted_sides (battle : Json.battle) :
  has_both_sides (roster_sorted battle) = has_both_sides battle
  /\ is_won (roster_sorted battle) = is_won battle.
Proof.
  unfold has_both_sides, is_won, roster_sorted, sort_roster.
  destruct battle as [time mode [[|[[cards|] ? ? ? ?] others]|] opponent ladder];
    cbn; try (split; reflexivity).
  destruct (forallb _ cards); split; reflexivity.
Qed.

Lemma count_map_roster_sorted (test : Json.battle -> bool) (battles : list Json.battle) :
  (forall b, test (roster_sorted b) = test b) ->
  count test (map roster_sorted battles) = count test battles.
Proof.
  intros H. unfold count. f_equal.
  induction battles as [|b bs IH]; [reflexivity|].
  cbn [map filter]. rewrite H. destruct (test b); cbn [Datatypes.length]; now rewrite IH.
Qed.

(** The names of the cards the builder reads are the deck the segmenter
    read from the first battle. *)
Lemma first_roster_names (first : Json.battle) (rest : list Json.battle) :
  map (fun c => get_default "" (Json.name c))
      (first_roster (map roster_sorted (first :: rest)))
  = _extract_deck_from_battle first.
Proof.
  unfold first_roster, _extract_deck_from_battle, roster_sorted, sort_roster.
  cbn [map].
  destruct first as [time mode [[|[[cards|] ? ? ? ?] others]|] opponent ladder];
    cbn; try reflexivity.
  destruct (forallb _ cards); reflexivity.
Qed.

(** Whatever the mode name, the cap of the event type read from a battle
    is 20. *)
Lemma cap_of_extracted_type (battle : Json.battle) :
  max_wins_of (EventData.event_type (_extract_event_data battle)) = 20.
Proof.
  unfold _extract_event_data. cbn [EventData.event_type].
  set (m := lower (mode_name_of battle)).
  unfold EVENT_BATTLE_MODES. cbn [first_match].
  change (lower "Challenge") with "challenge".
  change (lower "Grand Challenge") with ("grand " ++ "challenge")%string.
  change (lower "Classic Challenge") with ("classic " ++ "challenge")%string.
  change (lower "Draft Challenge") with ("draft " ++ "challenge")%string.
  destruct (contains "challenge" m) eqn:E; cbn [get_default]; [reflexivity|].
  rewrite (not_contains_ending "grand " _ _ E),
    (not_contains_ending "classic " _ _ E), (not_contains_ending "draft " _ _ E).
  repeat match goal with
         | |- context [if ?c then _ else _] => destruct c
         end; reflexivity.
Qed.

Lemma group_battles_well_formed (clk : nat -> datetime) (hash : list string -> Z)
    (battle_logs : list Json.battle) (n : nat) :
  sessions_well_formed (fst (_group_battles_by_event clk hash battle_logs n)).
Proof.
  unfold _group_battles_by_event, bind.
  destruct init_well_formed as [Hg Ho].
  pose proof (group_loop_well_formed clk hash (sorted_battles battle_logs)
                GroupLoop.init n Hg Ho) as H.
  destruct (foldM _ _ _ _) as [st n1]. cbn [fst] in H. destruct H as [Hg1 Ho1].
  exact (save_current_well_formed clk hash st n1 Hg1 Ho1).
Qed.

(** Every session of the result is built from a group of the segmenter, and
    there are no more sessions than groups. *)
Lemma parse_loop_built (clk : nat -> datetime) (hash : list string -> Z)
    (keys : Json.card -> CardKeys.t) (player_tag : string)
    (groups : dict (EventData.t * list Json.battle)) :
  forall (acc : list EventDeck.t) (n : nat) (deck : EventDeck.t),
  In deck (fst (foldM (parse_step clk hash keys player_tag) groups acc n)) ->
  In deck acc
  \/ exists event_id event_data battles n',
       In (event_id, (event_data, battles)) groups
       /\ fst (_create_event_deck clk hash keys event_data (map roster_sorted battles)
                 player_tag n')
          = Returned (Some deck).
Proof.
  induction groups as [|[event_id [event_data battles]] groups IH]; intros acc n deck Hin.
  - now left.
  - cbn [foldM] in Hin. unfold bind, parse_step at 1 in Hin. cbn [fst snd] in Hin.
    unfold bind in Hin.
    destruct (_create_event_deck clk hash keys event_data (map roster_sorted battles)
                player_tag n) as [outcome n1] eqn:E.
    assert (Hrest : forall acc', 
              In deck (fst (foldM (parse_step clk hash keys player_tag) groups acc' n1)) ->
              (In deck acc' -> In deck acc \/ outcome = Returned (Some deck)) ->
              In deck acc
              \/ exists event_id0 event_data0 battles0 n',
                   In (event_id0, (event_data0, battles0))
                      ((event_id, (event_data, battles)) :: groups)
                   /\ fst (_create_event_deck clk hash keys event_data0
                             (map roster_sorted battles0) player_tag n')
                      = Returned (Some deck)).
    { intros acc' H Hacc. destruct (IH acc' n1 deck H) as [Ha|(k & ev & bs & n' & Hk & Hb)].
      - destruct (Hacc Ha) as [Ho|Ho]; [now left|]. right.
        exists event_id, event_data, battles, n. split; [now left|].
        rewrite E. exact Ho.
      - right. exists k, ev, bs, n'. split; [now right | exact Hb]. }
    destruct outcome as [[built|]|]; unfold ret in Hin; cbn [fst snd] in Hin.
    + apply (Hrest _ Hin). intros Ha. apply in_app_or in Ha.
      destruct Ha as [Ha|[<-|[]]]; [now left | now right].
    + apply (Hrest _ Hin). intros Ha. now left.
    + apply (Hrest _ Hin). intros Ha. now left.
Qed.

Lemma parse_sessions_built (clk : nat -> datetime) (hash : list string -> Z)
    (keys : Json.card -> CardKeys.t) (battle_logs : list Json.battle)
    (player_tag : string) (n : nat) (deck : EventDeck.t) :
  In deck (fst (parse_battle_logs clk hash keys battle_logs player_tag n)) ->
  exists event_id first rest n',
    In (event_id, (_extract_event_data first, first :: rest))
       (fst (_group_battles_by_event clk hash battle_logs n))
    /\ fst (_create_event_deck clk hash keys (_extract_event_data first)
              (map roster_sorted (first :: rest)) player_tag n')
       = Returned (Some deck).
Proof.
  unfold parse_battle_logs, bind. intros Hin.
  pose proof (group_battles_well_formed clk hash battle_logs n) as [_ Hwf].
  destruct (_group_battles_by_event clk hash battle_logs n) as [groups n1].
  cbn [fst] in *.
  destruct (parse_loop_built clk hash keys player_tag groups [] n1 deck Hin)
    as [[]|(k & ev & bs & n' & Hk & Hb)].
  destruct (Hwf k ev bs Hk) as (first & rest & -> & ->).
  now exists k, first, rest, n'.
Qed.

(** X12: every session the parser returns has the cap 20, never the 10 of a
    grand challenge or the 12 of a classic or draft challenge, whatever the
    mode names of the log; it has no end time and its status is the one the
    final counters give under the cap 20. *)
Theorem X12_parsed_sessions_all_have_the_cap_20
    (clk : nat -> datetime) (hash : list string -> Z) (keys : Json.card -> CardKeys.t)
    (battle_logs : list Json.battle) (player_tag : string) (n : nat)
    (deck : EventDeck.t) :
  In deck (fst (parse_battle_logs clk hash keys battle_logs player_tag n)) ->
  EventPerformance.max_wins (EventDeck.performance deck) = Some 20
  /\ EventDeck.end_time deck = None
  /\ EventPerformance.progress (EventDeck.performance deck)
     = status_of_counters 20 (EventDeck.performance deck)
  /\ (EventPerformance.progress (EventDeck.performance deck) = COMPLETED
      <-> 20 <= EventPerformance.wins (EventDeck.performance deck)).
Proof.
  intros Hin.
  destruct (parse_sessions_built _ _ _ _ _ _ _ Hin) as (k & first & rest & n' & _ & Hb).
  apply create_event_deck_built in Hb.
  destruct Hb as (_ & _ & _ & _ & _ & (He & Hm & Hp) & _).
  rewrite cap_of_extracted_type in Hm, Hp.
  split; [exact Hm|]. split; [exact He|]. split; [exact Hp|].
  rewrite Hp. unfold status_of_counters.
  destruct (20 <=? _) eqn:E1; [apply Z.leb_le in E1; now split|].
  apply Z.leb_gt in E1. destruct (3 <=? _); split; intros H; try discriminate; lia.
Qed.

Lemma X12_witness :
  exists deck,
    In deck (fst (parse_battle_logs sample_clock hash_of_first_run sample_card_keys
                    [battle_0900; battle_0910; battle_1100] "#PLAYER" 0%nat))
    /\ EventDeck.event_name deck = "Grand Challenge"
    /\ EventPerformance.max_wins (EventDeck.performance deck) = Some 20.
Proof.
  eexists. split; [vm_compute; left; reflexivity|]. split; [reflexivity|].
  match goal with
  | |- context [EventDeck.performance ?d] =>
      pose proof (X12_parsed_sessions_all_have_the_cap_20
                    sample_clock hash_of_first_run sample_card_keys
                    [battle_0900; battle_0910; battle_1100] "#PLAYER" 0%nat d) as H
  end.
  specialize (H ltac:(vm_compute; left; reflexivity)).
  exact (proj1 H).
Defined.

(** X13: every session the parser returns comes from a session of the
    segmenter: its card names are the deck read from the first battle of
    that session, 8 cards, its name and type are those read from that
    battle, its player is the one parsed for, and its battle records and
    wins count the battles of that session with team and opponent data. *)
Theorem X13_parsed_session_is_built_from_a_session_of_the_segmenter
    (clk : nat -> datetime) (hash : list string -> Z) (keys : Json.card -> CardKeys.t)
    (battle_logs : list Json.battle) (player_tag : string) (n : nat)
    (deck : EventDeck.t) :
  In deck (fst (parse_battle_logs clk hash keys battle_logs player_tag n)) ->
  exists event_id first rest,
    In (event_id, (_extract_event_data first, first :: rest))
       (fst (_group_battles_by_event clk hash battle_logs n))
    /\ deck_card_names deck = _extract_deck_from_battle first
    /\ List.length (deck_card_names deck) = 8%nat
    /\ EventDeck.event_name deck = EventData.event_name (_extract_event_data first)
    /\ EventDeck.event_type deck = EventData.event_type (_extract_event_data first)
    /\ EventDeck.player_tag deck = player_tag
    /\ Z.of_nat (List.length (EventDeck.battles deck))
       = count has_both_sides (first :: rest)
    /\ EventPerformance.wins (EventDeck.performance deck) = count is_won (first :: rest).
Proof.
  intros Hin.
  destruct (parse_sessions_built _ _ _ _ _ _ _ Hin) as (k & first & rest & n' & Hk & Hb).
  apply create_event_deck_built in Hb.
  destruct Hb as (Hlen & Hdeck & Htag & Hname & Hty & _ & Hw & _ & Hbat).
  exists k, first, rest. split; [exact Hk|].
  assert (Hnames : deck_card_names deck = _extract_deck_from_battle first).
  { unfold deck_card_names. rewrite Hdeck. cbn [Deck.cards]. rewrite map_map.
    cbn [card_in_deck CardInDeck.name]. apply first_roster_names. }
  split; [exact Hnames|].
  split; [unfold deck_card_names; rewrite Hdeck; cbn [Deck.cards];
          now rewrite !length_map|].
  split; [exact Hname|]. split; [exact Hty|]. split; [exact Htag|].
  rewrite Hbat, Hw.
  split; apply count_map_roster_sorted; intros b; apply roster_sorted_sides.
Qed.

Lemma X13_witness :
  exists deck,
    In deck (fst (parse_battle_logs sample_clock hash_of_first_run sample_card_keys
                    [battle_0900; battle_0910; battle_1100] "#PLAYER" 0%nat))
    /\ EventDeck.event_name deck = "Grand Challenge"
    /\ exists event_id first rest,
         In (event_id, (_extract_event_data first, first :: rest))
            (fst (_group_battles_by_event sample_clock hash_of_first_run
                    [battle_0900; battle_0910; battle_1100] 0%nat))
         /\ deck_card_names deck = _extract_deck_from_battle first.
Proof.
  eexists. split; [vm_compute; left; reflexivity|]. split; [reflexivity|].
  match goal with
  | |- context [deck_card_names ?d] =>
      pose proof (X13_parsed_session_is_built_from_a_session_of_the_segmenter
                    sample_clock hash_of_first_run sample_card_keys
                    [battle_0900; battle_0910; battle_1100] "#PLAYER" 0%nat d) as H
  end.
  specialize (H ltac:(vm_compute; left; reflexivity)).
  destruct H as (k & first & rest & Hk & Hnames & _).
  exists k, first, rest. split; [exact Hk | exact Hnames].
Defined.

(* ================================================================== *)
(** ** Further properties: the identity of a parsed session *)
(* ================================================================== *)

Lemma save_current_keyed (clk : nat -> datetime) (hash : list string -> Z)
    (st : GroupLoop.t) (n : nat) :
  sessions_keyed clk hash (GroupLoop.event_groups st) ->
  sessions_keyed clk hash (fst (save_current clk hash st n)).
Proof.
  intros Hk. unfold save_current, bind, ret.
  destruct (GroupLoop.current_event st) as [ev|]; [|exact Hk].
  destruct (GroupLoop.current_battles st) as [|first rest]; [exact Hk|].
  destruct (_generate_event_id clk hash ev first n) as [k n'] eqn:E. cbn [fst].
  intros k' ev' bs Hin. apply dict_set_In in Hin.
  destruct Hin as [[-> [= -> ->]] | Hin]; [|now apply Hk].
  exists first, rest, n. now rewrite E.
Qed.

Lemma group_step_keyed (clk : nat -> datetime) (hash : list string -> Z)
    (st : GroupLoop.t) (battle : Json.battle) (n : nat) :
  sessions_keyed clk hash (GroupLoop.event_groups st) ->
  sessions_keyed clk hash (GroupLoop.event_groups (fst (group_step clk hash st battle n))).
Proof.
  intros Hk. unfold group_step, bind, ret.
  destruct (_parse_battle_time clk _ n) as [t n1].
  destruct (_is_new_event battle _ t _); [|exact Hk].
  pose proof (save_current_keyed clk hash st n1 Hk) as Hs.
  now destruct (save_current clk hash st n1).
Qed.

Lemma group_battles_keyed (clk : nat -> datetime) (hash : list string -> Z)
    (battle_logs : list Json.battle) (n : nat) :
  sessions_keyed clk hash (fst (_group_battles_by_event clk hash battle_logs n)).
Proof.
  unfold _group_battles_by_event, bind.
  pose proof (foldM_preserves
                (fun st => sessions_keyed clk hash (GroupLoop.event_groups st))
                (group_step clk hash) (group_step_keyed clk hash)
                (sorted_battles battle_logs) GroupLoop.init n) as H.
  destruct (foldM _ _ _ _) as [st n1]. cbn [fst] in H.
  apply save_current_keyed. apply H. intros k ev bs [].
Qed.

(** The start time and the identity the builder gives a session. *)
Lemma create_event_deck_identity (clk : nat -> datetime) (hash : list string -> Z)
    (keys : Json.card -> CardKeys.t) (event_data : EventData.t)
    (first : Json.battle) (rest : list Json.battle) (player_tag : string) (n : nat)
    (deck : EventDeck.t) :
  fst (_create_event_deck clk hash keys event_data (first :: rest) player_tag n)
  = Returned (Some deck) ->
  exists n1,
    EventDeck.start_time deck = fst (_parse_battle_time clk (battle_time_key first) n)
    /\ EventDeck.event_id deck = fst (_generate_event_id clk hash event_data first n1).
Proof.
  unfold _create_event_deck.
  destruct (get_default [] (Json.team first)) as [|player_data others]; [discriminate|].
  destruct (negb (Nat.eqb _ 8)); [discriminate|].
  destruct (negb (Qle_bool 0 _ && Qle_bool _ 10)); [discriminate|].
  unfold bind, ret. fold (battle_time_key first).
  destruct (_parse_battle_time clk (battle_time_key first) n) as [start_time n1].
  destruct (_generate_event_id clk hash event_data first n1) as [event_id n2] eqn:E.
  set (d0 := EventDeck.mk event_id player_tag _ _ start_time None _ _ [] None).
  assert (Hrule0 : no_rule d0) by (split; [reflexivity | left; reflexivity]).
  pose proof (replay_spec clk (first :: rest) d0 n2 Hrule0) as Hreplay.
  cbv zeta in Hreplay.
  destruct (foldM (replay_step clk) (first :: rest) d0 n2) as [d1 n3].
  cbn [fst] in Hreplay. destruct Hreplay as (_ & Hs & _).
  set (d2 := EventDeck.set_performance _ d1).
  destruct (update_progress_session clk d2 n3) as [v Hv].
  destruct (_update_progress clk d2 n3) as [d3 n4]. cbn [fst] in *.
  intros [= <-]. subst d3 d2. exists n1. rewrite E. cbn [fst].
  unfold static_fields in Hs. subst d0. destruct d1. cbn in *.
  injection Hs as -> _ _ _ -> _ _ _. now split.
Qed.

Lemma roster_sorted_time (battle : Json.battle) :
  battle_time_key (roster_sorted battle) = battle_time_key battle.
Proof.
  unfold battle_time_key, roster_sorted.
  now destruct (Json.team battle) as [[|player others]|].
Qed.

Lemma generate_event_id_roster_sorted (clk : nat -> datetime) (hash : list string -> Z)
    (event_data : EventData.t) (battle : Json.battle) (n : nat) :
  _generate_event_id clk hash event_data (roster_sorted battle) n
  = _generate_event_id clk hash event_data battle n.
Proof.
  unfold _generate_event_id. fold (battle_time_key (roster_sorted battle)).
  fold (battle_time_key battle). now rewrite roster_sorted_time.
Qed.

Lemma segment_In {A : Type} (s l : list A) (x : A) : segment s l -> In x s -> In x l.
Proof.
  intros [pre [post ->]] H. apply in_or_app. right. apply in_or_app. now left.
Qed.

(** The battles of a session are battles of the log. *)
Lemma group_battles_of_the_log (clk : nat -> datetime) (hash : list string -> Z)
    (battle_logs : list Json.battle) (n : nat) (event_id : string)
    (event_data : EventData.t) (battles : list Json.battle) (b : Json.battle) :
  In (event_id, (event_data, battles))
     (fst (_group_battles_by_event clk hash battle_logs n)) ->
  In b battles -> In b battle_logs /\ _is_event_battle b = true.
Proof.
  intros Hin Hb. apply group_battles_segments in Hin.
  pose proof (segment_In _ _ b Hin Hb) as Hs. unfold sorted_battles in Hs.
  apply (Permutation_in _ (sorted_perm _ _ _)) in Hs.
  now apply filter_In in Hs.
Qed.

Lemma NoDup_snoc {A : Type} (l : list A) (a : A) :
  NoDup l -> ~ In a l -> NoDup (l ++ [a]).
Proof.
  induction l as [|x l IH]; intros Hl Ha; cbn.
  - constructor; [intros []|constructor].
  - apply NoDup_cons_iff in Hl. destruct Hl as [Hx Hl]. constructor.
    + intros Hin. apply in_app_or in Hin. destruct Hin as [Hin | [-> | []]];
        [now apply Hx | apply Ha; now left].
    + apply IH; [exact Hl|]. intros Hin. apply Ha. now right.
Qed.

(** With distinct keys and sessions that take the key of their group, the
    loop over the groups gives sessions of distinct identities. *)
Lemma parse_loop_NoDup (clk : nat -> datetime) (hash : list string -> Z)
    (keys : Json.card -> CardKeys.t) (player_tag : string)
    (groups : dict (EventData.t * list Json.battle)) :
  (forall k ev bs n' deck,
      In (k, (ev, bs)) groups ->
      fst (_create_event_deck clk hash keys ev (map roster_sorted bs) player_tag n')
      = Returned (Some deck) ->
      EventDeck.event_id deck = k) ->
  NoDup (dict_keys groups) ->
  forall (acc : list EventDeck.t) (n : nat),
    NoDup (identities acc) ->
    (forall id, In id (identities acc) -> ~ In id (dict_keys groups)) ->
    NoDup (identities (fst (foldM (parse_step clk hash keys player_tag) groups acc n))).
Proof.
  induction groups as [|[k [ev bs]] groups IH]; intros Hkey Hnd acc n Hacc Hfresh.
  - exact Hacc.
  - cbn [foldM]. unfold bind, parse_step at 1. cbn [fst snd]. unfold bind.
    pose proof (Hkey k ev bs n) as Hk.
    destruct (_create_event_deck clk hash keys ev (map roster_sorted bs) player_tag n)
      as [outcome n1]. cbn [fst] in Hk.
    cbn [dict_keys map fst] in Hnd. apply NoDup_cons_iff in Hnd. destruct Hnd as [Hk0 Hnd].
    assert (Hkey' : forall k0 ev0 bs0 n' deck,
               In (k0, (ev0, bs0)) groups ->
               fst (_create_event_deck clk hash keys ev0 (map roster_sorted bs0)
                      player_tag n')
               = Returned (Some deck) ->
               EventDeck.event_id deck = k0)
      by (intros k0 ev0 bs0 n' deck Hin; apply Hkey; now right).
    assert (Hfresh' : forall id, In id (identities acc) -> ~ In id (dict_keys groups))
      by (intros id Hid Hin; apply (Hfresh id Hid); now right).
    destruct outcome as [[built|]|]; unfold ret; cbn [fst snd];
      try (apply IH; assumption).
    specialize (Hk built (or_introl eq_refl) eq_refl).
    apply IH; [assumption | assumption | |].
    + unfold identities. rewrite map_app. cbn [map]. rewrite Hk.
      apply NoDup_snoc; [exact Hacc|]. intros Hin. apply (Hfresh k Hin). now left.
    + intros id Hid. unfold identities in Hid. rewrite map_app in Hid.
      apply in_app_or in Hid. destruct Hid as [Hid | [<- | []]].
      * now apply Hfresh'.
      * now rewrite Hk.
Qed.

(** When the time of the first battle of a group parses, the session built
    from the group starts at that time and takes the key of the group. *)
Lemma built_session_takes_the_key (clk : nat -> datetime) (hash : list string -> Z)
    (keys : Json.card -> CardKeys.t) (battle_logs : list Json.battle)
    (player_tag : string) (n : nat) :
  (forall b, In b battle_logs -> _is_event_battle b = true ->
     strptime (split_dot_head (battle_time_key b)) <> None) ->
  forall k ev bs n' deck,
    In (k, (ev, bs)) (fst (_group_battles_by_event clk hash battle_logs n)) ->
    fst (_create_event_deck clk hash keys ev (map roster_sorted bs) player_tag n')
    = Returned (Some deck) ->
    EventDeck.event_id deck = k
    /\ exists first rest,
         bs = first :: rest
         /\ EventDeck.start_time deck = parsed_time first
         /\ k = event_id_at hash ev (parsed_time first).
Proof.
  intros Hparse k ev bs n' deck Hin Hbuilt.
  destruct (group_battles_keyed clk hash battle_logs n k ev bs Hin)
    as (first & rest & n2 & -> & Hk).
  destruct (group_battles_of_the_log clk hash battle_logs n k ev (first :: rest) first Hin
              (or_introl eq_refl)) as [Hlog Hevent].
  specialize (Hparse first Hlog Hevent).
  destruct (strptime (split_dot_head (battle_time_key first))) as [t|] eqn:Et;
    [|congruence].
  assert (Hpt : parsed_time first = t) by (unfold parsed_time; now rewrite Et).
  rewrite (generate_event_id_parsed clk hash ev first t n2 Et) in Hk. cbn [fst] in Hk.
  cbn [map] in Hbuilt. apply create_event_deck_identity in Hbuilt.
  destruct Hbuilt as (n1 & Hstart & Hid).
  rewrite roster_sorted_time, (parse_battle_time_parsed clk _ t n' Et) in Hstart.
  rewrite generate_event_id_roster_sorted,
    (generate_event_id_parsed clk hash ev first t n1 Et) in Hid.
  cbn [fst] in Hstart, Hid. split; [congruence|].
  exists first, rest. rewrite Hpt. now repeat split.
Qed.

(** X14: when the [battleTime] of every event battle of the log parses,
    every session the parser returns carries the identity under which the
    segmenter filed its group and starts at the time of the first battle of
    the group, and no two returned sessions share an identity. *)
Theorem X14_parsed_sessions_take_the_identity_of_their_group
    (clk : nat -> datetime) (hash : list string -> Z) (keys : Json.card -> CardKeys.t)
    (battle_logs : list Json.battle) (player_tag : string) (n : nat)
    (Hparse : forall b, In b battle_logs -> _is_event_battle b = true ->
                strptime (split_dot_head (battle_time_key b)) <> None) :
  let groups := fst (_group_battles_by_event clk hash battle_logs n) in
  let result := fst (parse_battle_logs clk hash keys battle_logs player_tag n) in
  NoDup (identities result)
  /\ forall deck, In deck result ->
       exists first rest,
         In (EventDeck.event_id deck, (_extract_event_data first, first :: rest)) groups
         /\ EventDeck.start_time deck = parsed_time first
         /\ EventDeck.event_id deck
            = event_id_at hash (_extract_event_data first) (parsed_time first).
Proof.
  cbv zeta.
  pose proof (built_session_takes_the_key clk hash keys battle_logs player_tag n Hparse)
    as Hkey.
  split.
  - pose proof (group_battles_well_formed clk hash battle_logs n) as [Hnd _].
    unfold parse_battle_logs, bind.
    destruct (_group_battles_by_event clk hash battle_logs n) as [groups n1].
    cbn [fst] in *.
    apply parse_loop_NoDup.
    + intros k ev bs n' deck Hin Hb. now apply (Hkey k ev bs n' deck Hin Hb).
    + exact Hnd.
    + constructor.
    + intros id [].
  - intros deck Hin.
    destruct (parse_sessions_built _ _ _ _ _ _ _ Hin) as (k & first & rest & n' & Hk & Hb).
    destruct (Hkey _ _ _ _ _ Hk Hb) as (Hid & first' & rest' & [= <- <-] & Hstart & Hat).
    exists first, rest. rewrite Hid. now repeat split.
Qed.

Lemma X14_witness :
  let log := [battle_1100; battle_0900; battle_0910] in
  let result :=
    fst (parse_battle_logs sample_clock hash_of_first_run sample_card_keys log
           "#PLAYER" 0%nat) in
  List.length result = 1%nat /\ NoDup (identities result).
Proof.
  cbv zeta. split; [vm_compute; reflexivity|].
  apply (X14_parsed_sessions_take_the_identity_of_their_group
           sample_clock hash_of_first_run sample_card_keys
           [battle_1100; battle_0900; battle_0910] "#PLAYER" 0%nat).
  intros b [<- | [<- | [<- | []]]] _; vm_compute; discriminate.
Defined.

(* ================================================================== *)
(** ** Further properties of the store *)
(* ================================================================== *)

(** The files of a sub-directory after [save_event_deck]: the file of the
    session is written in the sub-directory of its type, no other file is
    touched. *)
Lemma save_event_deck_files (clk : nat -> datetime) (deck : EventDeck.t)
    (pd : PlayerDir.t) (n : nat) (d : Subdir) :
  read_subdir d (fst (save_event_deck clk deck pd n))
  = if Subdir_eqb d (subdir_of (EventDeck.event_type deck))
    then dict_set (deck_filename deck) (Some deck) (read_subdir d pd)
    else read_subdir d pd.
Proof.
  unfold save_event_deck, _update_collection_file, add_deck, bind, ret, now.
  destruct (read_collection _); cbn [fst];
    unfold set_collection_file, write_file;
    destruct (subdir_of (EventDeck.event_type deck)); destruct d; reflexivity.
Qed.

Lemma deck_filename_not_collection (deck : EventDeck.t) :
  String.eqb (deck_filename deck) "collection.json" = false.
Proof.
  destruct (String.eqb_spec (deck_filename deck) "collection.json") as [E|]; [|reflexivity].
  assert (H : contains "_" (deck_filename deck) = true).
  { apply contains_app. unfold deck_filename.
    exists (strftime_Y_m_d (EventDeck.start_time deck)). eexists. reflexivity. }
  rewrite E in H. vm_compute in H. discriminate.
Qed.

(** Every session a query returns has passed the checks of the constructor. *)
Lemma get_event_decks_valid (clk : nat -> datetime) (pd : PlayerDir.t)
    (event_type : option EventType) (days_back limit : option Z) (n : nat) :
  Forall (fun d => valid_session d = true)
         (fst (get_event_decks clk pd event_type days_back limit n)).
Proof.
  rewrite get_event_decks_result. cbv zeta.
  set (loaded := fst (foldM _ _ _ _)).
  assert (Hl : Forall (fun d => valid_session d = true) loaded)
    by (apply load_files_valid; constructor).
  assert (Ho : Forall (fun d => valid_session d = true)
                 (sorted (fun a b => b <=? a) EventDeck.start_time loaded))
    by (eapply Permutation_Forall; [symmetry; apply sorted_perm | exact Hl]).
  destruct limit as [k|]; [|exact Ho].
  destruct (k =? 0); [exact Ho | now apply slice_to_Forall].
Qed.


(** X16: two sessions with the same file name in the same sub-directory
    share one file: after both are saved the three sub-directories are as if
    only the second had been saved, whatever their identities. *)
Theorem X16_second_session_of_a_file_name_overwrites_the_first
    (clk : nat -> datetime) (first second : EventDeck.t) (pd : PlayerDir.t) (n m k : nat)
    (Hname : deck_filename first = deck_filename second)
    (Hdir : subdir_of (EventDeck.event_type first)
            = subdir_of (EventDeck.event_type second)) :
  let both := fst (save_event_deck clk second (fst (save_event_deck clk first pd n)) m) in
  let only_second := fst (save_event_deck clk second pd k) in
  forall d, read_subdir d both = read_subdir d only_second.
Proof.
  cbv zeta. intros d. rewrite !save_event_deck_files, Hdir, Hname.
  destruct (Subdir_eqb d _); [|reflexivity].
  generalize (read_subdir d pd). intros files.
  induction files as [|[f x] files IH]; cbn.
  - now rewrite String.eqb_refl.
  - destruct (String.eqb f (deck_filename second)) eqn:E; cbn; rewrite E;
      [reflexivity | now rewrite IH].
Qed.

Lemma X16_witness :
  EventDeck.event_id morning_session <> EventDeck.event_id evening_session
  /\ forall d,
       read_subdir d
         (fst (save_event_deck sample_clock evening_session
                 (fst (save_event_deck sample_clock morning_session PlayerDir.empty 0%nat))
                 1%nat))
       = read_subdir d
           (fst (save_event_deck sample_clock evening_session PlayerDir.empty 0%nat)).
Proof.
  split; [discriminate|].
  apply (X16_second_session_of_a_file_name_overwrites_the_first
           sample_clock morning_session evening_session PlayerDir.empty 0%nat 1%nat 0%nat);
    vm_compute; reflexivity.
Defined.

(** The collection after [_update_collection_file]: the loaded collection,
    or a new one when there is no file or loading it raises, with the session
    put in. *)
Lemma update_collection_file_spec (clk : nat -> datetime) (deck : EventDeck.t)
    (pd : PlayerDir.t) (n : nat) :
  exists collection,
    PlayerDir.collection_file (fst (_update_collection_file clk deck pd n))
    = Some collection
    /\ EventDeckCollection.player_tag collection
       = match read_collection (PlayerDir.collection_file pd) with
         | Some old => EventDeckCollection.player_tag old
         | None => EventDeck.player_tag deck
         end
    /\ EventDeckCollection.decks collection
       = match replace_existing deck
                 match read_collection (PlayerDir.collection_file pd) with
                 | Some old => EventDeckCollection.decks old
                 | None => []
                 end with
         | Some decks => decks
         | None => match read_collection (PlayerDir.collection_file pd) with
                   | Some old => EventDeckCollection.decks old
                   | None => []
                   end ++ [deck]
         end.
Proof.
  unfold _update_collection_file, add_deck, bind, ret, now.
  destruct (read_collection (PlayerDir.collection_file pd)) as [old|]; cbn [fst];
    eexists; repeat split.
Qed.

Lemma replace_existing_identities (deck : EventDeck.t) (decks decks' : list EventDeck.t) :
  replace_existing deck decks = Some decks' ->
  identities decks' = identities decks /\ In deck decks'.
Proof.
  intros H. apply replace_existing_Some in H.
  destruct H as (before & existing & after & -> & Hid & _ & ->).
  unfold identities. rewrite !map_app. cbn [map]. rewrite Hid.
  split; [reflexivity|]. apply in_or_app. right. now left.
Qed.

(** The sessions of a loaded collection pass the checks. *)
Lemma read_collection_valid (content : option EventDeckCollection.t) :
  forallb valid_session
    match read_collection content with
    | Some old => EventDeckCollection.decks old
    | None => []
    end = true.
Proof.
  unfold read_collection. destruct content as [c|]; [|reflexivity].
  destruct (forallb valid_session (EventDeckCollection.decks c)) eqn:E; [exact E|reflexivity].
Qed.

(** Putting a session into valid sessions gives valid sessions exactly when
    the session is valid. *)
Lemma upsert_valid (deck : EventDeck.t) (decks : list EventDeck.t) :
  forallb valid_session decks = true ->
  forallb valid_session
    match replace_existing deck decks with
    | Some decks' => decks'
    | None => decks ++ [deck]
    end = valid_session deck.
Proof.
  intros H. destruct (replace_existing deck decks) as [decks'|] eqn:E.
  - apply replace_existing_Some in E.
    destruct E as (before & existing & after & -> & _ & _ & ->).
    rewrite forallb_app in *. cbn [forallb] in *.
    apply andb_true_iff in H. destruct H as [Hb H].
    apply andb_true_iff in H. destruct H as [_ Ha].
    rewrite Hb, Ha. cbn. now rewrite andb_true_r.
  - rewrite forallb_app, H. cbn. now rewrite andb_true_r.
Qed.


(** The identities a load gives after a valid session is saved: those a
    load gave before, and that of the session. *)
Lemma save_event_deck_identities (clk : nat -> datetime) (deck : EventDeck.t)
    (pd : PlayerDir.t) (n : nat) (id : string) :
  valid_session deck = true ->
  In id (loaded_identities (fst (save_event_deck clk deck pd n)))
  <-> id = EventDeck.event_id deck \/ In id (loaded_identities pd).
Proof.
  intros Hvalid. unfold save_event_deck.
  set (written := write_file _ _ _ pd).
  assert (Hsame : loaded_identities written = loaded_identities pd)
    by (unfold loaded_identities, written, write_file; now destruct (subdir_of _)).
  rewrite <- Hsame.
  destruct (update_collection_file_spec clk deck written n) as (c & Hc & _ & Hdecks).
  pose proof (read_collection_valid (PlayerDir.collection_file written)) as Hold_valid.
  unfold loaded_identities at 1. rewrite Hc. unfold read_collection at 1.
  rewrite Hdecks, (upsert_valid deck _ Hold_valid), Hvalid, Hdecks.
  unfold loaded_identities.
  destruct (read_collection (PlayerDir.collection_file written)) as [old|].
  - destruct (replace_existing deck (EventDeckCollection.decks old)) as [decks'|] eqn:E.
    + destruct (replace_existing_identities deck _ decks' E) as [-> _].
      split; [now right|]. intros [-> | H]; [|exact H].
      destruct (in_dec string_dec (EventDeck.event_id deck)
                  (identities (EventDeckCollection.decks old))) as [H | H]; [exact H|].
      apply replace_existing_None in H. congruence.
    + unfold identities. rewrite map_app, in_app_iff. cbn. intuition congruence.
  - cbn. intuition congruence.
Qed.

(** The loop "Save each event deck" of [import_from_battle_logs]. *)
Lemma import_loop (clk : nat -> datetime) (decks : list EventDeck.t) :
  forall (imported : list EventDeck.t) (pd : PlayerDir.t) (n : nat),
  let result :=
    fst (foldM (fun state deck =>
                  pd' <- save_event_deck clk deck (snd state) ;;
                  ret (fst state ++ [deck], pd'))
               decks (imported, pd) n) in
  fst result = imported ++ decks
  /\ (well_placed pd -> well_placed (snd result))
  /\ (Forall (fun d => valid_session d = true) decks ->
      forall id, In id (loaded_identities (snd result))
                 <-> In id (identities decks) \/ In id (loaded_identities pd)).
Proof.
  induction decks as [|deck decks IH]; intros imported pd n; cbv zeta.
  - cbn. rewrite app_nil_r. repeat split; tauto.
  - pose proof (save_event_deck_well_placed clk deck pd n) as Hplaced.
    pose proof (save_event_deck_identities clk deck pd n) as Hids.
    match goal with
    | |- context [foldM ?f (deck :: decks) (imported, pd) n] =>
        assert (E : foldM f (deck :: decks) (imported, pd) n
                    = foldM f decks
                        (imported ++ [deck], fst (save_event_deck clk deck pd n))
                        (snd (save_event_deck clk deck pd n)))
          by (cbn [foldM]; unfold bind, ret; cbn [fst snd];
              now destruct (save_event_deck clk deck pd n))
    end.
    rewrite E. clear E.
    destruct (save_event_deck clk deck pd n) as [pd1 n1]. cbn [fst snd] in *.
    specialize (IH (imported ++ [deck]) pd1 n1). cbv zeta in IH.
    destruct IH as (Hfst & Hwp & Hcoll).
    split; [rewrite Hfst, <- app_assoc; reflexivity|].
    split; [intros H; apply Hwp, Hplaced, H|].
    intros Hvalid id. apply Forall_cons_iff in Hvalid. destruct Hvalid as [Hv Hvs].
    rewrite (Hcoll Hvs), (Hids id Hv). cbn [identities map In]. intuition congruence.
Qed.


(* ================================================================== *)
(** ** Further properties of the analysis *)
(* ================================================================== *)

Lemma count_card_usage (deck : EventDeck.t) (tables : CardTables.t) (card : CardInDeck.t)
    (c : string) :
  let tables' := count_card deck tables card in
  get0 c (CardTables.card_usage tables')
  = get0 c (CardTables.card_usage tables)
    + (if string_dec (CardInDeck.name card) c then 1 else 0)
  /\ (NoDup (dict_keys (CardTables.card_usage tables)) ->
      NoDup (dict_keys (CardTables.card_usage tables'))).
Proof.
  cbv zeta. unfold count_card. cbn [CardTables.card_usage].
  split; [|apply dict_set_NoDup].
  destruct (string_dec (CardInDeck.name card) c) as [<- | E].
  - rewrite get0_set_same. unfold get0. lia.
  - rewrite get0_set_other by congruence. lia.
Qed.

Lemma count_cards_usage (deck : EventDeck.t) (cards : list CardInDeck.t)
    (tables : CardTables.t) (c : string) :
  let tables' := fold_left (count_card deck) cards tables in
  get0 c (CardTables.card_usage tables')
  = get0 c (CardTables.card_usage tables)
    + Z.of_nat (count_occ string_dec (map CardInDeck.name cards) c)
  /\ (NoDup (dict_keys (CardTables.card_usage tables)) ->
      NoDup (dict_keys (CardTables.card_usage tables'))).
Proof.
  cbv zeta. revert tables. induction cards as [|card cards IH]; intros tables.
  - cbn. split; [lia | tauto].
  - cbn [fold_left map count_occ].
    destruct (IH (count_card deck tables card)) as [Hu Hnd].
    destruct (count_card_usage deck tables card c) as [Hu1 Hnd1].
    rewrite Hu, Hu1. split; [|tauto].
    destruct (string_dec (CardInDeck.name card) c); lia.
Qed.

Lemma card_usage_from (decks : list EventDeck.t) (tables : CardTables.t) (c : string) :
  let tables' :=
    fold_left
      (fun tables deck =>
         fold_left (count_card deck) (Deck.cards (EventDeck.deck deck)) tables)
      decks tables in
  get0 c (CardTables.card_usage tables')
  = get0 c (CardTables.card_usage tables) + summed_per_copy (fun _ => 1) c decks
  /\ (NoDup (dict_keys (CardTables.card_usage tables)) ->
      NoDup (dict_keys (CardTables.card_usage tables'))).
Proof.
  cbv zeta. revert tables. induction decks as [|deck decks IH]; intros tables.
  - cbn. split; [lia | tauto].
  - cbn [fold_left].
    destruct (IH (fold_left (count_card deck) (Deck.cards (EventDeck.deck deck)) tables))
      as [Hu Hnd].
    destruct (count_cards_usage deck (Deck.cards (EventDeck.deck deck)) tables c)
      as [Hu1 Hnd1].
    rewrite Hu, Hu1. split; [|tauto].
    unfold summed_per_copy, copies, deck_card_names. cbn [map fold_right]. lia.
Qed.

(** X19: in the three tables of the analysis a session counts once for
    every copy of a card in its deck: the usage of a card is the number of
    its copies over all decks, its wins and losses are those of the sessions
    multiplied by the copies; the cards listed are those of some deck, each
    listed once. *)
Theorem X19_card_tables_count_every_copy_of_a_card
    (decks : list EventDeck.t) (card : string) :
  let tables := card_tables decks in
  get0 card (CardTables.card_usage tables) = summed_per_copy (fun _ => 1) card decks
  /\ get0 card (CardTables.card_wins tables) = summed_per_copy deck_wins card decks
  /\ get0 card (CardTables.card_losses tables) = summed_per_copy deck_losses card decks
  /\ (In card (dict_keys (CardTables.card_usage tables))
      <-> exists d, In d decks /\ In card (deck_card_names d))
  /\ NoDup (dict_keys (CardTables.card_usage tables)).
Proof.
  cbv zeta. unfold card_tables.
  destruct (card_tables_from decks CardTables.empty card) as (Hw & Hl & Hk).
  destruct (card_usage_from decks CardTables.empty card) as (Hu & Hnd).
  split; [exact Hu|]. split; [exact Hw|]. split; [exact Hl|].
  split; [|apply Hnd; constructor].
  rewrite Hk. cbn. tauto.
Qed.

Lemma EventType_value_inj (a b : EventType) :
  EventType_value a = EventType_value b -> a = b.
Proof. destruct a, b; cbn; intros H; first [reflexivity | discriminate H]. Qed.

Lemma sum_of_from (f : EventDeck.t -> Z) (decks : list EventDeck.t) (start : Z) :
  fold_left (fun total d => total + f d) decks start = start + sum_of f decks.
Proof.
  unfold sum_of. revert start. induction decks as [|d decks IH]; intros start; cbn.
  - lia.
  - rewrite IH, (IH (f d)). lia.
Qed.

Lemma sum_of_cons (f : EventDeck.t -> Z) (d : EventDeck.t) (decks : list EventDeck.t) :
  sum_of f (d :: decks) = f d + sum_of f decks.
Proof. unfold sum_of at 1. cbn [fold_left]. now rewrite sum_of_from. Qed.

(** The entry of a type after the loop, from the entry before. *)
Lemma event_type_stats_from (decks : list EventDeck.t) (event_type : EventType) :
  forall stats : dict TypeStats.t,
    dict_get (EventType_value event_type) (fold_left count_event_type decks stats)
    = match of_type event_type decks with
      | [] => dict_get (EventType_value event_type) stats
      | _ :: _ =>
          let entry :=
            get_default TypeStats.zero (dict_get (EventType_value event_type) stats) in
          Some (TypeStats.mk
                  (TypeStats.count entry
                   + Z.of_nat (List.length (of_type event_type decks)))
                  (TypeStats.wins entry + sum_of deck_wins (of_type event_type decks))
                  (TypeStats.losses entry
                   + sum_of deck_losses (of_type event_type decks)))
      end.
Proof.
  induction decks as [|d decks IH]; intros stats; [reflexivity|].
  cbn [fold_left]. rewrite IH. unfold of_type. cbn [filter]. fold (of_type event_type decks).
  unfold count_event_type at 1 2 3 4.
  destruct (EventType_eqb (EventDeck.event_type d) event_type) eqn:E.
  - apply EventType_eqb_eq in E. rewrite E, !dict_get_set_same. cbn [get_default].
    cbn [TypeStats.count TypeStats.wins TypeStats.losses].
    destruct (of_type event_type decks) as [|d' rest] eqn:Er.
    + apply f_equal. apply (f_equal3 TypeStats.mk); unfold sum_of; cbn; lia.
    + cbv zeta. rewrite !(sum_of_cons _ d). apply f_equal.
      apply (f_equal3 TypeStats.mk); cbn [Datatypes.length]; lia.
  - assert (Hne : EventType_value event_type
                  <> EventType_value (EventDeck.event_type d)).
    { intros H. apply EventType_value_inj in H. subst event_type.
      assert (EventType_eqb (EventDeck.event_type d) (EventDeck.event_type d) = true)
        by (now apply EventType_eqb_eq).
      congruence. }
    rewrite !(dict_get_set_other _ _ _ _ Hne). reflexivity.
Qed.

(** X20: the breakdown by event type has an entry exactly for the types of
    the sessions analysed, under the name of the type, and the entry holds
    the number of sessions of the type and the sums of their wins and
    losses. *)
Theorem X20_breakdown_entry_counts_the_sessions_of_the_type
    (decks : list EventDeck.t) (event_type : EventType) :
  let sessions := of_type event_type decks in
  dict_get (EventType_value event_type) (event_type_stats decks)
  = match sessions with
    | [] => None
    | _ :: _ =>
        Some (TypeStats.mk (Z.of_nat (List.length sessions))
                           (sum_of deck_wins sessions) (sum_of deck_losses sessions))
    end.
Proof.
  cbv zeta. unfold event_type_stats. rewrite event_type_stats_from.
  destruct (of_type event_type decks); reflexivity.
Qed.

Lemma column_dict_set (f : TypeStats.t -> Z) (k : string) (v : TypeStats.t)
    (stats : dict TypeStats.t) :
  f TypeStats.zero = 0 ->
  column f (dict_set k v stats)
  = column f stats - f (get_default TypeStats.zero (dict_get k stats)) + f v.
Proof.
  intros Hz. unfold column. induction stats as [|[k0 v0] r IH]; cbn.
  - lia.
  - destruct (String.eqb k0 k); cbn; [lia|]. rewrite IH. lia.
Qed.

Lemma column_from (f : TypeStats.t -> Z) (g : EventDeck.t -> Z) (decks : list EventDeck.t) :
  f TypeStats.zero = 0 ->
  (forall stats d,
      f (get_default TypeStats.zero
           (dict_get (EventType_value (EventDeck.event_type d))
                     (count_event_type stats d)))
      = f (get_default TypeStats.zero
             (dict_get (EventType_value (EventDeck.event_type d)) stats)) + g d) ->
  forall stats,
    column f (fold_left count_event_type decks stats) = column f stats + sum_of g decks.
Proof.
  intros Hz Hstep. induction decks as [|d decks IH]; intros stats.
  - unfold sum_of. cbn [fold_left]. lia.
  - cbn [fold_left]. rewrite IH, sum_of_cons.
    specialize (Hstep stats d). unfold count_event_type in *.
    rewrite dict_get_set_same in Hstep. cbn [get_default] in Hstep.
    rewrite (column_dict_set f _ _ _ Hz), Hstep. lia.
Qed.

(** X21: the breakdown by event type adds up to the totals of the summary:
    its counts to the number of sessions, its wins and losses to the total
    wins and losses, and the total of battles is the total of wins plus the
    total of losses. *)
Theorem X21_breakdown_adds_up_to_the_totals (decks : list EventDeck.t) :
  let stats := event_type_stats decks in
  column TypeStats.count stats = Z.of_nat (List.length decks)
  /\ column TypeStats.wins stats = sum_of deck_wins decks
  /\ column TypeStats.losses stats = sum_of deck_losses decks
  /\ sum_of (fun d => deck_wins d + deck_losses d) decks
     = sum_of deck_wins decks + sum_of deck_losses decks.
Proof.
  cbv zeta. unfold event_type_stats.
  split; [|split; [|split]].
  - rewrite (column_from TypeStats.count (fun _ => 1)); [| reflexivity |].
    + unfold column. cbn. clear. induction decks as [|d decks IH]; [reflexivity|].
      rewrite sum_of_cons, IH. cbn [Datatypes.length]. lia.
    + intros stats d. unfold count_event_type. now rewrite dict_get_set_same.
  - rewrite (column_from TypeStats.wins deck_wins); [reflexivity | reflexivity |].
    intros stats d. unfold count_event_type. now rewrite dict_get_set_same.
  - rewrite (column_from TypeStats.losses deck_losses); [reflexivity | reflexivity |].
    intros stats d. unfold count_event_type. now rewrite dict_get_set_same.
  - induction decks as [|d decks IH]; [reflexivity|].
    rewrite !sum_of_cons, IH. lia.
Qed.

(* ================================================================== *)
(** ** Further properties of the pure part of the parser *)
(* ================================================================== *)

(** X22: a [battleTime] in the form of the game API - the fixed-width date
    and time of valid fields, alone or followed by a fraction that starts
    with a dot - parses to the [datetime] of these fields with no
    microseconds, and the clock is not read. *)
Theorem X22_api_battle_time_parses_to_its_fields
    (clk : nat -> datetime) (y m d hh mm ss : Z) (frac : string) (n : nat)
    (Hfields : valid_fields y m d hh mm ss = true)
    (Hfrac : frac = EmptyString \/ exists r, frac = String "." r) :
  _parse_battle_time clk (api_time_text y m d hh mm ss ++ frac) n
  = (mk_datetime y m d hh mm ss 0, n).
Proof.
  apply parse_battle_time_parsed.
  rewrite split_dot_head_api_time_text by assumption.
  now apply strptime_api_time_text.
Qed.

Lemma X22_witness :
  _parse_battle_time sample_clock "20241208T123456.000Z" 0%nat
  = (mk_datetime 2024 12 8 12 34 56 0, 0%nat).
Proof.
  apply (X22_api_battle_time_parses_to_its_fields sample_clock 2024 12 8 12 34 56
           ".000Z" 0%nat).
  - reflexivity.
  - right. now exists "000Z".
Defined.

(** X23: a battle counts as an event battle exactly when its mode name, in
    lower case, contains "challenge", "tournament", "special event",
    "sudden death" or "double elimination", or a player of its team has no
    cards, or its [isLadderBattle] is present and false.  The three longer
    challenge names of the table add nothing, and a battle without
    [isLadderBattle] counts as a ladder battle. *)
Theorem X23_event_battle_iff_mode_or_no_cards_or_not_ladder (battle : Json.battle) :
  let mode := lower (mode_name_of battle) in
  _is_event_battle battle = true
  <-> (contains "challenge" mode = true \/ contains "tournament" mode = true
       \/ contains "special event" mode = true \/ contains "sudden death" mode = true
       \/ contains "double elimination" mode = true)
      \/ (exists player, In player (get_default [] (Json.team battle))
                         /\ get_default [] (Json.cards player) = [])
      \/ Json.isLadderBattle battle = Some false.
Proof.
  cbv zeta. unfold _is_event_battle.
  set (m := lower (mode_name_of battle)).
  unfold EVENT_BATTLE_MODES. cbn [existsb fst].
  change (lower "Challenge") with "challenge".
  change (lower "Grand Challenge") with ("grand " ++ "challenge")%string.
  change (lower "Classic Challenge") with ("classic " ++ "challenge")%string.
  change (lower "Draft Challenge") with ("draft " ++ "challenge")%string.
  change (lower "Tournament") with "tournament".
  change (lower "Special Event") with "special event".
  change (lower "Sudden Death") with "sudden death".
  change (lower "Double Elimination") with "double elimination".
  assert (Hteam : existsb no_cards (get_default [] (Json.team battle)) = true
                  <-> exists player, In player (get_default [] (Json.team battle))
                                     /\ get_default [] (Json.cards player) = []).
  { rewrite existsb_exists. unfold no_cards.
    split; intros [p [Hin Hp]]; exists p; (split; [exact Hin|]);
      destruct (get_default [] (Json.cards p)); congruence. }
  destruct (contains "challenge" m) eqn:E1; [cbn; tauto|].
  rewrite (not_contains_ending "grand " _ _ E1),
    (not_contains_ending "classic " _ _ E1), (not_contains_ending "draft " _ _ E1).
  cbn [orb].
  destruct (contains "tournament" m); [cbn; tauto|].
  destruct (contains "special event" m); [cbn; tauto|].
  destruct (contains "sudden death" m); [cbn; tauto|].
  destruct (contains "double elimination" m); [cbn; tauto|].
  cbn [orb].
  destruct (existsb no_cards _) eqn:E2.
  - split; [intros _; right; left; now apply Hteam | reflexivity].
  - assert (Hno : ~ exists player, In player (get_default [] (Json.team battle))
                                   /\ get_default [] (Json.cards player) = [])
      by (intros H; apply Hteam in H; congruence).
    destruct (Json.isLadderBattle battle) as [[|]|]; cbn;
      split; intros H; try discriminate; try tauto;
      destruct H as [H | [H | H]]; try tauto; try discriminate;
      destruct H as [H | [H | [H | [H | H]]]]; discriminate.
Qed.

(* ================================================================== *)
(** ** Further properties: the counters of a built session *)
(* ================================================================== *)

Lemma ratio_in_unit (w t : Z) :
  0 <= w -> 0 < t -> w <= t ->
  (0 <= inject_Z w / inject_Z t)%Q /\ (inject_Z w / inject_Z t <= 1)%Q.
Proof.
  intros Hw Ht Hwt. destruct t as [|t|t]; try lia.
  unfold Qle, Qdiv, Qmult, Qinv, inject_Z. cbn. split; lia.
Qed.

Lemma record_result_consistent (b : BattleRecord.t) (p : EventPerformance.t) :
  consistent p -> consistent (record_result b p).
Proof.
  unfold consistent, record_result.
  destruct p as [w l wr ce cl mw cs bs pr]. cbn. intros (Hl & Hcs & Hcb & Hbw & Hr0 & Hr1).
  destruct (String.eqb (BattleRecord.result b) "win"); cbn.
  - destruct (Z.ltb_spec 0 (w + 1 + l)) as [Ht | Ht]; cbn.
    + destruct (ratio_in_unit (w + 1) (w + 1 + l)) as [H0 H1]; try lia.
      repeat split; try lia; assumption.
    + repeat split; try lia; assumption.
  - destruct (Z.ltb_spec 0 (w + (l + 1))) as [Ht | Ht]; cbn.
    + destruct (ratio_in_unit w (w + (l + 1))) as [H0 H1]; try lia.
      repeat split; try lia; assumption.
    + repeat split; try lia; assumption.
Qed.

Lemma replay_consistent (clk : nat -> datetime) (battles : list Json.battle)
    (d : EventDeck.t) (n : nat) :
  consistent (EventDeck.performance d) ->
  consistent (EventDeck.performance (fst (foldM (replay_step clk) battles d n))).
Proof.
  apply (foldM_preserves (fun d => consistent (EventDeck.performance d))).
  clear. intros d battle n H. unfold replay_step, bind, ret.
  destruct (_create_battle_record clk battle n) as [[record|] n1]; cbn [fst]; [|exact H].
  destruct (add_battle_performance clk record d n1) as [v ->].
  apply (record_result_consistent record) in H.
  now destruct (record_result record (EventDeck.performance d)).
Qed.

(** X24: the counters of a session the builder returns are consistent: no
    losses below 0, a current streak from 0 to the best streak, a best
    streak of at most the wins, and a win rate from 0 to 1. *)
Theorem X24_built_session_has_consistent_counters
    (clk : nat -> datetime) (hash : list string -> Z) (keys : Json.card -> CardKeys.t)
    (event_data : EventData.t) (battles : list Json.battle) (player_tag : string)
    (n : nat) (deck : EventDeck.t) :
  fst (_create_event_deck clk hash keys event_data battles player_tag n)
  = Returned (Some deck) ->
  let p := EventDeck.performance deck in
  0 <= EventPerformance.losses p
  /\ 0 <= EventPerformance.current_streak p <= EventPerformance.best_streak p
  /\ EventPerformance.best_streak p <= EventPerformance.wins p
  /\ (0 <= EventPerformance.win_rate p <= 1)%Q.
Proof.
  unfold _create_event_deck.
  destruct battles as [|first_battle rest]; [discriminate|].
  destruct (get_default [] (Json.team first_battle)) as [|player_data others];
    [discriminate|].
  destruct (negb (Nat.eqb _ 8)); [discriminate|].
  destruct (negb (Qle_bool 0 _ && Qle_bool _ 10)); [discriminate|].
  unfold bind, ret.
  destruct (_parse_battle_time clk _ n) as [start_time n1].
  destruct (_generate_event_id clk hash event_data first_battle n1) as [event_id n2].
  set (d0 := EventDeck.mk event_id player_tag _ _ start_time None _ _ [] None).
  assert (H0 : consistent (EventDeck.performance d0))
    by (unfold consistent; cbn; repeat split; try lia; discriminate).
  pose proof (replay_consistent clk (first_battle :: rest) d0 n2 H0) as H1.
  destruct (foldM (replay_step clk) (first_battle :: rest) d0 n2) as [d1 n3].
  cbn [fst] in H1.
  set (d2 := EventDeck.set_performance _ d1).
  destruct (update_progress_session clk d2 n3) as [v Hv].
  destruct (_update_progress clk d2 n3) as [d3 n4]. cbn [fst] in *.
  intros [= <-]. subst d3 d2. cbv zeta.
  destruct d1 as [? ? ? ? ? ? ? [] ? ?]. unfold consistent in H1. cbn in *.
  tauto.
Qed.

Lemma X24_witness :
  exists deck,
    fst (_create_event_deck sample_clock hash_of_first_run sample_card_keys
           (_extract_event_data battle_0900) [battle_0900; battle_0910; battle_1100]
           "#PLAYER" 0%nat)
    = Returned (Some deck)
    /\ EventPerformance.best_streak (EventDeck.performance deck)
       <= EventPerformance.wins (EventDeck.performance deck).
Proof.
  eexists. split; [vm_compute; reflexivity|].
  match goal with
  | |- context [EventDeck.performance ?d] =>
      pose proof (X24_built_session_has_consistent_counters
                    sample_clock hash_of_first_run sample_card_keys
                    (_extract_event_data battle_0900)
                    [battle_0900; battle_0910; battle_1100] "#PLAYER" 0%nat d) as H
  end.
  specialize (H ltac:(vm_compute; reflexivity)). cbv zeta in H.
  exact (proj1 (proj2 (proj2 H))).
Defined.

(* ================================================================== *)
(** ** Further properties: parsed sessions and the checks of a reload *)
(* ================================================================== *)


Lemma record_result_crowns (b : BattleRecord.t) (p : EventPerformance.t) :
  0 <= BattleRecord.crowns b -> 0 <= BattleRecord.opponent_crowns b ->
  0 <= EventPerformance.crowns_earned p /\ 0 <= EventPerformance.crowns_lost p ->
  0 <= EventPerformance.crowns_earned (record_result b p)
  /\ 0 <= EventPerformance.crowns_lost (record_result b p).
Proof.
  intros Hc Ho [He Hl]. unfold record_result.
  destruct p as [w l wr ce cl mw cs bs pr]. cbn in *.
  destruct (String.eqb (BattleRecord.result b) "win"); cbn;
    match goal with |- context [if ?c then _ else _] => destruct c end; cbn; lia.
Qed.

Lemma replay_crowns (clk : nat -> datetime) (battles : list Json.battle)
    (d : EventDeck.t) (n : nat) :
  Forall crowns_not_negative battles ->
  0 <= EventPerformance.crowns_earned (EventDeck.performance d)
  /\ 0 <= EventPerformance.crowns_lost (EventDeck.performance d) ->
  let d' := fst (foldM (replay_step clk) battles d n) in
  0 <= EventPerformance.crowns_earned (EventDeck.performance d')
  /\ 0 <= EventPerformance.crowns_lost (EventDeck.performance d').
Proof.
  intros Hall. cbv zeta.
  apply (foldM_preserves_In
           (fun d => 0 <= EventPerformance.crowns_earned (EventDeck.performance d)
                     /\ 0 <= EventPerformance.crowns_lost (EventDeck.performance d))).
  intros s battle k Hin Hs. rewrite Forall_forall in Hall. specialize (Hall battle Hin).
  unfold replay_step, _create_battle_record, bind, ret. unfold crowns_not_negative in Hall.
  destruct (get_default [] (Json.team battle)) as [|team0 team]; [exact Hs|].
  destruct (get_default [] (Json.opponent battle)) as [|opponent0 opponent]; [exact Hs|].
  destruct (_parse_battle_time clk _ k) as [t k1].
  set (record := BattleRecord.mk _ _ _ _ _ _ _ _).
  destruct (add_battle_performance clk record s k1) as [v Hv].
  cbn [fst]. rewrite Hv.
  pose proof (record_result_crowns record (EventDeck.performance s)
                (proj1 Hall) (proj2 Hall) Hs) as H.
  now destruct (record_result record (EventDeck.performance s)).
Qed.

(** A session built from battles without negative crowns passes the checks
    of the constructor. *)
Lemma create_event_deck_valid (clk : nat -> datetime) (hash : list string -> Z)
    (keys : Json.card -> CardKeys.t) (event_data : EventData.t)
    (battles : list Json.battle) (player_tag : string) (n : nat) (deck : EventDeck.t) :
  fst (_create_event_deck clk hash keys event_data battles player_tag n)
  = Returned (Some deck) ->
  Forall crowns_not_negative battles ->
  valid_session deck = true.
Proof.
  unfold _create_event_deck.
  destruct battles as [|first_battle rest]; [discriminate|].
  destruct (get_default [] (Json.team first_battle)) as [|player_data others];
    [discriminate|].
  destruct (negb (Nat.eqb _ 8)); [discriminate|].
  destruct (Qle_bool 0 _ && Qle_bool _ 10) eqn:Hq; cbn [negb]; [|discriminate].
  unfold bind, ret.
  destruct (_parse_battle_time clk _ n) as [start_time n1].
  destruct (_generate_event_id clk hash event_data first_battle n1) as [event_id n2].
  set (d0 := EventDeck.mk event_id player_tag _ _ start_time None _ _ [] None).
  intros Hbuilt Hcrowns.
  assert (H0 : consistent (EventDeck.performance d0))
    by (unfold consistent; cbn; repeat split; try lia; discriminate).
  pose proof (replay_consistent clk (first_battle :: rest) d0 n2 H0) as H1.
  pose proof (replay_crowns clk (first_battle :: rest) d0 n2 Hcrowns) as H2.
  cbv zeta in H2. specialize (H2 ltac:(cbn; lia)).
  destruct (replay_spec clk (first_battle :: rest) d0 n2) as (_ & Hs & _);
    [split; [reflexivity | left; reflexivity]|].
  destruct (foldM (replay_step clk) (first_battle :: rest) d0 n2) as [d1 n3].
  cbn [fst] in H1, H2, Hs.
  set (d2 := EventDeck.set_performance _ d1) in *.
  destruct (update_progress_session clk d2 n3) as [v Hv].
  destruct (_update_progress clk d2 n3) as [d3 n4]. cbn [fst] in *.
  injection Hbuilt as <-. subst d3 d2.
  unfold static_fields in Hs. subst d0.
  destruct d1 as [? ? ? ? ? ? dk [w l wr ce cl mw cs bs pr] ? ?].
  unfold consistent in H1. cbn in *.
  injection Hs as _ _ _ _ _ _ -> _.
  destruct H1 as (Hl & Hcs & Hcb & Hbw & Hr0 & Hr1). destruct H2 as [He Hlo].
  unfold valid_session, valid_deck, valid_performance. cbn.
  rewrite Hq. apply Qle_bool_iff in Hr0. apply Qle_bool_iff in Hr1. rewrite Hr0, Hr1.
  repeat (apply andb_true_iff; split); try reflexivity; apply Z.leb_le; lia.
Qed.

Lemma roster_sorted_crowns (battle : Json.battle) :
  crowns_not_negative battle -> crowns_not_negative (roster_sorted battle).
Proof.
  unfold crowns_not_negative, roster_sorted, sort_roster.
  destruct battle as [time mode [[|[[cards|] ? ? ? ?] others]|] opponent ladder];
    cbn; try tauto.
  destruct (forallb _ cards); cbn; tauto.
Qed.

(** X25: when no battle of the log has negative crowns for the first team
    player or the first opponent, every session the parser returns passes
    the checks the constructor of [EventDeck] makes when a file is read
    back: no counter below 0, a win rate from 0 to 1, an average elixir from
    0 to 10.  Such a session, once saved, is returned by the queries of its
    sub-directory. *)
Theorem X25_parsed_sessions_pass_the_checks_of_a_reload
    (clk : nat -> datetime) (hash : list string -> Z) (keys : Json.card -> CardKeys.t)
    (battle_logs : list Json.battle) (player_tag : string) (n : nat)
    (Hcrowns : Forall crowns_not_negative battle_logs) :
  Forall (fun deck => valid_session deck = true)
         (fst (parse_battle_logs clk hash keys battle_logs player_tag n)).
Proof.
  apply Forall_forall. intros deck Hin.
  destruct (parse_sessions_built _ _ _ _ _ _ _ Hin) as (k & first & rest & n' & Hk & Hb).
  apply (create_event_deck_valid _ _ _ _ _ _ _ _ Hb).
  apply Forall_forall. intros b Hb'. apply in_map_iff in Hb'.
  destruct Hb' as [b0 [<- Hb0]]. apply roster_sorted_crowns.
  rewrite Forall_forall in Hcrowns. apply Hcrowns.
  now apply (group_battles_of_the_log clk hash battle_logs n k _ (first :: rest) b0 Hk).
Qed.

Lemma X25_witness :
  Forall (fun deck => valid_session deck = true)
         (fst (parse_battle_logs sample_clock hash_of_first_run sample_card_keys
                 [battle_0900; battle_0910; battle_1100] "#PLAYER" 0%nat))
  /\ fst (parse_battle_logs sample_clock hash_of_first_run sample_card_keys
            [battle_0900; battle_0910; battle_1100] "#PLAYER" 0%nat) <> [].
Proof.
  split; [|vm_compute; discriminate].
  apply X25_parsed_sessions_pass_the_checks_of_a_reload.
  repeat constructor; cbn; lia.
Defined.

